(** * SkyScan, [ml-model/scripts/detection.py]: a shallow embedding

    The script prepares the data and the configuration for training a
    TensorFlow object-detection model.  This development embeds its
    functions and proves (or refutes) the properties stated about them.

    - Python [str] is [string] (a sequence of bytes, the UTF-8 encoding);
      [dict] is stdpp's [gmap]; [int] is [Z]; [float] is IEEE binary64, as
      the Standard Library's [SpecFloat] specifies it, with the exact value
      of a float a rational in [Q].
    - A Python call either returns, raises, or leaves the process through
      [sys.exit]: the type [outcome].
    - The calls into fiftyone, protobuf and the TensorFlow object-detection
      utilities are modelled by what those libraries document. *)

From Stdlib Require Import ZArith Lia SpecFloat Permutation.
From Stdlib Require Import Ascii String DecimalString DecimalZ.
From Stdlib Require Import QArith Qpower Lqa.
From stdpp Require Import base option list gmap strings.

#[local] Set Warnings "-clear-no-such-hyp".

Local Open Scope string_scope.
Local Open Scope Z_scope.
Local Open Scope list_scope.

(** ** Python outcomes *)

Inductive exn : Type :=
  | KeyError (key : string)
  | ValueError (msg : string)
  | OverflowError (msg : string)
  | FileNotFoundError (path : string)
  | JSONDecodeError
  | ParseError
  | CalledProcessError (code : Z).

Inductive outcome (A : Type) : Type :=
  | Ok (a : A)
  | Raised (e : exn)
  | Exited (status : Z).
Arguments Ok {A} a.
Arguments Raised {A} e.
Arguments Exited {A} status.

Global Instance outcome_ret : MRet outcome := fun A a => Ok a.
Global Instance outcome_bind : MBind outcome := fun A B k c =>
  match c with
  | Ok a => k a
  | Raised e => Raised e
  | Exited s => Exited s
  end.

(** [d[key]] on a dict. *)
Definition getitem {V} (d : gmap string V) (key : string) : outcome V :=
  match d !! key with
  | Some v => Ok v
  | None => Raised (KeyError key)
  end.

(** ** Strings: [needle in hay] *)

Fixpoint starts_with (p s : string) : bool :=
  match p, s with
  | EmptyString, _ => true
  | String a p', String b s' => if Ascii.eqb a b then starts_with p' s' else false
  | String _ _, EmptyString => false
  end.

Fixpoint contains (needle hay : string) : bool :=
  starts_with needle hay ||
  match hay with
  | EmptyString => false
  | String _ hay' => contains needle hay'
  end.

(** ** Strings read from the end *)

(** The characters of a string in reverse order. *)
Fixpoint string_rev (s : string) : string :=
  match s with
  | EmptyString => ""
  | String c s' => string_rev s' +:+ String c ""
  end.

(** ** Path Builder: [set_filenames] *)

Definition set_filenames (base_models : gmap string (gmap string string))
    (training_name chosen_model : string) : outcome (gmap string string) :=
  let filepaths : gmap string string := ∅ in
  m1 ← getitem base_models chosen_model;
  base_pipeline_file ← getitem m1 "base_pipeline_file";
  m2 ← getitem base_models chosen_model;
  model_name ← getitem m2 "model_name";
  let filepaths := <["train_record_file" :=
    "/tf/dataset-export/" +:+ training_name +:+ "/train/tf.records"]> filepaths in
  let filepaths := <["val_record_file" :=
    "/tf/dataset-export/" +:+ training_name +:+ "/val/tf.records"]> filepaths in
  let filepaths := <["val_export_dir" :=
    "/tf/dataset-export/" +:+ training_name +:+ "/val/"]> filepaths in
  let filepaths := <["train_export_dir" :=
    "/tf/dataset-export/" +:+ training_name +:+ "/train/"]> filepaths in
  let filepaths := <["model_export_dir" :=
    "/tf/model-export/" +:+ training_name +:+ "/"]> filepaths in
  let filepaths := <["label_map_file" :=
    "/tf/dataset-export/" +:+ training_name +:+ "/label_map.pbtxt"]> filepaths in
  let filepaths := <["model_dir" :=
    "/tf/training/" +:+ training_name +:+ "/"]> filepaths in
  m3 ← getitem base_models chosen_model;
  pretrained_checkpoint ← getitem m3 "pretrained_checkpoint";
  let filepaths := <["pretrained_checkpoint" := pretrained_checkpoint]> filepaths in
  let filepaths := <["pipeline_file" :=
    "/tf/models/research/deploy/" +:+ base_pipeline_file]> filepaths in
  let filepaths := <["fine_tune_checkpoint" :=
    "/tf/models/research/deploy/" +:+ model_name +:+ "/checkpoint/ckpt-0"]> filepaths in
  let filepaths := <["base_pipeline_file" := base_pipeline_file]> filepaths in
  Ok filepaths.

(** The dict [set_filenames] has filled in when it returns, from the three
    values it read off the chosen base model. *)
Definition filepaths_of (training_name bpf mn pc : string) : gmap string string :=
  <["base_pipeline_file" := bpf]>
  (<["fine_tune_checkpoint" :=
       "/tf/models/research/deploy/" +:+ mn +:+ "/checkpoint/ckpt-0"]>
  (<["pipeline_file" := "/tf/models/research/deploy/" +:+ bpf]>
  (<["pretrained_checkpoint" := pc]>
  (<["model_dir" := "/tf/training/" +:+ training_name +:+ "/"]>
  (<["label_map_file" :=
       "/tf/dataset-export/" +:+ training_name +:+ "/label_map.pbtxt"]>
  (<["model_export_dir" := "/tf/model-export/" +:+ training_name +:+ "/"]>
  (<["train_export_dir" := "/tf/dataset-export/" +:+ training_name +:+ "/train/"]>
  (<["val_export_dir" := "/tf/dataset-export/" +:+ training_name +:+ "/val/"]>
  (<["val_record_file" :=
       "/tf/dataset-export/" +:+ training_name +:+ "/val/tf.records"]>
  (<["train_record_file" :=
       "/tf/dataset-export/" +:+ training_name +:+ "/train/tf.records"]>
   ∅)))))))))).

(** The entries of the returned dict whose value is built from
    [training_name]. *)
Definition scoped_keys : list string :=
  [ "train_record_file"; "val_record_file"; "val_export_dir";
    "train_export_dir"; "model_export_dir"; "label_map_file"; "model_dir" ].

(** A scoped entry is a fixed prefix, the training name, and a suffix that
    tells the scoped entries with that prefix apart. *)
Definition scoped_shape (k : string) : string * string :=
  if String.eqb k "train_record_file" then ("/tf/dataset-export/", "/train/tf.records")
  else if String.eqb k "val_record_file" then ("/tf/dataset-export/", "/val/tf.records")
  else if String.eqb k "val_export_dir" then ("/tf/dataset-export/", "/val/")
  else if String.eqb k "train_export_dir" then ("/tf/dataset-export/", "/train/")
  else if String.eqb k "model_export_dir" then ("/tf/model-export/", "/")
  else if String.eqb k "label_map_file" then ("/tf/dataset-export/", "/label_map.pbtxt")
  else ("/tf/training/", "/").

(** The entries whose value comes from the chosen base model alone. *)
Definition base_model_keys : list string :=
  [ "pretrained_checkpoint"; "pipeline_file"; "fine_tune_checkpoint";
    "base_pipeline_file" ].

(** The eleven keys of the dict that [set_filenames] fills in. *)
Definition filepaths_keys : gset string :=
  list_to_set (scoped_keys ++ base_model_keys).

(** The three entries that [set_filenames] reads off a base model, in the
    order in which it reads them (lines 70, 71 and 87). *)
Definition first_missing_entry (m : gmap string string) : option string :=
  match m !! "base_pipeline_file", m !! "model_name", m !! "pretrained_checkpoint" with
  | None, _, _ => Some "base_pipeline_file"
  | Some _, None, _ => Some "model_name"
  | Some _, Some _, None => Some "pretrained_checkpoint"
  | Some _, Some _, Some _ => None
  end.

(** ** Python floats and [math.floor]

    A Python [float] is an IEEE 754 binary64 number; arithmetic rounds to
    nearest, ties to even. *)

Definition prec : Z := 53.
Definition emax : Z := 1024.

(** [float(n)] for an [int]: correctly rounded, [OverflowError] past the
    largest double. *)
Definition float_of_int (n : Z) : outcome spec_float :=
  match binary_normalize prec emax n 0 false with
  | S754_infinity _ => Raised (OverflowError "int too large to convert to float")
  | x => Ok x
  end.

(** [n * x] with [n] an [int] and [x] a [float]. *)
Definition int_mul_float (n : Z) (x : spec_float) : outcome spec_float :=
  n' ← float_of_int n;
  Ok (SFmul prec emax n' x).

(** [n - x] with [n] an [int] and [x] a [float]. *)
Definition int_sub_float (n : Z) (x : spec_float) : outcome spec_float :=
  n' ← float_of_int n;
  Ok (SFsub prec emax n' x).

(** [math.floor(x)]: the largest [int] that is not above [x]; it raises on
    NaN and on the infinities. *)
Definition math_floor (x : spec_float) : outcome Z :=
  match x with
  | S754_nan => Raised (ValueError "cannot convert float NaN to integer")
  | S754_infinity _ =>
      Raised (OverflowError "cannot convert float infinity to integer")
  | S754_zero _ => Ok 0
  | S754_finite s m e => Ok (Z.shiftl (cond_Zopp s (Zpos m)) e)
  end.

(** The literal [0.8]: the double nearest to 8/10, 0x1.999999999999ap-1. *)
Definition lit_0_8 : spec_float := S754_finite false 7205759403792794 (-53).

(** The literal [0.5]. *)
Definition lit_0_5 : spec_float := S754_finite false 4503599627370496 (-53).

(** The literals [1.0] and [0.0]. *)
Definition lit_1_0 : spec_float := S754_finite false 4503599627370496 (-52).
Definition lit_0_0 : spec_float := S754_zero false.

(** ** Floats as rationals

    The exact value of a float, for stating bounds on what the rounded
    operations return. *)

(** [m * 2 ^ e]. *)
Definition F2Q (m e : Z) : Q := (inject_Z m * 2 ^ e)%Q.

(** The value of a finite float (0 for the others). *)
Definition value (x : spec_float) : Q :=
  match x with
  | S754_finite s m e => F2Q (cond_Zopp s (Zpos m)) e
  | _ => 0%Q
  end.

(** A float that is zero or finite and positive. *)
Definition nonneg_finite (x : spec_float) : Prop :=
  match x with
  | S754_zero _ => True
  | S754_finite false _ _ => True
  | _ => False
  end.

(** [0 <= f <= 1] for a float in canonical form, as every Python float
    is. *)
Definition is_fraction (f : spec_float) : bool :=
  valid_binary prec emax f
  && SFleb (S754_zero false) f
  && SFleb f (S754_finite false 4503599627370496 (-52)).

(** ** Samples, views and the fiftyone stages *)

Record Detection := { label : string }.

(** A sample: its tags and its label fields.  A field that is missing in
    [fields] reads as [None]. *)
Record Sample := {
  filepath : string;
  tags : list string;
  fields : gmap string (list Detection)
}.

#[global] Instance Detection_eq_dec : EqDecision Detection.
Proof. solve_decision. Defined.

#[global] Instance Sample_eq_dec : EqDecision Sample.
Proof. solve_decision. Defined.

(** What the script does to the world around it, in order. *)
Inductive event : Type :=
  | EvIsDir (path : string)
  | EvLogError (msg : string)
  | EvLogInfo (msg : string)
  | EvOpenRead (path : string)
  | EvWrite (path content : string)
  | EvLoadDataset (name : string)
  | EvExport (export_dir label_field : string) (samples : list Sample).

Record World := {
  dirs : gset string;
  files : gmap string string;
  datasets : gmap string (list Sample);
  trace : list event
}.

Definition emit (ev : event) (w : World) : World :=
  {| dirs := dirs w; files := files w; datasets := datasets w;
     trace := trace w ++ [ev] |}.

Module fo.

(** [fo.load_dataset(name)]. *)
Definition load_dataset (name : string) (w : World)
    : outcome (list Sample) * World :=
  let w := emit (EvLoadDataset name) w in
  match datasets w !! name with
  | Some ds => (Ok ds, w)
  | None => (Raised (ValueError ("Dataset not found: " +:+ name)), w)
  end.

Definition has_tag (tag : string) (s : Sample) : bool :=
  existsb (String.eqb tag) (tags s).

(** [view.match_tags(tag)]: the samples that carry the tag, in order. *)
Definition match_tags (tag : string) (v : list Sample) : list Sample :=
  List.filter (has_tag tag) v.

(** [view.skip(n)]: "Omits the given number of samples from the head of
    the collection"; a non-positive [n] omits nothing. *)
Definition skip (n : Z) (v : list Sample) : list Sample :=
  drop (Z.to_nat n) v.

(** [view.limit(n)]: at most the first [n] samples; a non-positive [n]
    gives the empty view.  (The script does not call it.) *)
Definition limit (n : Z) (v : list Sample) : list Sample :=
  firstn (Z.to_nat n) v.

(** [view.take(size, seed=None)]: "Randomly samples the given number of
    samples from the collection"; a non-positive [size] gives the empty
    view.  Without a seed the draw comes from the process-wide random
    generator, so the result is any [size] samples of the view in any
    order: a relation, not a function. *)
Inductive take (size : Z) (v : list Sample) : list Sample -> Prop :=
  | take_nothing : size <= 0 -> take size v []
  | take_sample (p : list Sample) :
      0 < size -> Permutation p v -> take size v (firstn (Z.to_nat size) p).

(** [len(view)]. *)
Definition len (v : list Sample) : Z := Z.of_nat (length v).

(** [sample[field]]. *)
Definition getfield (s : Sample) (field : string) : option (list Detection) :=
  fields s !! field.

(** [dataset.get_field_schema()], as far as the label fields go.  A
    dataset is given by its samples, and its fields are the ones that a
    sample of it holds a value for: adding a sample with a new field adds
    the field to the dataset.  A field of the dataset reads as [None] on
    the samples that hold no value for it; a name that is no field of the
    dataset is refused by the stages and by the exporter. *)
Definition get_field_schema (dataset : list Sample) : gset string :=
  ⋃ (map (fun s => dom (fields s)) dataset).

(** [view.export(export_dir=..., label_field=field)] reads the field on
    every sample of the view and raises [KeyError] at the first one when
    the dataset has no such field; on an empty view there is nothing to
    read.  So the export completes when the view is empty or the dataset
    has the field. *)
Definition can_export (dataset : list Sample) (field : string)
    (view : list Sample) : bool :=
  match view with
  | [] => true
  | _ :: _ => bool_decide (field ∈ get_field_schema dataset)
  end.

End fo.

(** A view as the label scan reads it: the field names of its dataset and
    its samples in order. *)
Record View := {
  view_schema : gset string;
  view_samples : list Sample
}.

(** The view of a dataset that holds the given samples of it. *)
Definition view_of (dataset samples : list Sample) : View :=
  {| view_schema := fo.get_field_schema dataset; view_samples := samples |}.

(** ** Dataset Splitter *)

(** Lines 121-123: the two partition sizes. *)
Definition split_lengths (sample_len : Z) (training_percentage : spec_float)
    : outcome (Z * Z) :=
  x ← int_mul_float sample_len training_percentage;
  train_len ← math_floor x;
  rest ← int_sub_float 1 training_percentage;
  y ← int_mul_float sample_len rest;
  val_len ← math_floor y;
  Ok (train_len, val_len).

(** Lines 117-139.  [shuffle] is fiftyone's seeded [view.shuffle(seed)]: a
    fixed reordering for a given seed and collection.  The two [take]
    calls carry no seed, so the run is a relation between the world before
    and the outcome and world after.  An export that completes is an
    [EvExport] of the trace; one that raises leaves none, and the message
    of its [KeyError] is fiftyone's. *)
Section Splitter.

Variable shuffle : Z -> list Sample -> list Sample.

Inductive export_voxel51_dataset_to_tfrecords
    (dataset_name : string) (filepaths : gmap string string)
    (label_field : string) (training_percentage : spec_float) (w : World)
    : outcome unit -> World -> Prop :=
  | export_no_dataset e w1 :
      fo.load_dataset dataset_name w = (Raised e, w1) ->
      export_voxel51_dataset_to_tfrecords dataset_name filepaths label_field
        training_percentage w (Raised e) w1
  | export_bad_lengths dataset w1 e :
      fo.load_dataset dataset_name w = (Ok dataset, w1) ->
      split_lengths (fo.len (shuffle 51 (fo.match_tags "training" dataset)))
        training_percentage = Raised e ->
      export_voxel51_dataset_to_tfrecords dataset_name filepaths label_field
        training_percentage w (Raised e) w1
  | export_no_val_dir dataset w1 train_len val_len val_view train_view :
      let view := shuffle 51 (fo.match_tags "training" dataset) in
      fo.load_dataset dataset_name w = (Ok dataset, w1) ->
      split_lengths (fo.len view) training_percentage = Ok (train_len, val_len) ->
      fo.take val_len view val_view ->
      fo.take train_len (fo.skip val_len view) train_view ->
      filepaths !! "val_export_dir" = None ->
      export_voxel51_dataset_to_tfrecords dataset_name filepaths label_field
        training_percentage w (Raised (KeyError "val_export_dir")) w1
  | export_val_raises dataset w1 train_len val_len val_view train_view val_dir
        msg :
      let view := shuffle 51 (fo.match_tags "training" dataset) in
      fo.load_dataset dataset_name w = (Ok dataset, w1) ->
      split_lengths (fo.len view) training_percentage = Ok (train_len, val_len) ->
      fo.take val_len view val_view ->
      fo.take train_len (fo.skip val_len view) train_view ->
      filepaths !! "val_export_dir" = Some val_dir ->
      fo.can_export dataset label_field val_view = false ->
      export_voxel51_dataset_to_tfrecords dataset_name filepaths label_field
        training_percentage w (Raised (KeyError msg)) w1
  | export_no_train_dir dataset w1 train_len val_len val_view train_view val_dir :
      let view := shuffle 51 (fo.match_tags "training" dataset) in
      fo.load_dataset dataset_name w = (Ok dataset, w1) ->
      split_lengths (fo.len view) training_percentage = Ok (train_len, val_len) ->
      fo.take val_len view val_view ->
      fo.take train_len (fo.skip val_len view) train_view ->
      filepaths !! "val_export_dir" = Some val_dir ->
      fo.can_export dataset label_field val_view = true ->
      filepaths !! "train_export_dir" = None ->
      export_voxel51_dataset_to_tfrecords dataset_name filepaths label_field
        training_percentage w (Raised (KeyError "train_export_dir"))
        (emit (EvExport val_dir label_field val_view) w1)
  | export_train_raises dataset w1 train_len val_len val_view train_view
        val_dir train_dir msg :
      let view := shuffle 51 (fo.match_tags "training" dataset) in
      fo.load_dataset dataset_name w = (Ok dataset, w1) ->
      split_lengths (fo.len view) training_percentage = Ok (train_len, val_len) ->
      fo.take val_len view val_view ->
      fo.take train_len (fo.skip val_len view) train_view ->
      filepaths !! "val_export_dir" = Some val_dir ->
      fo.can_export dataset label_field val_view = true ->
      filepaths !! "train_export_dir" = Some train_dir ->
      fo.can_export dataset label_field train_view = false ->
      export_voxel51_dataset_to_tfrecords dataset_name filepaths label_field
        training_percentage w (Raised (KeyError msg))
        (emit (EvExport val_dir label_field val_view) w1)
  | export_done dataset w1 train_len val_len val_view train_view val_dir train_dir :
      let view := shuffle 51 (fo.match_tags "training" dataset) in
      fo.load_dataset dataset_name w = (Ok dataset, w1) ->
      split_lengths (fo.len view) training_percentage = Ok (train_len, val_len) ->
      fo.take val_len view val_view ->
      fo.take train_len (fo.skip val_len view) train_view ->
      filepaths !! "val_export_dir" = Some val_dir ->
      fo.can_export dataset label_field val_view = true ->
      filepaths !! "train_export_dir" = Some train_dir ->
      fo.can_export dataset label_field train_view = true ->
      export_voxel51_dataset_to_tfrecords dataset_name filepaths label_field
        training_percentage w (Ok ())
        (emit (EvExport train_dir label_field train_view)
           (emit (EvExport val_dir label_field val_view) w1)).

End Splitter.

(** The split by position, as the specification words it: validation is
    the first [val_len] samples of the shuffled view, training the next
    [train_len].  It is what the head-of-collection stage [limit] would give
    in place of [take]. *)
Definition head_split (view : list Sample) (train_len val_len : Z)
    : list Sample * list Sample :=
  (fo.limit val_len view, fo.limit train_len (fo.skip val_len view)).

(** ** Label Mapping Builder *)

(** [label not in class_names]. *)
Definition not_in (label : string) (class_names : list string) : bool :=
  negb (existsb (String.eqb label) class_names).

(** A sample with only the given label field. *)
Definition only_field (field : string) (s : Sample) : Sample :=
  {| filepath := filepath s; tags := tags s;
     fields := match fields s !! field with
               | Some d => {[ field := d ]}
               | None => ∅
               end |}.

(** [view.select_fields(field)]: the samples with only that label field.
    The stage is checked against the dataset when it is added to the view:
    a field that the dataset does not have raises [ValueError], before any
    sample is read.  The exception is fiftyone's; of its message only the
    field name is kept. *)
Definition select_fields (field : string) (view : View)
    : outcome (list Sample) :=
  if bool_decide (field ∈ view_schema view) then
    Ok (map (only_field field) (view_samples view))
  else Raised (ValueError ("Field does not exist: " +:+ field)).

(** Lines 192-200. *)
Definition _create_list_of_class_names (view : View)
    (label_field : string) : outcome (list string) :=
  samples ← select_fields label_field view;
  Ok (fold_left
        (fun class_names sample =>
           match fo.getfield sample label_field with
           | Some detections =>
               fold_left
                 (fun class_names detection =>
                    let label := label detection in
                    if not_in label class_names then class_names ++ [label]
                    else class_names)
                 detections class_names
           | None => class_names
           end)
        samples []).

(** The inner step of the scan (lines 196-198). *)
Definition add_label (class_names : list string) (label : string) : list string :=
  if not_in label class_names then class_names ++ [label] else class_names.

(** The labels in the order the scan meets them: the samples in view
    order, the detections of each sample in list order, samples with a
    null field contributing nothing. *)
Definition scanned_labels (view : list Sample) (label_field : string)
    : list string :=
  flat_map (fun s => match fo.getfield s label_field with
                     | Some detections => map label detections
                     | None => []
                     end) view.

(** The position at which [x] first occurs in [l] ([length l] when it does
    not occur). *)
Fixpoint first_index (x : string) (l : list string) : nat :=
  match l with
  | [] => O
  | y :: l' => if String.eqb x y then O else S (first_index x l')
  end.

(** An item of the label map (protobuf message [StringIntLabelMapItem],
    proto2: every field is optional and remembers whether it was set). *)
Record StringIntLabelMapItem := {
  item_name : option string;
  item_id : option Z;
  item_display_name : option string
}.

(** [item.name], [item.id], [item.display_name]: the value, or the
    default of the type when the field is not set. *)
Definition name_of (it : StringIntLabelMapItem) : string :=
  default "" (item_name it).
Definition id_of (it : StringIntLabelMapItem) : Z :=
  default 0 (item_id it).
Definition display_name_of (it : StringIntLabelMapItem) : string :=
  default "" (item_display_name it).

(** The message [StringIntLabelMap]: its repeated field [item]. *)
Definition StringIntLabelMap := list StringIntLabelMapItem.

(** Lines 172-174: [enumerate(class_names, start=1)]. *)
Fixpoint enumerate_from (start : Z) (class_names : list string)
    : list (Z * string) :=
  match class_names with
  | [] => []
  | name :: rest => (start, name) :: enumerate_from (start + 1) rest
  end.

Definition label_map_of (class_names : list string) : StringIntLabelMap :=
  fold_left
    (fun msg '(id, name) =>
       msg ++ [ {| item_name := Some name; item_id := Some id;
                   item_display_name := None |} ])
    (enumerate_from 1 class_names) [].

(** The in-memory assignment of IDs to names that a label map stands for. *)
Definition id_assignment (msg : StringIntLabelMap) : list (Z * string) :=
  map (fun it => (id_of it, name_of it)) msg.

(** *** The protobuf text format *)

Definition dquote : ascii := ascii_of_nat 34.
Definition squote : ascii := ascii_of_nat 39.
Definition backslash : ascii := ascii_of_nat 92.
Definition newline : ascii := ascii_of_nat 10.
Definition tab : ascii := ascii_of_nat 9.
Definition cr : ascii := ascii_of_nat 13.
Definition nl : string := String newline "".
Definition quote : string := String dquote "".

(** [text_encoding.CEscape(text, as_utf8=True)]: the six characters below
    are escaped, every other one is written as it is. *)
Definition escape_char (c : ascii) : string :=
  if Ascii.eqb c tab then String backslash "t"
  else if Ascii.eqb c newline then String backslash "n"
  else if Ascii.eqb c cr then String backslash "r"
  else if Ascii.eqb c dquote then String backslash quote
  else if Ascii.eqb c squote then String backslash (String squote "")
  else if Ascii.eqb c backslash then String backslash (String backslash "")
  else String c "".

Fixpoint CEscape (text : string) : string :=
  match text with
  | EmptyString => ""
  | String c rest => escape_char c +:+ CEscape rest
  end.

Definition print_int (z : Z) : string := NilZero.string_of_int (Z.to_int z).

(** One [item { ... }] block; the fields that are set, in field-number
    order (name = 1, id = 2, display_name = 3). *)
Definition print_item (it : StringIntLabelMapItem) : string :=
  "item {" +:+ nl +:+
  match item_name it with
  | Some n => "  name: " +:+ quote +:+ CEscape n +:+ quote +:+ nl
  | None => ""
  end +:+
  match item_id it with
  | Some i => "  id: " +:+ print_int i +:+ nl
  | None => ""
  end +:+
  match item_display_name it with
  | Some n => "  display_name: " +:+ quote +:+ CEscape n +:+ quote +:+ nl
  | None => ""
  end +:+
  "}" +:+ nl.

(** [text_format.MessageToBytes(msg, as_utf8=True)], then
    [str(..., "utf-8")]: encoding and decoding are inverse on the text, so
    the text itself. *)
Fixpoint MessageToBytes (msg : StringIntLabelMap) : string :=
  match msg with
  | [] => ""
  | it :: rest => print_item it +:+ MessageToBytes rest
  end.

(** *** The label-map reader

    [text_format.Merge] on the fragment of the text format that
    [MessageToBytes] writes for this message: [item { ... }] blocks with the
    scalar fields [name], [id] and [display_name], double-quoted strings
    with the simple backslash escapes, and decimal integers.  Any other
    text is a parse error. *)

Inductive token : Type :=
  | TIdent (s : string)
  | TLBrace
  | TRBrace
  | TColon
  | TString (s : string)
  | TInt (z : Z).

Inductive lex_state : Type :=
  | LIdle
  | LIdent (acc : string)
  | LNum (acc : string)
  | LStr (acc : string)
  | LEsc (acc : string).

Definition in_range (lo hi : nat) (c : ascii) : bool :=
  (lo <=? nat_of_ascii c)%nat && (nat_of_ascii c <=? hi)%nat.

Definition is_digit (c : ascii) : bool := in_range 48 57 c.

Definition is_ident_start (c : ascii) : bool :=
  in_range 65 90 c || in_range 97 122 c || Ascii.eqb c "_".

Definition is_space (c : ascii) : bool :=
  Ascii.eqb c " " || Ascii.eqb c newline || Ascii.eqb c tab || Ascii.eqb c cr.

(** The character an escape sequence [\c] stands for. *)
Definition unescape_char (c : ascii) : option ascii :=
  if Ascii.eqb c "t" then Some tab
  else if Ascii.eqb c "n" then Some newline
  else if Ascii.eqb c "r" then Some cr
  else if Ascii.eqb c dquote then Some dquote
  else if Ascii.eqb c squote then Some squote
  else if Ascii.eqb c backslash then Some backslash
  else None.

Definition snoc (s : string) (c : ascii) : string := s +:+ String c "".

Definition number_of (digits : string) : option Z :=
  option_map Z.of_int (NilZero.int_of_string digits).

(** The token that is complete when the input ends or a new token starts. *)
Definition flush (st : lex_state) (acc : list token) : option (list token) :=
  match st with
  | LIdle => Some acc
  | LIdent a => Some (acc ++ [TIdent a])
  | LNum a => option_map (fun z => acc ++ [TInt z]) (number_of a)
  | LStr _ | LEsc _ => None
  end.

Fixpoint lex (s : string) (st : lex_state) (acc : list token)
    : option (list token) :=
  match s with
  | EmptyString => flush st acc
  | String c s' =>
      let start (acc : list token) : option (list token) :=
        if is_space c then lex s' LIdle acc
        else if Ascii.eqb c "{" then lex s' LIdle (acc ++ [TLBrace])
        else if Ascii.eqb c "}" then lex s' LIdle (acc ++ [TRBrace])
        else if Ascii.eqb c ":" then lex s' LIdle (acc ++ [TColon])
        else if Ascii.eqb c dquote then lex s' (LStr "") acc
        else if is_digit c || Ascii.eqb c "-" then lex s' (LNum (String c "")) acc
        else if is_ident_start c then lex s' (LIdent (String c "")) acc
        else None in
      match st with
      | LIdle => start acc
      | LIdent a =>
          if is_ident_start c || is_digit c then lex s' (LIdent (snoc a c)) acc
          else match flush st acc with Some acc' => start acc' | None => None end
      | LNum a =>
          if is_digit c then lex s' (LNum (snoc a c)) acc
          else match flush st acc with Some acc' => start acc' | None => None end
      | LStr a =>
          if Ascii.eqb c dquote then lex s' LIdle (acc ++ [TString a])
          else if Ascii.eqb c backslash then lex s' (LEsc a) acc
          else if Ascii.eqb c newline then None
          else lex s' (LStr (snoc a c)) acc
      | LEsc a =>
          match unescape_char c with
          | Some c' => lex s' (LStr (snoc a c')) acc
          | None => None
          end
      end
  end.

Definition empty_item : StringIntLabelMapItem :=
  {| item_name := None; item_id := None; item_display_name := None |}.

(** A scalar field given again replaces the earlier value ([Merge]). *)
Definition set_string_field (field value : string) (it : StringIntLabelMapItem)
    : option StringIntLabelMapItem :=
  if String.eqb field "name" then
    Some {| item_name := Some value; item_id := item_id it;
            item_display_name := item_display_name it |}
  else if String.eqb field "display_name" then
    Some {| item_name := item_name it; item_id := item_id it;
            item_display_name := Some value |}
  else None.

Definition set_int_field (field : string) (value : Z) (it : StringIntLabelMapItem)
    : option StringIntLabelMapItem :=
  if String.eqb field "id" then
    Some {| item_name := item_name it; item_id := Some value;
            item_display_name := item_display_name it |}
  else None.

(** [cur] is the item whose block is open, if any. *)
Fixpoint parse_tokens (ts : list token) (cur : option StringIntLabelMapItem)
    (msg : StringIntLabelMap) : option StringIntLabelMap :=
  match cur, ts with
  | None, [] => Some msg
  | None, TIdent f :: TLBrace :: ts' =>
      if String.eqb f "item" then parse_tokens ts' (Some empty_item) msg else None
  | Some it, TIdent f :: TColon :: TString v :: ts' =>
      match set_string_field f v it with
      | Some it' => parse_tokens ts' (Some it') msg
      | None => None
      end
  | Some it, TIdent f :: TColon :: TInt v :: ts' =>
      match set_int_field f v it with
      | Some it' => parse_tokens ts' (Some it') msg
      | None => None
      end
  | Some it, TRBrace :: ts' => parse_tokens ts' None (msg ++ [it])
  | _, _ => None
  end.

(** The tokens of one printed [item { ... }] block. *)
Definition tokens_of_item (it : StringIntLabelMapItem) : list token :=
  [TIdent "item"; TLBrace] ++
  match item_name it with
  | Some n => [TIdent "name"; TColon; TString n]
  | None => []
  end ++
  match item_id it with
  | Some i => [TIdent "id"; TColon; TInt i]
  | None => []
  end ++
  match item_display_name it with
  | Some n => [TIdent "display_name"; TColon; TString n]
  | None => []
  end ++
  [TRBrace].

Definition Merge (text : string) : outcome StringIntLabelMap :=
  match lex text LIdle [] with
  | Some ts =>
      match parse_tokens ts None [] with
      | Some msg => Ok msg
      | None => Raised ParseError
      end
  | None => Raised ParseError
  end.

(** *** The object-detection label-map utilities *)

(** [label_map_util._validate_label_map]. *)
Fixpoint _validate_label_map (label_map : StringIntLabelMap) : outcome unit :=
  match label_map with
  | [] => Ok ()
  | item :: rest =>
      if id_of item <? 0 then
        Raised (ValueError "Label map ids should be >= 0.")
      else if (id_of item =? 0)
              && negb (String.eqb (name_of item) "background")
              && negb (String.eqb (display_name_of item) "background") then
        Raised (ValueError "Label map id 0 is reserved for the background label")
      else _validate_label_map rest
  end.

Record category := { cat_id : Z; cat_name : string }.

(** The test on an item's id in [convert_label_map_to_categories]. *)
Definition id_in_range (max_num_classes id : Z) : bool :=
  (0 <? id) && (id <=? max_num_classes).

(** [label_map_util.convert_label_map_to_categories]: an item whose id is
    outside 1..[max_num_classes] is ignored, and so is an item whose id
    was already added.  (The message object is truthy, so the branch that
    invents default categories for a missing label map is not taken.) *)
Definition convert_label_map_to_categories (label_map : StringIntLabelMap)
    (max_num_classes : Z) (use_display_name : bool) : list category :=
  fst (fold_left
    (fun '(categories, list_of_ids_already_added) item =>
       if negb (id_in_range max_num_classes (id_of item)) then
         (categories, list_of_ids_already_added)
       else
         let name :=
           if use_display_name && bool_decide (is_Some (item_display_name item))
           then display_name_of item else name_of item in
         if negb (existsb (Z.eqb (id_of item)) list_of_ids_already_added) then
           (categories ++ [ {| cat_id := id_of item; cat_name := name |} ],
            list_of_ids_already_added ++ [id_of item])
         else (categories, list_of_ids_already_added))
    label_map ([], [])).

(** [label_map_util.create_category_index]: a dict keyed by category id. *)
Definition create_category_index (categories : list category)
    : gmap Z category :=
  fold_left (fun category_index cat => <[cat_id cat := cat]> category_index)
    categories ∅.

(** ** Files *)

(** The part of a path before its last slash, [None] when it has none. *)
Fixpoint dirname (path : string) : option string :=
  match path with
  | EmptyString => None
  | String c rest =>
      match dirname rest with
      | Some d => Some (String c d)
      | None => if Ascii.eqb c "/" then Some "" else None
      end
  end.

(** A file can be created where its directory exists (the working
    directory and the root always do). *)
Definition parent_exists (w : World) (path : string) : bool :=
  match dirname path with
  | None | Some EmptyString => true
  | Some d => bool_decide (d ∈ dirs w)
  end.

(** [with open(path, "w") as f: f.write(content)]. *)
Definition write_file (path content : string) (w : World)
    : outcome unit * World :=
  if parent_exists w path && negb (bool_decide (path ∈ dirs w)) then
    (Ok (),
     {| dirs := dirs w; files := <[path := content]> (files w);
        datasets := datasets w; trace := trace w ++ [EvWrite path content] |})
  else (Raised (FileNotFoundError path), w).

(** Reading the whole of a file. *)
Definition read_file (path : string) (w : World) : outcome string * World :=
  let w := emit (EvOpenRead path) w in
  match files w !! path with
  | Some content => (Ok content, w)
  | None => (Raised (FileNotFoundError path), w)
  end.

(** [os.path.isdir(path)]. *)
Definition isdir (path : string) (w : World) : bool * World :=
  (bool_decide (path ∈ dirs w), emit (EvIsDir path) w).

(** ** Label Mapping Persistence and Introspection *)

(** Lines 211-214. *)
Definition save_mapping_to_file (mapping : string)
    (filepaths : gmap string string) (w : World) : outcome unit * World :=
  let w := emit (EvLogInfo "Creating detection classes to ID mapping file.") w in
  match getitem filepaths "label_map_file" with
  | Ok path =>
      match write_file path mapping w with
      | (Ok _, w) =>
          (Ok (),
           emit (EvLogInfo "Finished creating detection classes to ID mapping file.") w)
      | r => r
      end
  | Raised e => (Raised e, w)
  | Exited st => (Exited st, w)
  end.

(** [label_map_util.load_labelmap(path)]. *)
Definition load_labelmap (path : string) (w : World)
    : outcome StringIntLabelMap * World :=
  match read_file path w with
  | (Ok label_map_string, w) =>
      (label_map ← Merge label_map_string;
       _ ← _validate_label_map label_map;
       Ok label_map, w)
  | (Raised e, w) => (Raised e, w)
  | (Exited st, w) => (Exited st, w)
  end.

(** Lines 228-232 on a label map that was loaded. *)
Definition num_classes_of (label_map : StringIntLabelMap) : Z :=
  let categories := convert_label_map_to_categories label_map 90 true in
  let category_index := create_category_index categories in
  Z.of_nat (size (dom category_index)).

(** Lines 226-234. *)
Definition get_num_classes_from_label_map (filepaths : gmap string string)
    (w : World) : outcome Z * World :=
  let w := emit (EvLogInfo "Calculating number of classes in label map file.") w in
  match getitem filepaths "label_map_file" with
  | Ok path =>
      match load_labelmap path w with
      | (Ok label_map, w) =>
          (Ok (num_classes_of label_map),
           emit (EvLogInfo "Finished calculating number of classes in label map file.") w)
      | (Raised e, w) => (Raised e, w)
      | (Exited st, w) => (Exited st, w)
      end
  | Raised e => (Raised e, w)
  | Exited st => (Exited st, w)
  end.

(** ** Label Mapping Builder and Training Driver *)

(** The directory whose existence lines 32-34 test. *)
Definition export_root (training_name : string) : string :=
  "/tf/ml-model/dataset-export/" +:+ training_name.

Section Driver.

(** fiftyone's seeded [view.shuffle(seed)]. *)
Variable shuffle : Z -> list Sample -> list Sample.

(** [json.load] on the text of the base-models file. *)
Variable json_load : string -> option (gmap string (gmap string string)).

(** Lines 157-178. *)
Definition create_detection_mapping (dataset_name label_field : string)
    (w : World) : outcome string * World :=
  let w := emit (EvLogInfo "Creating detection classes to ID mapping.") w in
  match fo.load_dataset dataset_name w with
  | (Ok dataset, w) =>
      let view :=
        view_of dataset (shuffle 2021 (fo.match_tags "training" dataset)) in
      let w := emit (EvLogInfo "Extracting class names from label field.") w in
      match _create_list_of_class_names view label_field with
      | Ok class_names =>
          let w := emit (EvLogInfo "Finished extracting class names from label field.") w in
          let msg := label_map_of class_names in
          let mapping := MessageToBytes msg in
          (Ok mapping,
           emit (EvLogInfo "Finished creating detection classes to ID mapping.") w)
      | Raised e => (Raised e, w)
      | Exited st => (Exited st, w)
      end
  | (Raised e, w) => (Raised e, w)
  | (Exited st, w) => (Exited st, w)
  end.

(** Lines 50-53. *)
Definition load_base_models_json (filename : string) (w : World)
    : outcome (gmap string (gmap string string)) * World :=
  match read_file filename w with
  | (Ok text, w) =>
      match json_load text with
      | Some base_models => (Ok base_models, w)
      | None => (Raised JSONDecodeError, w)
      end
  | (Raised e, w) => (Raised e, w)
  | (Exited st, w) => (Exited st, w)
  end.

(** Lines 32-38. *)
Definition train_detection_model (training_name chosen_model : string)
    (w : World) : outcome unit * World :=
  let '(exists_, w) := isdir ("/tf/ml-model/dataset-export/" +:+ training_name) w in
  if exists_ then
    let w := emit (EvLogError "Must use unique model name.") w in
    (Exited 1, w)
  else
    match load_base_models_json "base_models.json" w with
    | (Ok base_models, w) =>
        (_ ← set_filenames base_models training_name chosen_model; Ok (), w)
    | (Raised e, w) => (Raised e, w)
    | (Exited st, w) => (Exited st, w)
    end.

End Driver.

(** ** Base Training Configuration *)

(** The characters at which [str.split()] cuts a text, among the ASCII
    characters: the tab, the line feed, the vertical tab, the form feed,
    the carriage return, the separators 0x1c to 0x1f and the space.  (The
    other characters that Python counts as whitespace are not ASCII.) *)
Definition is_whitespace (c : ascii) : bool :=
  in_range 9 13 c || in_range 28 32 c.

Fixpoint has_whitespace (text : string) : bool :=
  match text with
  | EmptyString => false
  | String c rest => is_whitespace c || has_whitespace rest
  end.

(** A [str] of ASCII characters only. *)
Fixpoint is_ascii (text : string) : bool :=
  match text with
  | EmptyString => true
  | String c rest => (nat_of_ascii c <? 128)%nat && is_ascii rest
  end.

(** [text.split()]: the maximal runs of characters that are not
    whitespace, in order; [word] is the run being read. *)
Fixpoint split_from (text word : string) : list string :=
  match text with
  | EmptyString =>
      match word with
      | EmptyString => []
      | _ => [word]
      end
  | String c rest =>
      if is_whitespace c then
        match word with
        | EmptyString => split_from rest ""
        | _ => word :: split_from rest ""
        end
      else split_from rest (snoc word c)
  end.

Definition split (text : string) : list string := split_from text "".

(** Lines 249-252. *)
Definition config_file_url (base_pipeline_file : string) : string :=
  "https://raw.githubusercontent.com/tensorflow/models/master/research/object_detection/configs/tf2/"
  +:+ base_pipeline_file.

(** Line 261: the template with the URL in the place of its braces. *)
Definition install_command (url : string) : string :=
  "./install_base_training_config.sh " +:+ url.

Section Download.

(** [subprocess.run(argv)] up to the return of the process: its return
    code, or the error raised when it cannot be started, and the world it
    leaves. *)
Variable subprocess_run : list string -> World -> outcome Z * World.

(** Lines 247-265; [check=True] turns a return code other than 0 into
    [CalledProcessError]. *)
Definition download_base_training_config (filepaths : gmap string string)
    (w : World) : outcome unit * World :=
  let w := emit (EvLogInfo "Downloading base training configuration file.") w in
  match getitem filepaths "base_pipeline_file" with
  | Ok base_pipeline_file =>
      let url := config_file_url base_pipeline_file in
      match subprocess_run (split (install_command url)) w with
      | (Ok returncode, w) =>
          if returncode =? 0 then
            (Ok (),
             emit (EvLogInfo "Finished downloading base training configuration file.") w)
          else (Raised (CalledProcessError returncode), w)
      | (Raised e, w) => (Raised e, w)
      | (Exited st, w) => (Exited st, w)
      end
  | Raised e => (Raised e, w)
  | Exited st => (Exited st, w)
  end.

End Download.

(** ** Example inputs *)

Definition example_base_models : gmap string (gmap string string) :=
  {[ "ssd" := {[ "base_pipeline_file" := "ssd.config";
                 "model_name" := "ssd";
                 "pretrained_checkpoint" := "ssd.config" ]} ]}.

Definition example_world : World :=
  {| dirs := {[ "/tf/ml-model/dataset-export/run1" ]};
     files := ∅; datasets := ∅; trace := [] |}.

Definition sample_with (path : string) (labels : list string) : Sample :=
  {| filepath := path; tags := ["training"];
     fields := {[ "detections" := map (fun l => {| label := l |}) labels ]} |}.

(** Three samples whose detections read cat, dog, cat in scan order. *)
Definition example_view : list Sample :=
  [ sample_with "s1.jpg" ["cat"]; sample_with "s2.jpg" ["dog"];
    sample_with "s3.jpg" ["cat"] ].

(** A seeded shuffle for the examples: it reverses the collection. *)
Definition example_shuffle (seed : Z) (view : list Sample) : list Sample :=
  rev view.

(** Ninety-one class names, c1 ... c91. *)
Definition names91 : list string :=
  map (fun i => "c" +:+ print_int i) (seqZ 1 91).

Definition example_filepaths : gmap string string :=
  filepaths_of "run1" "ssd.config" "ssd" "ssd.tar.gz".

(** A world with a dataset of [example_view] and one of a single sample
    that carries all of [names91], and with the export directory of run1. *)
Definition example_store : World :=
  {| dirs := {[ "/tf/dataset-export/run1" ]};
     files := ∅;
     datasets := {[ "pets" := example_view;
                    "many" := [sample_with "m.jpg" names91] ]};
     trace := [] |}.

(** A world whose label-map file for run1 holds [text]. *)
Definition written_world (text : string) : World :=
  {| dirs := {[ "/tf/dataset-export/run1" ]};
     files := {[ "/tf/dataset-export/run1/label_map.pbtxt" := text ]};
     datasets := ∅; trace := [] |}.

Definition sample_a : Sample := sample_with "a.jpg" ["cat"].
Definition sample_b : Sample := sample_with "b.jpg" ["dog"].

(** [example_store] with a third dataset, of two training samples. *)
Definition pair_store : World :=
  {| dirs := dirs example_store; files := files example_store;
     datasets := <["pair" := [sample_a; sample_b]]> (datasets example_store);
     trace := [] |}.

(** The exports a trace records: directory and samples, in order. *)
Definition exports_of (w : World) : list (string * list Sample) :=
  flat_map (fun ev => match ev with
                      | EvExport export_dir _ samples => [(export_dir, samples)]
                      | _ => []
                      end) (trace w).

(** Samples with a label repeated after other labels, a label that differs
    in case only, and a sample whose label field is null. *)
Definition mixed_view : list Sample :=
  [ sample_with "s1.jpg" ["cat"; "Cat"];
    {| filepath := "s2.jpg"; tags := ["training"]; fields := ∅ |};
    sample_with "s3.jpg" ["dog"; "cat"; "Cat"; "bird"] ].

(** A world in which only the directory that [set_filenames] exports to
    exists for run1, with a base-models file. *)
Definition exported_world : World :=
  {| dirs := {[ "/tf/dataset-export/run1" ]};
     files := {[ "base_models.json" := "{}" ]};
     datasets := ∅; trace := [] |}.

(** A label map with the background item, an id that occurs twice and an
    id past 90. *)
Definition duplicate_ids_map : StringIntLabelMap :=
  [ {| item_name := Some "background"; item_id := Some 0; item_display_name := None |};
    {| item_name := Some "cat"; item_id := Some 1; item_display_name := None |};
    {| item_name := Some "kitten"; item_id := Some 1; item_display_name := None |};
    {| item_name := Some "dog"; item_id := Some 2; item_display_name := None |};
    {| item_name := Some "owl"; item_id := Some 91; item_display_name := None |} ].

(** A world with a dataset in which no sample carries the tag
    "training". *)
Definition untagged_store : World :=
  {| dirs := {[ "/tf/dataset-export/run1" ]};
     files := ∅;
     datasets := {[ "raw" := [ {| filepath := "u.jpg"; tags := ["validation"];
                                  fields := ∅ |} ] ]};
     trace := [] |}.

(** [n] training samples, t1.jpg ... tn.jpg, and a world with a dataset
    of ten and one of eleven. *)
Definition numbered_samples (n : Z) : list Sample :=
  map (fun i => sample_with ("t" +:+ print_int i +:+ ".jpg") ["cat"])
      (seqZ 1 n).

Definition split_store : World :=
  {| dirs := ∅; files := ∅;
     datasets := {[ "ten" := numbered_samples 10;
                    "eleven" := numbered_samples 11 ]};
     trace := [] |}.

(** A process for the examples: it leaves the world as it is and returns
    the number of its arguments. *)
Definition example_process (argv : list string) (w : World)
    : outcome Z * World :=
  (Ok (Z.of_nat (length argv) - 2), w).

(** * Properties *)

#[local] Arguments String.append !_ _ / : simpl nomatch.
#[local] Arguments Qpower : simpl never.

(** ** Strings *)

Lemma starts_with_app (p s : string) : starts_with p (p +:+ s) = true.
Proof.
  induction p as [|a p IH]; simpl; [done|].
  by rewrite Ascii.eqb_refl.
Qed.

Lemma contains_app (needle pre post : string) :
  contains needle (pre +:+ needle +:+ post) = true.
Proof.
  induction pre as [|a pre IH]; simpl.
  - destruct (needle +:+ post) eqn:E; simpl;
      rewrite <- ?E, starts_with_app; done.
  - rewrite IH. apply orb_true_r.
Qed.

Lemma append_inv_head (s a b : string) : s +:+ a = s +:+ b -> a = b.
Proof.
  induction s as [|c s IH]; simpl; [done|].
  intros [=]. auto.
Qed.

Lemma getitem_Ok {V} (d : gmap string V) (key : string) (v : V) :
  getitem d key = Ok v <-> d !! key = Some v.
Proof.
  unfold getitem. destruct (d !! key); split; congruence.
Qed.

(** ** Path Builder *)

Lemma set_filenames_value (base_models : gmap string (gmap string string))
    (training_name chosen_model : string) (m : gmap string string)
    (bpf mn pc : string) :
  base_models !! chosen_model = Some m ->
  m !! "base_pipeline_file" = Some bpf ->
  m !! "model_name" = Some mn ->
  m !! "pretrained_checkpoint" = Some pc ->
  set_filenames base_models training_name chosen_model =
    Ok (filepaths_of training_name bpf mn pc).
Proof.
  intros Hm Hb Hn Hp. unfold set_filenames, getitem.
  rewrite Hm. simpl. rewrite Hb. simpl. rewrite Hn. simpl. rewrite Hp. done.
Qed.

Lemma scoped_lookup (training_name bpf mn pc k : string) :
  k ∈ scoped_keys ->
  filepaths_of training_name bpf mn pc !! k
  = Some ((scoped_shape k).1 +:+ training_name +:+ (scoped_shape k).2).
Proof.
  unfold scoped_keys, filepaths_of. rewrite !elem_of_cons, elem_of_nil.
  intros H.
  repeat destruct H as [->|H]; try done; by simplify_map_eq.
Qed.

Lemma scoped_distinct (training_name k1 k2 : string) :
  k1 ∈ scoped_keys -> k2 ∈ scoped_keys -> k1 <> k2 ->
  (scoped_shape k1).1 +:+ training_name +:+ (scoped_shape k1).2
  <> (scoped_shape k2).1 +:+ training_name +:+ (scoped_shape k2).2.
Proof.
  unfold scoped_keys. rewrite !elem_of_cons, !elem_of_nil.
  intros H1 H2 Hne.
  repeat destruct H1 as [->|H1]; try done;
  repeat destruct H2 as [->|H2]; try done;
  cbn [scoped_shape String.eqb Ascii.eqb Bool.eqb fst snd];
  intros Heq; try discriminate Heq;
  apply (append_inv_head "/tf/dataset-export/") in Heq;
  apply append_inv_head in Heq; discriminate Heq.
Qed.

(** C4, as amended.  For a base-models dict that has the chosen model with
    its three entries, [set_filenames] returns a dict in which the seven
    entries built from [training_name] (the record files, the export
    directories, the label-map file and the model directory) each contain
    [training_name] and are pairwise distinct strings. *)
Theorem set_filenames_scoped_paths
    (base_models : gmap string (gmap string string))
    (training_name chosen_model : string) (m : gmap string string)
    (bpf mn pc : string) :
  base_models !! chosen_model = Some m ->
  m !! "base_pipeline_file" = Some bpf ->
  m !! "model_name" = Some mn ->
  m !! "pretrained_checkpoint" = Some pc ->
  exists filepaths,
    set_filenames base_models training_name chosen_model = Ok filepaths /\
    (forall k, k ∈ scoped_keys ->
       exists path, filepaths !! k = Some path /\
                    contains training_name path = true) /\
    (forall k1 k2 path1 path2, k1 ∈ scoped_keys -> k2 ∈ scoped_keys ->
       k1 <> k2 -> filepaths !! k1 = Some path1 ->
       filepaths !! k2 = Some path2 -> path1 <> path2).
Proof.
  intros Hm Hb Hn Hp. eexists. split; [by eapply set_filenames_value|].
  split.
  - intros k Hk. eexists. split; [by apply scoped_lookup|].
    apply contains_app.
  - intros k1 k2 path1 path2 Hk1 Hk2 Hne.
    rewrite !scoped_lookup by done. intros [= <-] [= <-].
    by apply scoped_distinct.
Qed.

Lemma set_filenames_scoped_paths_witness :
  exists filepaths,
    set_filenames example_base_models "run1" "ssd" = Ok filepaths /\
    (forall k, k ∈ scoped_keys ->
       exists path, filepaths !! k = Some path /\ contains "run1" path = true) /\
    (forall k1 k2 path1 path2, k1 ∈ scoped_keys -> k2 ∈ scoped_keys ->
       k1 <> k2 -> filepaths !! k1 = Some path1 ->
       filepaths !! k2 = Some path2 -> path1 <> path2).
Proof.
  apply (set_filenames_scoped_paths example_base_models "run1" "ssd"
           {[ "base_pipeline_file" := "ssd.config"; "model_name" := "ssd";
              "pretrained_checkpoint" := "ssd.config" ]}
           "ssd.config" "ssd" "ssd.config"); reflexivity.
Defined.

(** C4, refuted as stated.  For a valid input the returned dict has entries
    that do not contain [training_name] (the four that come from the base
    model), and two entries that are the same string. *)
Lemma set_filenames_paths_counterexample :
  exists filepaths,
    set_filenames example_base_models "run1" "ssd" = Ok filepaths /\
    (forall k, k ∈ base_model_keys ->
       exists path, filepaths !! k = Some path /\
                    contains "run1" path = false) /\
    filepaths !! "pretrained_checkpoint" = filepaths !! "base_pipeline_file".
Proof.
  eexists. split; [reflexivity|]. split.
  - intros k H. unfold base_model_keys in H.
    rewrite !elem_of_cons, !elem_of_nil in H. repeat destruct H as [->|H]; try done;
      eexists; (split; [reflexivity|reflexivity]).
  - reflexivity.
Qed.

(** C8.  When [chosen_model] is not a key of [base_models], [set_filenames]
    raises [KeyError] for that key, so it returns no dict; and the driver,
    its caller, does not catch the error: past the directory check and the
    loading of the base models it ends with the same [KeyError]. *)
Theorem set_filenames_unknown_model
    (base_models : gmap string (gmap string string))
    (training_name chosen_model : string) :
  base_models !! chosen_model = None ->
  set_filenames base_models training_name chosen_model
    = Raised (KeyError chosen_model) /\
  (forall filepaths,
     set_filenames base_models training_name chosen_model <> Ok filepaths) /\
  (forall json_load w text,
     export_root training_name ∉ dirs w ->
     files w !! "base_models.json" = Some text ->
     json_load text = Some base_models ->
     (train_detection_model json_load training_name chosen_model w).1
       = Raised (KeyError chosen_model)).
Proof.
  intros Hnone.
  assert (Hset : set_filenames base_models training_name chosen_model
                 = Raised (KeyError chosen_model)).
  { unfold set_filenames, getitem. by rewrite Hnone. }
  split; [done|]. split; [by rewrite Hset|].
  intros json_load w text Hdir Hfile Hjson.
  unfold train_detection_model, isdir, export_root in *.
  rewrite bool_decide_eq_false_2 by done.
  unfold load_base_models_json, read_file. simpl.
  rewrite Hfile, Hjson, Hset. done.
Qed.

Lemma set_filenames_unknown_model_witness :
  set_filenames example_base_models "run1" "yolo" = Raised (KeyError "yolo") /\
  (forall filepaths,
     set_filenames example_base_models "run1" "yolo" <> Ok filepaths) /\
  (forall json_load w text,
     export_root "run1" ∉ dirs w ->
     files w !! "base_models.json" = Some text ->
     json_load text = Some example_base_models ->
     (train_detection_model json_load "run1" "yolo" w).1
       = Raised (KeyError "yolo")).
Proof.
  apply (set_filenames_unknown_model example_base_models "run1" "yolo").
  reflexivity.
Defined.

(** ** Training Driver *)

(** The guard when it fires.  When the directory the driver tests,
    [export_root training_name], exists, the driver ends with exit status
    1; all it has done by then is
    the directory test and one error log: no file was opened or written, no
    dataset loaded or exported, and the directories and files are as they
    were.  Run again in the world it left, it ends the same way. *)
Theorem train_detection_model_duplicate_name
    (json_load : string -> option (gmap string (gmap string string)))
    (training_name chosen_model : string) (w : World) :
  export_root training_name ∈ dirs w ->
  let r1 := train_detection_model json_load training_name chosen_model w in
  let r2 := train_detection_model json_load training_name chosen_model r1.2 in
  r1.1 = Exited 1 /\
  trace r1.2 = trace w ++ [EvIsDir (export_root training_name);
                           EvLogError "Must use unique model name."] /\
  dirs r1.2 = dirs w /\ files r1.2 = files w /\ datasets r1.2 = datasets w /\
  r2.1 = Exited 1 /\
  trace r2.2 = trace r1.2 ++ [EvIsDir (export_root training_name);
                              EvLogError "Must use unique model name."] /\
  dirs r2.2 = dirs w /\ files r2.2 = files w.
Proof.
  intros Hdir.
  assert (Hrun : forall w0, export_root training_name ∈ dirs w0 ->
            train_detection_model json_load training_name chosen_model w0
            = (Exited 1,
               emit (EvLogError "Must use unique model name.")
                 (emit (EvIsDir (export_root training_name)) w0))).
  { intros w0 H0. unfold train_detection_model, isdir, export_root in *.
    by rewrite bool_decide_eq_true_2. }
  cbv zeta. rewrite Hrun by done. simpl.
  rewrite Hrun by done. simpl. rewrite <- !app_assoc. done.
Qed.

Lemma train_detection_model_duplicate_name_witness :
  export_root "run1" ∈ dirs example_world /\
  (train_detection_model (fun _ => None) "run1" "ssd" example_world).1
    = Exited 1.
Proof.
  assert (H : export_root "run1" ∈ dirs example_world)
    by (vm_compute; reflexivity).
  split; [exact H|].
  exact (proj1 (train_detection_model_duplicate_name
                  (fun _ => None) "run1" "ssd" example_world H)).
Defined.

(** The directory the driver tests is under /tf/ml-model/, the paths of
    [set_filenames] are not: with /tf/dataset-export/run1 present and the
    tested directory absent the driver goes on to read the base models. *)
Lemma train_detection_model_tests_export_root :
  export_root "run1" <> "/tf/dataset-export/run1" /\
  train_detection_model (fun _ => Some example_base_models) "run1" "ssd"
    exported_world
  = (Ok (),
     emit (EvOpenRead "base_models.json")
       (emit (EvIsDir "/tf/ml-model/dataset-export/run1") exported_world)).
Proof. split; [discriminate | reflexivity]. Qed.

(** ** Label Mapping Builder: the class-name list *)

Lemma not_in_true (label : string) (class_names : list string) :
  not_in label class_names = true <-> label ∉ class_names.
Proof.
  unfold not_in. rewrite negb_true_iff, <- not_true_iff_false, existsb_exists.
  split.
  - intros H Hin. apply H. exists label.
    split; [by apply list_elem_of_In | apply String.eqb_refl].
  - intros H [y [Hy Heq]]. apply String.eqb_eq in Heq as <-.
    by apply H, list_elem_of_In.
Qed.

Lemma add_label_snoc (class_names : list string) (label : string) :
  label ∉ class_names -> add_label class_names label = class_names ++ [label].
Proof.
  intros H. unfold add_label. by rewrite (proj2 (not_in_true _ _) H).
Qed.

Lemma add_label_same (class_names : list string) (label : string) :
  label ∈ class_names -> add_label class_names label = class_names.
Proof.
  intros H. unfold add_label.
  destruct (not_in label class_names) eqn:E; [|done].
  by apply not_in_true in E.
Qed.

Lemma getfield_select_fields (s : Sample) (field : string) :
  fo.getfield (only_field field s) field = fo.getfield s field.
Proof.
  unfold fo.getfield, only_field. simpl.
  destruct (fields s !! field); [apply lookup_singleton_eq | apply lookup_empty].
Qed.

Lemma scan_sample (detections : list Detection) (acc : list string) :
  fold_left
    (fun class_names detection =>
       let label := label detection in
       if not_in label class_names then class_names ++ [label]
       else class_names)
    detections acc
  = fold_left add_label (map label detections) acc.
Proof.
  revert acc.
  induction detections as [|d detections IH]; intros acc; simpl; [done|].
  apply IH.
Qed.

Lemma scan_view (samples : list Sample) (label_field : string)
    (acc : list string) :
  fold_left
    (fun class_names sample =>
       match fo.getfield sample label_field with
       | Some detections =>
           fold_left
             (fun class_names detection =>
                let label := label detection in
                if not_in label class_names then class_names ++ [label]
                else class_names)
             detections class_names
       | None => class_names
       end)
    (map (only_field label_field) samples) acc
  = fold_left add_label (scanned_labels samples label_field) acc.
Proof.
  unfold scanned_labels. revert acc.
  induction samples as [|s samples IH]; intros acc; simpl; [done|].
  rewrite getfield_select_fields, fold_left_app, IH. f_equal.
  destruct (fo.getfield s label_field) as [detections|]; [|done].
  apply scan_sample.
Qed.

(** On a view whose dataset has the field, the two nested loops are one
    pass of [add_label] over the labels in scan order. *)
Lemma create_list_as_scan (view : View) (label_field : string) :
  label_field ∈ view_schema view ->
  _create_list_of_class_names view label_field
  = Ok (fold_left add_label (scanned_labels (view_samples view) label_field) []).
Proof.
  intros H. unfold _create_list_of_class_names, select_fields.
  rewrite bool_decide_eq_true_2 by done. simpl. f_equal. apply scan_view.
Qed.

(** On a view whose dataset lacks the field, [select_fields] raises and
    no sample is read. *)
Lemma create_list_no_field (view : View) (label_field : string) :
  label_field ∉ view_schema view ->
  _create_list_of_class_names view label_field
  = Raised (ValueError ("Field does not exist: " +:+ label_field)).
Proof.
  intros H. unfold _create_list_of_class_names, select_fields.
  by rewrite bool_decide_eq_false_2.
Qed.

(** The scan returns a list on exactly the views whose dataset has the
    field. *)
Lemma create_list_Ok_inv (view : View) (label_field : string)
    (class_names : list string) :
  _create_list_of_class_names view label_field = Ok class_names ->
  (label_field ∈ view_schema view) /\
  class_names
  = fold_left add_label (scanned_labels (view_samples view) label_field) [].
Proof.
  intros H. destruct (decide (label_field ∈ view_schema view)) as [Hin|Hin].
  - rewrite create_list_as_scan in H by done. by injection H as <-.
  - by rewrite create_list_no_field in H.
Qed.

Lemma first_index_lt (x : string) (l : list string) :
  x ∈ l -> (first_index x l < length l)%nat.
Proof.
  induction l as [|y l IH]; simpl; [by intros ?%elem_of_nil|].
  intros [->|H]%elem_of_cons.
  - rewrite String.eqb_refl. lia.
  - destruct (String.eqb x y); [lia|]. specialize (IH H). lia.
Qed.

Lemma first_index_app_l (x : string) (l1 l2 : list string) :
  x ∈ l1 -> first_index x (l1 ++ l2) = first_index x l1.
Proof.
  induction l1 as [|y l1 IH]; simpl; [by intros ?%elem_of_nil|].
  intros H. destruct (String.eqb x y) eqn:E; [done|].
  f_equal. apply IH. apply elem_of_cons in H as [->|H]; [|done].
  by rewrite String.eqb_refl in E.
Qed.

Lemma first_index_app_r (x : string) (l1 l2 : list string) :
  x ∉ l1 -> first_index x (l1 ++ l2) = (length l1 + first_index x l2)%nat.
Proof.
  induction l1 as [|y l1 IH]; simpl; [done|].
  intros H. apply not_elem_of_cons in H as [Hne H].
  destruct (String.eqb x y) eqn:E.
  - by apply String.eqb_eq in E.
  - by rewrite IH.
Qed.

(** What one pass of [add_label] from the empty list builds. *)
Lemma scan_spec (labels : list string) :
  let class_names := fold_left add_label labels [] in
  NoDup class_names /\
  (forall x, x ∈ class_names <-> x ∈ labels) /\
  (forall i j a b, class_names !! i = Some a -> class_names !! j = Some b ->
     (i < j)%nat ->
     (first_index a labels < first_index b labels)%nat).
Proof.
  induction labels as [|x labels IH] using rev_ind; simpl.
  { split; [constructor|]. split; [done|]. intros i j a b H. done. }
  rewrite fold_left_app. simpl.
  destruct IH as (Hnd & Hin & Hord).
  set (cn := fold_left add_label labels []) in *.
  destruct (decide (x ∈ cn)) as [Hx|Hx].
  - rewrite add_label_same by done.
    split; [done|]. split.
    + intros y. rewrite elem_of_app, list_elem_of_singleton, Hin.
      split; [tauto|]. intros [?| ->]; [done|]. by apply Hin.
    + intros i j a b Ha Hb Hlt.
      rewrite !first_index_app_l; [by eapply Hord| |].
      * apply Hin. by eapply list_elem_of_lookup_2.
      * apply Hin. by eapply list_elem_of_lookup_2.
  - rewrite add_label_snoc by done.
    split; [|split].
    + apply NoDup_app. split; [done|]. split; [|apply NoDup_singleton].
      intros y Hy ->%list_elem_of_singleton. done.
    + intros y. rewrite !elem_of_app, Hin. done.
    + intros i j a b Ha Hb Hlt.
      assert (Hj : (j < length (cn ++ [x]))%nat) by by eapply lookup_lt_Some.
      rewrite length_app in Hj. simpl in Hj.
      rewrite lookup_app_l in Ha by lia.
      assert (Hal : a ∈ labels) by (apply Hin; by eapply list_elem_of_lookup_2).
      rewrite (first_index_app_l a) by done.
      destruct (decide (j < length cn)%nat) as [Hjl|Hjl].
      * rewrite lookup_app_l in Hb by done.
        rewrite first_index_app_l; [by eapply Hord|].
        apply Hin. by eapply list_elem_of_lookup_2.
      * rewrite lookup_app_r in Hb by lia.
        replace (j - length cn)%nat with 0%nat in Hb by lia.
        injection Hb as <-.
        rewrite first_index_app_r by (by rewrite <- Hin).
        pose proof (first_index_lt a labels Hal). lia.
Qed.

(** C2.  For every view and label field: when the dataset of the view
    has the field, the scan returns a class-name list that has no
    duplicates, holds exactly the labels of the detections of the samples
    whose label field is not null, and lists them in the order of their
    first occurrence in the scan; when the dataset lacks the field,
    [select_fields] raises [ValueError] and no list is built. *)
Theorem class_names_first_occurrence (view : View) (label_field : string) :
  let labels := scanned_labels (view_samples view) label_field in
  match _create_list_of_class_names view label_field with
  | Ok class_names =>
      (label_field ∈ view_schema view) /\
      NoDup class_names /\
      (forall x, x ∈ class_names <-> x ∈ labels) /\
      (forall i j a b, class_names !! i = Some a -> class_names !! j = Some b ->
         ((i < j)%nat <->
          (first_index a labels < first_index b labels)%nat))
  | Raised e => (label_field ∉ view_schema view) /\ exists msg, e = ValueError msg
  | Exited _ => False
  end.
Proof.
  cbv zeta. destruct (decide (label_field ∈ view_schema view)) as [Hfield|Hfield].
  2: { rewrite create_list_no_field by done. split; [done|]. by eexists. }
  rewrite create_list_as_scan by done.
  destruct (scan_spec (scanned_labels (view_samples view) label_field))
    as (Hnd & Hin & Hord).
  split; [done|]. split; [done|]. split; [done|].
  intros i j a b Ha Hb. split; [by eapply Hord|].
  intros Hlt.
  destruct (Nat.lt_trichotomy i j) as [H|[H|H]]; [done| |].
  - subst j. rewrite Ha in Hb. injection Hb as ->. lia.
  - pose proof (Hord _ _ _ _ Hb Ha H). lia.
Qed.

(** The scan at work: the null field of the second sample is skipped, "Cat"
    and "cat" are two names, and the labels met again later add nothing. *)
Example class_names_mixed_view :
  _create_list_of_class_names (view_of mixed_view mixed_view) "detections"
  = Ok ["cat"; "Cat"; "dog"; "bird"].
Proof. by rewrite create_list_as_scan by (vm_compute; set_solver). Qed.

(** A field that no sample of the dataset holds is not a field of the
    dataset: the scan raises. *)
Example class_names_unknown_field :
  _create_list_of_class_names (view_of mixed_view mixed_view) "ground_truth"
  = Raised (ValueError "Field does not exist: ground_truth").
Proof. by rewrite create_list_no_field by (vm_compute; set_solver). Qed.

(** ** The text format: reading back what was written *)

Lemma snoc_app (a : string) (c : ascii) (s : string) :
  snoc a c +:+ s = a +:+ String c s.
Proof.
  unfold snoc. induction a as [|b a IH]; simpl; [done|]. by rewrite IH.
Qed.

Lemma append_assoc (a b c : string) : (a +:+ b) +:+ c = a +:+ (b +:+ c).
Proof. induction a as [|x a IH]; simpl; [done|]. by rewrite IH. Qed.

Lemma append_nil_r (a : string) : a +:+ "" = a.
Proof. induction a as [|x a IH]; simpl; [done|]. by rewrite IH. Qed.

Lemma lex_escape_char (c : ascii) (s a : string) (acc : list token) :
  lex (escape_char c +:+ s) (LStr a) acc = lex s (LStr (snoc a c)) acc.
Proof.
  unfold escape_char.
  destruct (Ascii.eqb c tab) eqn:E1;
    [apply Ascii.eqb_eq in E1; subst; reflexivity|].
  destruct (Ascii.eqb c newline) eqn:E2;
    [apply Ascii.eqb_eq in E2; subst; reflexivity|].
  destruct (Ascii.eqb c cr) eqn:E3;
    [apply Ascii.eqb_eq in E3; subst; reflexivity|].
  destruct (Ascii.eqb c dquote) eqn:E4;
    [apply Ascii.eqb_eq in E4; subst; reflexivity|].
  destruct (Ascii.eqb c squote) eqn:E5;
    [apply Ascii.eqb_eq in E5; subst; reflexivity|].
  destruct (Ascii.eqb c backslash) eqn:E6;
    [apply Ascii.eqb_eq in E6; subst; reflexivity|].
  simpl. by rewrite E4, E6, E2.
Qed.

(** A quoted string is read back as the text that was escaped. *)
Lemma lex_string_body (n a rest : string) (acc : list token) :
  lex (CEscape n +:+ String dquote rest) (LStr a) acc
  = lex rest LIdle (acc ++ [TString (a +:+ n)]).
Proof.
  revert a. induction n as [|c n IH]; intros a; simpl.
  - by rewrite append_nil_r.
  - rewrite append_assoc, lex_escape_char, IH, snoc_app. done.
Qed.

(** The digits of a number are accumulated up to the text that follows. *)
Lemma lex_digits (d : Decimal.uint) (a s : string) (acc : list token) :
  lex (NilEmpty.string_of_uint d +:+ s) (LNum a) acc
  = lex s (LNum (a +:+ NilEmpty.string_of_uint d)) acc.
Proof.
  revert a.
  induction d as [|d IH|d IH|d IH|d IH|d IH|d IH|d IH|d IH|d IH|d IH];
    intros a; [by rewrite append_nil_r|..];
    simpl; rewrite IH, snoc_app; done.
Qed.

Lemma number_of_print_int (z : Z) : number_of (print_int z) = Some z.
Proof.
  unfold number_of, print_int.
  rewrite NilZero.isi.
  - simpl. f_equal. apply DecimalZ.of_to.
  - destruct z; simpl; try discriminate.
    intros [= H]. by apply DecimalPos.Unsigned.to_uint_nonnil in H.
  - destruct z; simpl; try discriminate.
    intros [= H]. by apply DecimalPos.Unsigned.to_uint_nonnil in H.
Qed.

Lemma print_int_shape (z : Z) :
  exists c0 d,
    print_int z = String c0 (NilEmpty.string_of_uint d) /\
    (is_digit c0 || Ascii.eqb c0 "-") = true.
Proof.
  unfold print_int. destruct z as [|p|p]; simpl.
  - by exists "0"%char, Decimal.Nil.
  - pose proof (DecimalPos.Unsigned.to_uint_nonnil p) as Hnil.
    destruct (Pos.to_uint p) as [|d|d|d|d|d|d|d|d|d|d]; [done|..];
      eexists _, d; (split; [reflexivity|reflexivity]).
  - pose proof (DecimalPos.Unsigned.to_uint_nonnil p) as Hnil.
    exists "-"%char, (Pos.to_uint p). split; [|done].
    by destruct (Pos.to_uint p).
Qed.

Lemma lex_start_number (c0 : ascii) (s : string) (acc : list token) :
  (is_digit c0 || Ascii.eqb c0 "-") = true ->
  lex (String c0 s) LIdle acc = lex s (LNum (String c0 "")) acc.
Proof.
  intros H.
  destruct c0 as [[] [] [] [] [] [] [] []];
    vm_compute in H; try discriminate H; reflexivity.
Qed.

Lemma lex_end_number (a rest : string) (acc : list token) (z : Z) :
  number_of a = Some z ->
  lex (String newline rest) (LNum a) acc = lex rest LIdle (acc ++ [TInt z]).
Proof. intros H. simpl. by rewrite H. Qed.

(** A printed integer followed by a line break is read back as itself. *)
Lemma lex_print_int (z : Z) (rest : string) (acc : list token) :
  lex (print_int z +:+ String newline rest) LIdle acc
  = lex rest LIdle (acc ++ [TInt z]).
Proof.
  destruct (print_int_shape z) as (c0 & d & Hshape & Hc0).
  pose proof (number_of_print_int z) as Hnum.
  rewrite Hshape in *. simpl String.append.
  rewrite lex_start_number, lex_digits by done.
  by apply lex_end_number.
Qed.

Lemma lex_name_field (n rest : string) (acc : list token) :
  lex ("  name: " +:+ quote +:+ CEscape n +:+ quote +:+ nl +:+ rest) LIdle acc
  = lex rest LIdle (acc ++ [TIdent "name"; TColon; TString n]).
Proof.
  unfold quote, nl. simpl. rewrite lex_string_body. simpl.
  by rewrite <- !app_assoc.
Qed.

Lemma lex_display_name_field (n rest : string) (acc : list token) :
  lex ("  display_name: " +:+ quote +:+ CEscape n +:+ quote +:+ nl +:+ rest)
      LIdle acc
  = lex rest LIdle (acc ++ [TIdent "display_name"; TColon; TString n]).
Proof.
  unfold quote, nl. simpl. rewrite lex_string_body. simpl.
  by rewrite <- !app_assoc.
Qed.

Lemma lex_id_field (i : Z) (rest : string) (acc : list token) :
  lex ("  id: " +:+ print_int i +:+ nl +:+ rest) LIdle acc
  = lex rest LIdle (acc ++ [TIdent "id"; TColon; TInt i]).
Proof.
  unfold nl. simpl. rewrite lex_print_int.
  by rewrite <- !app_assoc.
Qed.

Lemma lex_print_item (it : StringIntLabelMapItem) (rest : string)
    (acc : list token) :
  lex (print_item it +:+ rest) LIdle acc
  = lex rest LIdle (acc ++ tokens_of_item it).
Proof.
  unfold print_item, tokens_of_item.
  rewrite !append_assoc.
  change (lex ("item {" +:+ nl +:+ ?s) LIdle acc)
    with (lex s LIdle ((acc ++ [TIdent "item"]) ++ [TLBrace])).
  destruct it as [[n|] [i|] [dn|]]; cbn [item_name item_id item_display_name];
    rewrite ?append_assoc;
    repeat change (String.append EmptyString ?s) with s;
    rewrite ?lex_name_field, ?lex_id_field, ?lex_display_name_field;
    simpl; rewrite <- ?app_assoc; reflexivity.
Qed.

Lemma lex_message (msg : StringIntLabelMap) (acc : list token) :
  lex (MessageToBytes msg) LIdle acc
  = Some (acc ++ flat_map tokens_of_item msg).
Proof.
  revert acc. induction msg as [|it msg IH]; intros acc.
  - simpl. by rewrite app_nil_r.
  - cbn [MessageToBytes flat_map].
    rewrite lex_print_item, IH. by rewrite <- app_assoc.
Qed.

Lemma parse_tokens_item (it : StringIntLabelMapItem) (ts : list token)
    (msg : StringIntLabelMap) :
  parse_tokens (tokens_of_item it ++ ts) None msg
  = parse_tokens ts None (msg ++ [it]).
Proof. by destruct it as [[n|] [i|] [dn|]]. Qed.

Lemma parse_tokens_message (msg acc : StringIntLabelMap) :
  parse_tokens (flat_map tokens_of_item msg) None acc = Some (acc ++ msg).
Proof.
  revert acc. induction msg as [|it msg IH]; intros acc.
  - simpl. by rewrite app_nil_r.
  - cbn [flat_map]. rewrite parse_tokens_item, IH. by rewrite <- app_assoc.
Qed.

(** The reader gets back every label map the writer printed. *)
Lemma Merge_MessageToBytes (msg : StringIntLabelMap) :
  Merge (MessageToBytes msg) = Ok msg.
Proof.
  unfold Merge. rewrite lex_message. simpl.
  by rewrite parse_tokens_message.
Qed.

(** ** Label Mapping Builder: the label map *)

Lemma label_map_of_acc (pairs : list (Z * string)) (acc : StringIntLabelMap) :
  fold_left
    (fun msg '(id, name) =>
       msg ++ [ {| item_name := Some name; item_id := Some id;
                   item_display_name := None |} ])
    pairs acc
  = acc ++ map (fun '(id, name) =>
                  {| item_name := Some name; item_id := Some id;
                     item_display_name := None |}) pairs.
Proof.
  revert acc. induction pairs as [|[id name] pairs IH]; intros acc; simpl.
  - by rewrite app_nil_r.
  - by rewrite IH, <- app_assoc.
Qed.

Lemma id_assignment_label_map_of (class_names : list string) :
  id_assignment (label_map_of class_names) = enumerate_from 1 class_names.
Proof.
  unfold label_map_of, id_assignment. rewrite label_map_of_acc. simpl.
  generalize 1. induction class_names as [|n class_names IH]; intros start;
    simpl; [done|]. by rewrite IH.
Qed.

Lemma enumerate_from_ids (start : Z) (class_names : list string) :
  map fst (enumerate_from start class_names)
  = seqZ start (Z.of_nat (length class_names)).
Proof.
  revert start. induction class_names as [|n class_names IH]; intros start.
  - done.
  - cbn [enumerate_from map fst length].
    rewrite IH, (seqZ_cons start) by lia.
    do 2 f_equal; lia.
Qed.

Lemma enumerate_from_names (start : Z) (class_names : list string) :
  map snd (enumerate_from start class_names) = class_names.
Proof.
  revert start. induction class_names as [|n class_names IH]; intros start;
    simpl; [done|]. by rewrite IH.
Qed.

Lemma enumerate_from_lookup (start : Z) (class_names : list string) (i : nat) :
  enumerate_from start class_names !! i
  = (fun name => (start + Z.of_nat i, name)) <$> class_names !! i.
Proof.
  revert start i. induction class_names as [|n class_names IH];
    intros start [|i]; cbn [enumerate_from lookup list_lookup fmap option_fmap option_map];
    try done.
  - by rewrite Z.add_0_r.
  - rewrite IH. by replace (start + 1 + Z.of_nat i) with (start + Z.of_nat (S i)) by lia.
Qed.

(** The label map of a class-name list gives the names the IDs 1, 2,
    ..., in list order. *)
Lemma label_map_of_ids (class_names : list string) :
  let msg := label_map_of class_names in
  map fst (id_assignment msg) = seqZ 1 (Z.of_nat (length class_names)) /\
  map snd (id_assignment msg) = class_names /\
  (forall (i : nat) name, class_names !! i = Some name <->
     id_assignment msg !! i = Some (Z.of_nat i + 1, name)).
Proof.
  cbv zeta. rewrite id_assignment_label_map_of.
  split; [apply enumerate_from_ids|]. split; [apply enumerate_from_names|].
  intros i name. rewrite enumerate_from_lookup.
  destruct (class_names !! i) as [n|]; simpl; [|done].
  rewrite (Z.add_comm 1). split; [by intros [= ->] | by intros [= <-]].
Qed.

(** One entry per class name. *)
Lemma label_map_of_length (class_names : list string) :
  length (label_map_of class_names) = length class_names.
Proof.
  rewrite <- (length_map (fun it => (id_of it, name_of it))).
  fold (id_assignment (label_map_of class_names)).
  rewrite <- (length_map snd), (proj1 (proj2 (label_map_of_ids class_names))).
  done.
Qed.

(** The run of [create_detection_mapping] on a dataset that has the label
    field: it returns the text of the label map of the class names, and
    touches neither directories nor files. *)
Lemma create_detection_mapping_run
    (shuffle : Z -> list Sample -> list Sample)
    (dataset_name label_field : string) (w : World) (dataset : list Sample) :
  datasets w !! dataset_name = Some dataset ->
  label_field ∈ fo.get_field_schema dataset ->
  exists w1,
    create_detection_mapping shuffle dataset_name label_field w
    = (Ok (MessageToBytes (label_map_of
         (fold_left add_label
            (scanned_labels (shuffle 2021 (fo.match_tags "training" dataset))
               label_field) []))),
       w1) /\
    dirs w1 = dirs w /\ files w1 = files w.
Proof.
  intros Hds Hfield. unfold create_detection_mapping, fo.load_dataset. simpl.
  rewrite Hds. rewrite create_list_as_scan by done. by eexists.
Qed.

(** A run of [create_detection_mapping] that returns has found the dataset
    and the field, and returns the text of the label map of the class
    names. *)
Lemma create_detection_mapping_Ok
    (shuffle : Z -> list Sample -> list Sample)
    (dataset_name label_field mapping : string) (w w' : World) :
  create_detection_mapping shuffle dataset_name label_field w = (Ok mapping, w') ->
  exists dataset,
    datasets w !! dataset_name = Some dataset /\
    (label_field ∈ fo.get_field_schema dataset) /\
    mapping = MessageToBytes (label_map_of
      (fold_left add_label
         (scanned_labels (shuffle 2021 (fo.match_tags "training" dataset))
            label_field) [])).
Proof.
  unfold create_detection_mapping, fo.load_dataset. simpl.
  destruct (datasets w !! dataset_name) as [dataset|]; [|done].
  destruct (_create_list_of_class_names _ label_field) as [class_names|e|st]
    eqn:Hlist; [|done|done].
  apply create_list_Ok_inv in Hlist as [Hfield ->].
  intros [= <- _]. by exists dataset.
Qed.

(** C3.  On every dataset that has the label field,
    [create_detection_mapping] returns the text of the label map that gives
    the class names of the shuffled training view the IDs 1, 2, ..., in
    list order: the entry at position [i] (from 0) has ID [i + 1] and the
    [i]-th name; the text holds one name/id entry per class, which the
    label-map reader gets back unchanged.  For a dataset whose detections
    read cat, dog, cat in scan order the class names are cat, dog and the
    text returned is that of the map 1: cat, 2: dog. *)
Theorem label_map_ids_in_list_order
    (shuffle : Z -> list Sample -> list Sample)
    (dataset_name label_field : string) (w : World) (dataset : list Sample) :
  datasets w !! dataset_name = Some dataset ->
  label_field ∈ fo.get_field_schema dataset ->
  (exists class_names,
     _create_list_of_class_names
       (view_of dataset (shuffle 2021 (fo.match_tags "training" dataset)))
       label_field = Ok class_names /\
     let msg := label_map_of class_names in
     (create_detection_mapping shuffle dataset_name label_field w).1
       = Ok (MessageToBytes msg) /\
     map fst (id_assignment msg) = seqZ 1 (Z.of_nat (length class_names)) /\
     map snd (id_assignment msg) = class_names /\
     (forall (i : nat) name, class_names !! i = Some name <->
        id_assignment msg !! i = Some (Z.of_nat i + 1, name)) /\
     Merge (MessageToBytes msg) = Ok msg /\
     length msg = length class_names) /\
  _create_list_of_class_names (view_of example_view example_view) "detections"
    = Ok ["cat"; "dog"] /\
  id_assignment (label_map_of ["cat"; "dog"]) = [(1, "cat"); (2, "dog")] /\
  (create_detection_mapping (fun _ view => view) "pets" "detections"
     example_store).1
  = Ok ("item {" +:+ nl +:+ "  name: " +:+ quote +:+ "cat" +:+ quote +:+ nl
          +:+ "  id: 1" +:+ nl +:+ "}" +:+ nl
        +:+ "item {" +:+ nl +:+ "  name: " +:+ quote +:+ "dog" +:+ quote +:+ nl
          +:+ "  id: 2" +:+ nl +:+ "}" +:+ nl).
Proof.
  intros Hds Hfield. split.
  - eexists. split; [by apply create_list_as_scan|]. cbv zeta.
    destruct (create_detection_mapping_run shuffle dataset_name label_field w
                dataset Hds Hfield) as (w1 & -> & _).
    split; [done|].
    destruct (label_map_of_ids
                (fold_left add_label
                   (scanned_labels
                      (view_samples
                         (view_of dataset
                            (shuffle 2021 (fo.match_tags "training" dataset))))
                      label_field) [])) as (Hids & Hnames & Hlookup).
    split; [exact Hids|]. split; [exact Hnames|]. split; [exact Hlookup|].
    split; [apply Merge_MessageToBytes|].
    apply label_map_of_length.
  - split; [by rewrite create_list_as_scan by (vm_compute; set_solver)|].
    split; [by vm_compute|].
    destruct (create_detection_mapping_run (fun _ view => view) "pets"
                "detections" example_store example_view eq_refl)
      as (w1 & -> & _); [vm_compute; set_solver|].
    by vm_compute.
Qed.

Lemma label_map_ids_in_list_order_witness :
  datasets example_store !! "pets" = Some example_view /\
  ("detections" ∈ fo.get_field_schema example_view) /\
  (create_detection_mapping example_shuffle "pets" "detections"
     example_store).1
  = Ok (MessageToBytes (label_map_of ["cat"; "dog"])).
Proof.
  assert (Hfield : "detections" ∈ fo.get_field_schema example_view)
    by (vm_compute; set_solver).
  split; [reflexivity|]. split; [exact Hfield|].
  destruct (label_map_ids_in_list_order example_shuffle "pets" "detections"
              example_store example_view eq_refl Hfield)
    as [(class_names & Hlist & Hrun & _) _].
  rewrite create_list_as_scan in Hlist by exact Hfield.
  injection Hlist as <-. exact Hrun.
Defined.

(** ** Label Mapping Introspection: the class count *)

Lemma existsb_Zeqb (x : Z) (l : list Z) :
  existsb (Z.eqb x) l = true <-> x ∈ l.
Proof.
  rewrite existsb_exists. split.
  - intros [y [Hy ->%Z.eqb_eq]]. by apply list_elem_of_In.
  - intros H. exists x. split; [by apply list_elem_of_In | apply Z.eqb_refl].
Qed.

(** The loop of [convert_label_map_to_categories] keeps the ids of the
    categories in step with the ids already added: distinct and in range. *)
Lemma convert_invariant (label_map : StringIntLabelMap) (max : Z) (udn : bool)
    (categories : list category) (added : list Z) :
  map cat_id categories = added -> NoDup added ->
  Forall (fun id => id_in_range max id = true) added ->
  let r := fold_left
    (fun '(categories, list_of_ids_already_added) item =>
       if negb (id_in_range max (id_of item)) then
         (categories, list_of_ids_already_added)
       else
         let name :=
           if udn && bool_decide (is_Some (item_display_name item))
           then display_name_of item else name_of item in
         if negb (existsb (Z.eqb (id_of item)) list_of_ids_already_added) then
           (categories ++ [ {| cat_id := id_of item; cat_name := name |} ],
            list_of_ids_already_added ++ [id_of item])
         else (categories, list_of_ids_already_added))
    label_map (categories, added) in
  map cat_id r.1 = r.2 /\ NoDup r.2 /\
  Forall (fun id => id_in_range max id = true) r.2.
Proof.
  revert categories added.
  induction label_map as [|item label_map IH]; intros categories added Hmap Hnd Hr;
    [done|].
  cbn [fold_left].
  destruct (id_in_range max (id_of item)) eqn:Hin; cbn [negb]; [|by apply IH].
  destruct (existsb (Z.eqb (id_of item)) added) eqn:Hex; cbn [negb];
    [by apply IH|].
  apply IH.
  - rewrite map_app. simpl. by rewrite Hmap.
  - apply NoDup_app. split; [done|]. split; [|apply NoDup_singleton].
    intros x Hx ->%list_elem_of_singleton.
    apply existsb_Zeqb in Hx. congruence.
  - apply Forall_app. split; [done|]. by apply Forall_singleton.
Qed.

Lemma convert_ids (label_map : StringIntLabelMap) (max : Z) (udn : bool) :
  let ids := map cat_id (convert_label_map_to_categories label_map max udn) in
  NoDup ids /\ Forall (fun id => id_in_range max id = true) ids.
Proof.
  unfold convert_label_map_to_categories.
  destruct (convert_invariant label_map max udn [] [])
    as (Hmap & Hnd & Hr); [done|constructor|constructor|].
  cbv zeta in *. rewrite Hmap. done.
Qed.

Lemma create_category_index_dom_acc (categories : list category)
    (index : gmap Z category) :
  dom (fold_left (fun category_index cat => <[cat_id cat := cat]> category_index)
         categories index)
  = dom index ∪ list_to_set (map cat_id categories).
Proof.
  revert index. induction categories as [|cat categories IH]; intros index; simpl.
  - set_solver.
  - rewrite IH, dom_insert_L. set_solver.
Qed.

Lemma create_category_index_dom (categories : list category) :
  dom (create_category_index categories) = list_to_set (map cat_id categories).
Proof.
  unfold create_category_index. rewrite create_category_index_dom_acc.
  set_solver.
Qed.

Lemma num_classes_of_length (label_map : StringIntLabelMap) :
  num_classes_of label_map
  = Z.of_nat (length (convert_label_map_to_categories label_map 90 true)).
Proof.
  unfold num_classes_of. rewrite create_category_index_dom.
  destruct (convert_ids label_map 90 true) as [Hnd _].
  rewrite size_list_to_set by done. by rewrite length_map.
Qed.

(** At most [max] distinct integers lie in 1..[max]. *)
Lemma distinct_in_range_length (max : Z) (ids : list Z) :
  0 <= max -> NoDup ids -> Forall (fun id => id_in_range max id = true) ids ->
  Z.of_nat (length ids) <= max.
Proof.
  intros Hmax Hnd Hr.
  assert (Hsub : (list_to_set ids : gset Z) ⊆ list_to_set (seqZ 1 max)).
  { intros x Hx. apply elem_of_list_to_set in Hx. apply elem_of_list_to_set.
    rewrite Forall_forall in Hr. specialize (Hr x Hx).
    unfold id_in_range in Hr. apply elem_of_seqZ. lia. }
  apply subseteq_size in Hsub.
  rewrite !size_list_to_set in Hsub by (done || apply NoDup_seqZ).
  rewrite length_seqZ in Hsub. lia.
Qed.

Lemma num_classes_of_le_90 (label_map : StringIntLabelMap) :
  0 <= num_classes_of label_map <= 90.
Proof.
  rewrite num_classes_of_length.
  destruct (convert_ids label_map 90 true) as [Hnd Hr].
  pose proof (distinct_in_range_length 90 _ ltac:(lia) Hnd Hr) as H.
  rewrite length_map in H. lia.
Qed.

Lemma convert_distinct_acc (label_map : StringIntLabelMap) (max : Z) (udn : bool)
    (categories : list category) (added : list Z) :
  map cat_id categories = added ->
  (forall x, x ∈ map id_of label_map -> x ∉ added) ->
  NoDup (map id_of label_map) ->
  map cat_id (fold_left
    (fun '(categories, list_of_ids_already_added) item =>
       if negb (id_in_range max (id_of item)) then
         (categories, list_of_ids_already_added)
       else
         let name :=
           if udn && bool_decide (is_Some (item_display_name item))
           then display_name_of item else name_of item in
         if negb (existsb (Z.eqb (id_of item)) list_of_ids_already_added) then
           (categories ++ [ {| cat_id := id_of item; cat_name := name |} ],
            list_of_ids_already_added ++ [id_of item])
         else (categories, list_of_ids_already_added))
    label_map (categories, added)).1
  = added ++ List.filter (id_in_range max) (map id_of label_map).
Proof.
  revert categories added.
  induction label_map as [|item label_map IH];
    intros categories added Hmap Hfresh Hnd.
  { simpl. by rewrite app_nil_r. }
  cbn [fold_left map List.filter].
  apply NoDup_cons in Hnd as [Hitem Hnd].
  destruct (id_in_range max (id_of item)) eqn:Hin; cbn [negb].
  - assert (Hex : existsb (Z.eqb (id_of item)) added = false).
    { apply not_true_iff_false. rewrite existsb_Zeqb.
      apply Hfresh. simpl. apply elem_of_cons. by left. }
    rewrite Hex. cbn [negb]. rewrite IH.
    + by rewrite <- app_assoc.
    + rewrite map_app. simpl. by rewrite Hmap.
    + intros x Hx [Hxa| ->%list_elem_of_singleton]%elem_of_app; [|done].
      eapply Hfresh; [|done]. simpl. apply elem_of_cons. by right.
    + done.
  - apply IH; [done| |done].
    intros x Hx. apply Hfresh. simpl. apply elem_of_cons. by right.
Qed.

Lemma filter_all (P : Z -> bool) (l : list Z) :
  Forall (fun x => P x = true) l -> List.filter P l = l.
Proof.
  induction 1 as [|x l Hx _ IH]; simpl; [done|]. by rewrite Hx, IH.
Qed.

Lemma filter_none (P : Z -> bool) (l : list Z) :
  Forall (fun x => P x = false) l -> List.filter P l = [].
Proof.
  induction 1 as [|x l Hx _ IH]; simpl; [done|]. by rewrite Hx, IH.
Qed.

Lemma filter_in_range_seqZ (max n : Z) :
  0 <= max -> 0 <= n ->
  List.filter (id_in_range max) (seqZ 1 n) = seqZ 1 (Z.min n max).
Proof.
  intros Hmax Hn. destruct (Z.le_gt_cases n max) as [Hle|Hgt].
  - rewrite Z.min_l by done. apply filter_all.
    apply Forall_forall. intros x Hx%elem_of_seqZ.
    unfold id_in_range. apply andb_true_iff. lia.
  - rewrite Z.min_r by lia.
    replace n with (max + (n - max)) by lia.
    rewrite seqZ_app by lia. rewrite List.filter_app.
    rewrite filter_all, filter_none; [by rewrite app_nil_r| |].
    + apply Forall_forall. intros x Hx%elem_of_seqZ.
      unfold id_in_range. apply andb_false_iff. right.
      apply Z.leb_gt. lia.
    + apply Forall_forall. intros x Hx%elem_of_seqZ.
      unfold id_in_range. apply andb_true_iff. lia.
Qed.

Lemma id_of_label_map_of (class_names : list string) :
  map id_of (label_map_of class_names)
  = seqZ 1 (Z.of_nat (length class_names)).
Proof.
  rewrite <- enumerate_from_ids, <- id_assignment_label_map_of.
  unfold id_assignment. rewrite map_map. done.
Qed.

(** The count for a label map built from a class-name list: the number of
    names, cut at 90. *)
Lemma num_classes_of_label_map_of (class_names : list string) :
  num_classes_of (label_map_of class_names)
  = Z.min (Z.of_nat (length class_names)) 90.
Proof.
  rewrite num_classes_of_length.
  rewrite <- (length_map cat_id).
  unfold convert_label_map_to_categories.
  rewrite convert_distinct_acc.
  - rewrite id_of_label_map_of. simpl.
    rewrite filter_in_range_seqZ by lia. rewrite length_seqZ. lia.
  - done.
  - intros x _. apply not_elem_of_nil.
  - rewrite id_of_label_map_of. apply NoDup_seqZ.
Qed.

Lemma _validate_label_map_positive (label_map : StringIntLabelMap) :
  Forall (fun id => 0 < id) (map id_of label_map) ->
  _validate_label_map label_map = Ok ().
Proof.
  induction label_map as [|item label_map IH]; simpl; [done|].
  intros [Hpos Hrest]%Forall_cons.
  rewrite (proj2 (Z.ltb_ge _ _)) by lia.
  rewrite (proj2 (Z.eqb_neq _ _)) by lia. simpl. by apply IH.
Qed.

Lemma _validate_label_map_of (class_names : list string) :
  _validate_label_map (label_map_of class_names) = Ok ().
Proof.
  apply _validate_label_map_positive. rewrite id_of_label_map_of.
  apply Forall_forall. intros x Hx%elem_of_seqZ. lia.
Qed.

(** ** Label Mapping Persistence *)

Lemma save_mapping_to_file_Ok (mapping : string)
    (filepaths : gmap string string) (w w' : World) :
  save_mapping_to_file mapping filepaths w = (Ok (), w') ->
  exists path, filepaths !! "label_map_file" = Some path /\
               files w' !! path = Some mapping.
Proof.
  unfold save_mapping_to_file, getitem, write_file.
  destruct (filepaths !! "label_map_file") as [path|]; [|done].
  destruct (_ && _); [|done].
  intros [= <-]. exists path. split; [done|]. simpl.
  apply lookup_insert_eq.
Qed.

Lemma load_labelmap_written (msg : StringIntLabelMap) (path : string)
    (w : World) :
  files w !! path = Some (MessageToBytes msg) ->
  _validate_label_map msg = Ok () ->
  load_labelmap path w = (Ok msg, emit (EvOpenRead path) w).
Proof.
  intros Hfile Hvalid. unfold load_labelmap, read_file. simpl.
  rewrite Hfile, Merge_MessageToBytes. simpl. by rewrite Hvalid.
Qed.

Lemma get_num_classes_written (msg : StringIntLabelMap)
    (filepaths : gmap string string) (path : string) (w : World) :
  filepaths !! "label_map_file" = Some path ->
  files w !! path = Some (MessageToBytes msg) ->
  _validate_label_map msg = Ok () ->
  (get_num_classes_from_label_map filepaths w).1 = Ok (num_classes_of msg).
Proof.
  intros Hpath Hfile Hvalid. unfold get_num_classes_from_label_map, getitem.
  rewrite Hpath. rewrite (load_labelmap_written msg) by done. done.
Qed.

Lemma get_num_classes_Ok (filepaths : gmap string string) (w w' : World) (n : Z) :
  get_num_classes_from_label_map filepaths w = (Ok n, w') ->
  exists path text label_map,
    filepaths !! "label_map_file" = Some path /\
    files w !! path = Some text /\
    Merge text = Ok label_map /\
    n = num_classes_of label_map.
Proof.
  unfold get_num_classes_from_label_map, getitem, load_labelmap, read_file.
  destruct (filepaths !! "label_map_file") as [path|]; [|done].
  simpl. destruct (files w !! path) as [text|] eqn:Hfile; [|done].
  destruct (Merge text) as [label_map| |] eqn:HM; simpl; [|done..].
  destruct (_validate_label_map label_map); simpl; [|done..].
  intros [= <- _]. by exists path, text, label_map.
Qed.

(** C10.  Whatever the label-map file holds, a count that
    [get_num_classes_from_label_map] returns lies between 0 and 90.  When
    the file holds the text written for a class-name list, the count is the
    number of names cut at 90, so it equals the number of names only when
    there are at most 90. *)
Theorem get_num_classes_capped_at_90 (filepaths : gmap string string)
    (w w' : World) (n : Z) :
  get_num_classes_from_label_map filepaths w = (Ok n, w') ->
  0 <= n <= 90 /\
  (forall class_names path,
     filepaths !! "label_map_file" = Some path ->
     files w !! path = Some (MessageToBytes (label_map_of class_names)) ->
     n = Z.min (Z.of_nat (length class_names)) 90 /\
     (n = Z.of_nat (length class_names) ->
      (length class_names <= 90)%nat)).
Proof.
  intros Hrun.
  destruct (get_num_classes_Ok _ _ _ _ Hrun)
    as (path & text & label_map & Hpath & Hfile & HM & ->).
  split; [apply num_classes_of_le_90|].
  intros class_names path' Hpath' Hfile'.
  assert (path' = path) as -> by congruence.
  assert (text = MessageToBytes (label_map_of class_names)) as -> by congruence.
  rewrite Merge_MessageToBytes in HM. injection HM as <-.
  rewrite num_classes_of_label_map_of. split; [done|]. lia.
Qed.

Lemma get_num_classes_capped_at_90_witness :
  get_num_classes_from_label_map example_filepaths
    (written_world (MessageToBytes (label_map_of names91)))
  = (Ok 90,
     emit (EvLogInfo "Finished calculating number of classes in label map file.")
       (emit (EvOpenRead "/tf/dataset-export/run1/label_map.pbtxt")
          (emit (EvLogInfo "Calculating number of classes in label map file.")
             (written_world (MessageToBytes (label_map_of names91)))))) /\
  0 <= 90 <= 90.
Proof.
  assert (H : get_num_classes_from_label_map example_filepaths
                (written_world (MessageToBytes (label_map_of names91)))
              = (Ok 90,
                 emit (EvLogInfo "Finished calculating number of classes in label map file.")
                   (emit (EvOpenRead "/tf/dataset-export/run1/label_map.pbtxt")
                      (emit (EvLogInfo "Calculating number of classes in label map file.")
                         (written_world (MessageToBytes (label_map_of names91)))))))
    by (vm_compute; reflexivity).
  split; [exact H|].
  exact (proj1 (get_num_classes_capped_at_90 _ _ _ _ H)).
Defined.

(** C6, as amended.  Take the mapping text that [create_detection_mapping]
    returns and [save_mapping_to_file] has written.  Reading the file back
    with the label-map reader gives the label map that was serialized, with
    the same assignment of the IDs 1, 2, ... to the class names; and when
    there are at most 90 class names, [get_num_classes_from_label_map]
    returns their number. *)
Theorem label_map_round_trip
    (shuffle : Z -> list Sample -> list Sample)
    (dataset_name label_field mapping : string)
    (filepaths : gmap string string) (w0 w1 w2 : World) :
  create_detection_mapping shuffle dataset_name label_field w0 = (Ok mapping, w1) ->
  save_mapping_to_file mapping filepaths w1 = (Ok (), w2) ->
  exists class_names path,
    mapping = MessageToBytes (label_map_of class_names) /\
    filepaths !! "label_map_file" = Some path /\
    (load_labelmap path w2).1 = Ok (label_map_of class_names) /\
    id_assignment (label_map_of class_names) = enumerate_from 1 class_names /\
    ((length class_names <= 90)%nat ->
     (get_num_classes_from_label_map filepaths w2).1
       = Ok (Z.of_nat (length class_names))).
Proof.
  intros Hcreate Hsave.
  destruct (create_detection_mapping_Ok _ _ _ _ _ _ Hcreate)
    as (dataset & _ & _ & ->).
  destruct (save_mapping_to_file_Ok _ _ _ _ Hsave) as (path & Hpath & Hfile).
  eexists _, path. split; [reflexivity|]. split; [done|].
  split; [|split].
  - rewrite (load_labelmap_written _ _ _ Hfile); [done|].
    apply _validate_label_map_of.
  - apply id_assignment_label_map_of.
  - intros Hlen.
    rewrite (get_num_classes_written _ _ _ _ Hpath Hfile)
      by apply _validate_label_map_of.
    rewrite num_classes_of_label_map_of. f_equal. lia.
Qed.

Lemma label_map_round_trip_witness :
  let mapping := MessageToBytes (label_map_of ["cat"; "dog"]) in
  let w1 := (create_detection_mapping example_shuffle "pets" "detections"
               example_store).2 in
  let w2 := (save_mapping_to_file mapping example_filepaths w1).2 in
  create_detection_mapping example_shuffle "pets" "detections" example_store
    = (Ok mapping, w1) /\
  save_mapping_to_file mapping example_filepaths w1 = (Ok (), w2) /\
  exists class_names path,
    mapping = MessageToBytes (label_map_of class_names) /\
    example_filepaths !! "label_map_file" = Some path /\
    (load_labelmap path w2).1 = Ok (label_map_of class_names) /\
    id_assignment (label_map_of class_names) = enumerate_from 1 class_names /\
    ((length class_names <= 90)%nat ->
     (get_num_classes_from_label_map example_filepaths w2).1
       = Ok (Z.of_nat (length class_names))).
Proof.
  intros mapping w1 w2.
  assert (H1 : create_detection_mapping example_shuffle "pets" "detections"
                 example_store = (Ok mapping, w1)) by reflexivity.
  assert (H2 : save_mapping_to_file mapping example_filepaths w1 = (Ok (), w2))
    by reflexivity.
  split; [exact H1|]. split; [exact H2|].
  exact (label_map_round_trip example_shuffle "pets" "detections" mapping
           example_filepaths example_store w1 w2 H1 H2).
Defined.

(** C6, refuted as stated.  For a dataset with 91 class names the mapping is
    created and written, and the count read back from the file is 90. *)
Lemma label_map_round_trip_counterexample :
  let mapping := MessageToBytes (label_map_of names91) in
  let w1 := (create_detection_mapping example_shuffle "many" "detections"
               example_store).2 in
  let w2 := (save_mapping_to_file mapping example_filepaths w1).2 in
  create_detection_mapping example_shuffle "many" "detections" example_store
    = (Ok mapping, w1) /\
  save_mapping_to_file mapping example_filepaths w1 = (Ok (), w2) /\
  length names91 = 91%nat /\
  (get_num_classes_from_label_map example_filepaths w2).1 = Ok 90.
Proof.
  cbv zeta. split; [by vm_compute|]. split; [by vm_compute|].
  split; [reflexivity|]. by vm_compute.
Qed.

(** ** Binary64 rounding *)

Lemma digits2_pos_size (p : positive) : digits2_pos p = Pos.size p.
Proof. induction p; simpl; congruence. Qed.

Lemma digits2_pos_bounds (p : positive) :
  2 ^ (Zpos (digits2_pos p) - 1) <= Zpos p < 2 ^ Zpos (digits2_pos p).
Proof.
  rewrite digits2_pos_size.
  pose proof (Pos.size_gt p) as Hgt. pose proof (Pos.size_le p) as Hle.
  split.
  - assert (H : 2 ^ Zpos (Pos.size p) <= 2 * Zpos p).
    { change (2 * Zpos p) with (Zpos p~0). rewrite <- Pos2Z.inj_pow. lia. }
    replace (Zpos (Pos.size p)) with (Zpos (Pos.size p) - 1 + 1) in H by lia.
    rewrite Z.pow_add_r in H by lia. lia.
  - rewrite <- Pos2Z.inj_pow. lia.
Qed.

Lemma iter_pos_nat {A} (f : A -> A) (p : positive) (x : A) :
  SpecFloat.iter_pos f p x = Nat.iter (Pos.to_nat p) f x.
Proof.
  revert x. induction p as [p IH|p IH|]; intros x; cbn [SpecFloat.iter_pos].
  - rewrite !IH, Pos2Nat.inj_xI.
    replace (S (2 * Pos.to_nat p)) with (Pos.to_nat p + (Pos.to_nat p + 1))%nat
      by lia.
    rewrite !Nat.iter_add. done.
  - rewrite !IH, Pos2Nat.inj_xO.
    replace (2 * Pos.to_nat p)%nat with (Pos.to_nat p + Pos.to_nat p)%nat by lia.
    by rewrite Nat.iter_add.
  - done.
Qed.

(** One halving step on a mantissa that is not negative. *)
Lemma shr_1_spec (m : Z) (r s : bool) :
  0 <= m ->
  shr_m (shr_1 {| shr_m := m; shr_r := r; shr_s := s |}) = m / 2 /\
  shr_r (shr_1 {| shr_m := m; shr_r := r; shr_s := s |}) = Z.odd m.
Proof.
  intros Hm. destruct m as [|[p|p|]|p]; try lia; simpl; split; try done.
  - rewrite Pos2Z.inj_xI.
    apply (Z.div_unique (2 * Zpos p + 1) 2 (Zpos p) 1); lia.
  - rewrite Pos2Z.inj_xO.
    apply (Z.div_unique (2 * Zpos p) 2 (Zpos p) 0); lia.
Qed.

Lemma shr_iter_spec (n : nat) (m : Z) (r s : bool) :
  0 <= m ->
  shr_m (Nat.iter n shr_1 {| shr_m := m; shr_r := r; shr_s := s |})
    = m / 2 ^ Z.of_nat n /\
  ((0 < n)%nat ->
   shr_r (Nat.iter n shr_1 {| shr_m := m; shr_r := r; shr_s := s |})
     = Z.odd (m / 2 ^ (Z.of_nat n - 1))).
Proof.
  intros Hm. induction n as [|n IH].
  - simpl. split; [by rewrite Z.div_1_r | lia].
  - rewrite Nat.iter_succ. destruct IH as [IHm IHr].
    destruct (Nat.iter n shr_1 _) as [m' r' s'] eqn:E. simpl in IHm.
    assert (Hm' : 0 <= m') by (subst m'; apply Z.div_pos; lia).
    destruct (shr_1_spec m' r' s' Hm') as [H1 H2].
    rewrite H1, H2. subst m'. split.
    + rewrite Z.div_div by lia. f_equal.
      rewrite Nat2Z.inj_succ, Z.pow_succ_r by lia. lia.
    + intros _. by replace (Z.of_nat (S n) - 1) with (Z.of_nat n) by lia.
Qed.

(** Shifting right by [p] bits and rounding to nearest: the rounded
    mantissa exceeds the exact quotient by at most half a unit. *)
Lemma shr_round_upper (m p : Z) :
  0 <= m -> 0 <= p ->
  let mrs := (shr {| shr_m := m; shr_r := false; shr_s := false |} 0 p).1 in
  let q := round_nearest_even (shr_m mrs) (loc_of_shr_record mrs) in
  m / 2 ^ p <= q /\ 2 * (q * 2 ^ p) <= 2 * m + 2 ^ p /\ (p = 0 -> q = m).
Proof.
  intros Hm Hp. cbv zeta. unfold shr.
  destruct p as [|p|p]; [| |lia].
  - simpl. rewrite Z.div_1_r. lia.
  - cbn [fst]. rewrite iter_pos_nat.
    destruct (shr_iter_spec (Pos.to_nat p) m false false Hm) as [H1 H2].
    rewrite positive_nat_Z in H1, H2.
    specialize (H2 ltac:(lia)).
    destruct (Nat.iter _ _ _) as [m' r' s']. simpl in H1, H2. simpl shr_m.
    pose proof (Z.pow_pos_nonneg 2 (Zpos p) ltac:(lia) ltac:(lia)) as Hpow.
    pose proof (Z.div_mod m (2 ^ Zpos p) ltac:(lia)) as Hdm.
    pose proof (Z.mod_pos_bound m (2 ^ Zpos p) Hpow) as Hmod.
    assert (Hq : round_nearest_even m' (loc_of_shr_record
                   {| shr_m := m'; shr_r := r'; shr_s := s' |}) = m' \/
                 (round_nearest_even m' (loc_of_shr_record
                   {| shr_m := m'; shr_r := r'; shr_s := s' |}) = m' + 1 /\
                  r' = true)).
    { destruct r', s'; simpl; try (by left); try (by right).
      destruct (Z.even m'); [by left | by right]. }
    split; [|split; [|lia]].
    + destruct Hq as [-> | [-> _]]; lia.
    + destruct Hq as [-> | [-> Hr]]; [subst m'; nia|].
      rewrite H2 in Hr. clear H2. rename Hr into H2.
      (* bit p-1 of m is set: the remainder is at least half *)
      assert (Hhalf : 2 ^ (Zpos p - 1) <= m mod 2 ^ Zpos p).
      { pose proof (Z.pow_pos_nonneg 2 (Zpos p - 1) ltac:(lia) ltac:(lia)) as Hh.
        assert (E2 : 2 ^ Zpos p = 2 ^ (Zpos p - 1) * 2).
        { replace (Zpos p) with (Zpos p - 1 + 1) at 1 by lia.
          rewrite Z.pow_add_r by lia. lia. }
        rewrite E2, Z.rem_mul_r by lia.
        apply Zodd_bool_iff in H2. rewrite Zodd_ex_iff in H2.
        destruct H2 as [k Hk].
        assert (Hmod2 : (m / 2 ^ (Zpos p - 1)) mod 2 = 1).
        { rewrite Hk. rewrite Z.add_comm, Z.mul_comm, Z.mod_add by lia. done. }
        rewrite Hmod2.
        pose proof (Z.mod_pos_bound m (2 ^ (Zpos p - 1)) Hh). lia. }
      assert (E2 : 2 ^ Zpos p = 2 * 2 ^ (Zpos p - 1)).
      { replace (Zpos p) with (Zpos p - 1 + 1) at 1 by lia.
        rewrite Z.pow_add_r by lia. lia. }
      subst m'. nia.
Qed.

Lemma shr_components (mrs : shr_record) (e n : Z) :
  (shr mrs e n).1 = (shr mrs 0 (Z.max 0 n)).1 /\
  (shr mrs e n).2 = e + Z.max 0 n.
Proof.
  unfold shr. destruct n as [|p|p]; simpl; split; try done; lia.
Qed.

Lemma shr_exact_m (q e n : Z) :
  0 <= q ->
  shr_m (shr {| shr_m := q; shr_r := false; shr_s := false |} e n).1
  = q / 2 ^ Z.max 0 n.
Proof.
  intros Hq. unfold shr. destruct n as [|p|p]; simpl.
  - by rewrite Z.div_1_r.
  - rewrite iter_pos_nat.
    destruct (shr_iter_spec (Pos.to_nat p) q false false Hq) as [H1 _].
    by rewrite positive_nat_Z in H1.
  - by rewrite Z.div_1_r.
Qed.

(** The shape of a rounding from an exact mantissa that is not negative:
    shift by [p], round to [q], shift again by [p2] (a carry). *)
Lemma binary_round_aux_shape (s : bool) (mx ex : Z) :
  0 <= mx ->
  let p := Z.max 0 (fexp prec emax (Zdigits2 mx + ex) - ex) in
  exists q,
    mx / 2 ^ p <= q /\ 2 * (q * 2 ^ p) <= 2 * mx + 2 ^ p /\ (p = 0 -> q = mx) /\
    let p2 := Z.max 0 (fexp prec emax (Zdigits2 q + (ex + p)) - (ex + p)) in
    binary_round_aux prec emax s mx ex loc_Exact =
      match q / 2 ^ p2 with
      | Z0 => S754_zero s
      | Zpos m => if ex + p + p2 <=? emax - prec
                  then S754_finite s m (ex + p + p2) else S754_infinity s
      | Zneg _ => S754_nan
      end.
Proof.
  intros Hmx p.
  unfold binary_round_aux, shr_fexp. cbn [shr_record_of_loc].
  set (n := fexp prec emax (Zdigits2 mx + ex) - ex).
  destruct (shr_components {| shr_m := mx; shr_r := false; shr_s := false |} ex n)
    as [Hc1 Hc2].
  destruct (shr _ ex n) as [mrs' e'] eqn:E1. simpl in Hc1, Hc2.
  destruct (shr_round_upper mx p Hmx ltac:(lia)) as (Hq1 & Hq2 & Hq3).
  change (Z.max 0 n) with p in Hc1, Hc2. rewrite <- Hc1 in Hq1, Hq2, Hq3.
  set (q := round_nearest_even (shr_m mrs') (loc_of_shr_record mrs')) in *.
  exists q. split; [done|]. split; [done|]. split; [done|].
  assert (Hq : 0 <= q).
  { pose proof (Z.pow_pos_nonneg 2 p ltac:(lia) ltac:(lia)).
    pose proof (Z.div_pos mx (2 ^ p) Hmx ltac:(lia)). lia. }
  cbv zeta. subst e'.
  set (n2 := fexp prec emax (Zdigits2 q + (ex + p)) - (ex + p)).
  pose proof (shr_exact_m q (ex + p) n2 Hq) as Hm2.
  destruct (shr_components {| shr_m := q; shr_r := false; shr_s := false |}
              (ex + p) n2) as [_ He2].
  destruct (shr _ (ex + p) n2) as [mrs'' e''] eqn:E2. simpl in Hm2, He2.
  rewrite Hm2. subst e''. done.
Qed.

(** The value a rounding returns is at most the exact value plus half a
    unit of the shift. *)
Lemma binary_round_aux_upper (s s' : bool) (mx ex : Z) (m : positive) (e : Z) :
  0 <= mx ->
  binary_round_aux prec emax s mx ex loc_Exact = S754_finite s' m e ->
  let p := Z.max 0 (fexp prec emax (Zdigits2 mx + ex) - ex) in
  s' = s /\ ex + p <= e /\ e <= emax - prec /\
  2 * (Zpos m * 2 ^ (e - ex)) <= 2 * mx + 2 ^ p /\
  (p = 0 -> Zpos m * 2 ^ (e - ex) <= mx).
Proof.
  intros Hmx Hr p.
  destruct (binary_round_aux_shape s mx ex Hmx) as (q & Hq1 & Hq2 & Hq3 & Hshape).
  fold p in Hq1, Hq2, Hq3, Hshape. cbv zeta in Hshape.
  set (p2 := Z.max 0 (fexp prec emax (Zdigits2 q + (ex + p)) - (ex + p))) in *.
  rewrite Hshape in Hr.
  destruct (q / 2 ^ p2) as [|m'|m'] eqn:Hdiv; [done| |done].
  destruct (ex + p + p2 <=? emax - prec) eqn:Hle; [|done].
  injection Hr as <- <- <-. apply Z.leb_le in Hle.
  split; [done|]. split; [lia|]. split; [done|].
  replace (ex + p + p2 - ex) with (p2 + p) by lia.
  rewrite Z.pow_add_r by lia.
  pose proof (Z.pow_pos_nonneg 2 p ltac:(lia) ltac:(lia)) as Hp.
  pose proof (Z.pow_pos_nonneg 2 p2 ltac:(lia) ltac:(lia)) as Hp2.
  pose proof (Z.mul_div_le q (2 ^ p2) Hp2) as Hfloor. rewrite Hdiv in Hfloor.
  split; [nia|]. intros Hp0. specialize (Hq3 Hp0).
  assert (H1 : 2 ^ p = 1) by (by rewrite Hp0). rewrite H1. nia.
Qed.

Lemma pow2_pos (e : Z) : (0 < 2 ^ e)%Q.
Proof. by apply Qpower_0_lt. Qed.

Lemma pow2_add (a b : Z) : (2 ^ (a + b) == 2 ^ a * 2 ^ b)%Q.
Proof. by apply Qpower_plus. Qed.

Lemma pow2_double (e : Z) : (2 * 2 ^ (e - 1) == 2 ^ e)%Q.
Proof.
  replace e with (1 + (e - 1)) at 2 by lia. rewrite pow2_add. reflexivity.
Qed.

Lemma pow2_inject (k : Z) : 0 <= k -> (inject_Z (2 ^ k) == 2 ^ k)%Q.
Proof. intros Hk. by rewrite Zpower_Qpower. Qed.

Lemma pow2_le (a b : Z) : a <= b -> (2 ^ a <= 2 ^ b)%Q.
Proof. intros H. by apply Qpower_le_compat_l. Qed.

Lemma F2Q_shift (m e k : Z) : 0 <= k -> (F2Q (m * 2 ^ k) e == F2Q m (e + k))%Q.
Proof.
  intros Hk. unfold F2Q.
  rewrite inject_Z_mult, pow2_inject, pow2_add by done. ring.
Qed.

Lemma F2Q_le (m1 m2 e : Z) : m1 <= m2 -> (F2Q m1 e <= F2Q m2 e)%Q.
Proof.
  intros H. unfold F2Q. apply Qmult_le_compat_r.
  - by rewrite <- Zle_Qle.
  - apply Qlt_le_weak, pow2_pos.
Qed.

Lemma F2Q_nonneg (m e : Z) : 0 <= m -> (0 <= F2Q m e)%Q.
Proof.
  intros H. unfold F2Q. apply Qmult_le_0_compat.
  - by rewrite <- (Zle_Qle 0).
  - apply Qlt_le_weak, pow2_pos.
Qed.

(** Rounding adds at most half a unit in the last place. *)
Lemma binary_round_aux_upper_Q (s s' : bool) (mx ex : Z) (m : positive) (e : Z) :
  0 <= mx ->
  binary_round_aux prec emax s mx ex loc_Exact = S754_finite s' m e ->
  s' = s /\ e <= emax - prec /\
  (F2Q (Zpos m) e
   <= F2Q mx ex + 2 ^ (fexp prec emax (Zdigits2 mx + ex) - 1))%Q.
Proof.
  intros Hmx Hr.
  destruct (binary_round_aux_upper s s' mx ex m e Hmx Hr)
    as (Hs & He & Hemax & H2 & H0).
  split; [done|]. split; [done|].
  set (F := fexp prec emax (Zdigits2 mx + ex)) in *.
  set (p := Z.max 0 (F - ex)) in *.
  set (A := Zpos m * 2 ^ (e - ex)) in *.
  assert (HA : (F2Q (Zpos m) e == F2Q A ex)%Q).
  { unfold A. rewrite F2Q_shift by lia. by replace (ex + (e - ex)) with e by lia. }
  rewrite HA.
  pose proof (pow2_pos (F - 1)) as HF.
  destruct (decide (p = 0)) as [Hp|Hp].
  - specialize (H0 Hp). pose proof (F2Q_le A mx ex H0). lra.
  - assert (HpF : p = F - ex) by lia.
    assert (H2Q : (2 * inject_Z A <= 2 * inject_Z mx + 2 ^ p)%Q).
    { rewrite <- pow2_inject by lia.
      change 2%Q with (inject_Z 2).
      rewrite <- !inject_Z_mult, <- inject_Z_plus, <- Zle_Qle. done. }
    unfold F2Q.
    pose proof (pow2_pos ex) as Hex.
    assert (E : (2 * 2 ^ (F - 1) == 2 ^ p * 2 ^ ex)%Q).
    { rewrite <- pow2_add. replace (p + ex) with F by lia. apply pow2_double. }
    revert H2Q Hex E.
    generalize (2 ^ p)%Q (2 ^ ex)%Q (2 ^ (F - 1))%Q (inject_Z A) (inject_Z mx).
    clear. intros P X T a b H2Q Hex E. nra.
Qed.

Lemma fexp_unfold (e : Z) : fexp prec emax e = Z.max (e - 53) (-1074).
Proof. reflexivity. Qed.

(** A positive mantissa whose value is below [2 ^ B] has few digits. *)
Lemma digits_of_small (mx ex B : Z) :
  0 < mx -> (F2Q mx ex < 2 ^ B)%Q -> Zdigits2 mx + ex <= B.
Proof.
  intros Hmx Hlt. destruct mx as [|p|p]; try lia. cbn [Zdigits2].
  destruct (digits2_pos_bounds p) as [Hlo _].
  set (d := Zpos (digits2_pos p)) in *.
  destruct (Z.le_gt_cases (d + ex) B) as [|Hgt]; [done|exfalso].
  assert (H1 : (2 ^ B <= 2 ^ (d - 1 + ex))%Q) by (apply pow2_le; lia).
  assert (H2 : (2 ^ (d - 1 + ex) <= F2Q (Zpos p) ex)%Q).
  { rewrite pow2_add. unfold F2Q. apply Qmult_le_compat_r.
    - rewrite <- pow2_inject by lia. by rewrite <- Zle_Qle.
    - apply Qlt_le_weak, pow2_pos. }
  revert Hlt H1 H2.
  generalize (2 ^ B)%Q (2 ^ (d - 1 + ex))%Q (F2Q (Zpos p) ex). clear.
  intros a b c ???. lra.
Qed.

(** A rounding of a value below [2 ^ B] is total, and adds at most
    [2 ^ (B - 54)]. *)
Lemma binary_round_aux_bounded (s : bool) (mx ex B : Z) :
  0 <= mx -> (F2Q mx ex < 2 ^ B)%Q -> -1021 <= B <= 971 ->
  binary_round_aux prec emax s mx ex loc_Exact = S754_zero s \/
  exists m e,
    binary_round_aux prec emax s mx ex loc_Exact = S754_finite s m e /\
    e <= emax - prec /\
    (F2Q (Zpos m) e <= F2Q mx ex + 2 ^ (B - 54))%Q.
Proof.
  intros Hmx Hlt HB.
  destruct (binary_round_aux_shape s mx ex Hmx) as (q & Hq1 & Hq2 & Hq3 & Hshape).
  cbv zeta in Hshape.
  set (F := fexp prec emax (Zdigits2 mx + ex)) in *.
  set (p := Z.max 0 (F - ex)) in *.
  set (p2 := Z.max 0 (fexp prec emax (Zdigits2 q + (ex + p)) - (ex + p))) in *.
  pose proof (Z.pow_pos_nonneg 2 p ltac:(lia) ltac:(lia)) as Hp.
  pose proof (Z.pow_pos_nonneg 2 p2 ltac:(lia) ltac:(lia)) as Hp2.
  assert (Hq0 : 0 <= q) by (pose proof (Z.div_pos mx (2 ^ p) Hmx Hp); lia).
  destruct (q / 2 ^ p2) as [|m|m] eqn:Hdiv.
  - by left.
  - right.
    assert (Hqpos : 0 < q).
    { destruct (decide (q = 0)) as [->|]; [|lia]. by rewrite Z.div_0_l in Hdiv by lia. }
    assert (Hmxpos : 0 < mx) by nia.
    (* the exponent of the unit of the shift *)
    pose proof (digits_of_small mx ex B Hmxpos Hlt) as Hdig.
    assert (Hd1 : 1 <= Zdigits2 mx) by (destruct mx; simpl; lia).
    assert (HF : F <= B - 53).
    { unfold F. rewrite fexp_unfold. lia. }
    (* the rounded mantissa is below 2 ^ (B + 1) *)
    assert (Hqlt : (F2Q q (ex + p) < 2 ^ (B + 1))%Q).
    { assert (E : (F2Q q (ex + p) == F2Q (q * 2 ^ p) ex)%Q)
        by (by rewrite F2Q_shift by lia).
      rewrite E.
      assert (H3 : (F2Q (q * 2 ^ p) ex <= F2Q mx ex + 2 ^ (ex + p))%Q).
      { pose proof (F2Q_le (2 * (q * 2 ^ p)) (2 * mx + 2 ^ p) ex Hq2) as H4.
        unfold F2Q in *. rewrite pow2_add.
        rewrite !inject_Z_plus, !inject_Z_mult, pow2_inject in H4 by lia.
        rewrite inject_Z_mult, pow2_inject by lia.
        pose proof (pow2_pos ex) as Hx. pose proof (pow2_pos p) as Hpp.
        revert H4 Hx Hpp.
        generalize (inject_Z q) (inject_Z mx) (2 ^ p)%Q (2 ^ ex)%Q. clear.
        intros a b P X H4 Hx Hpp. change (inject_Z 2) with 2%Q in H4. nra. }
      assert (H5 : (2 ^ (ex + p) <= 2 ^ B)%Q).
      { apply pow2_le. lia. }
      pose proof (pow2_double (B + 1)) as H6.
      replace (B + 1 - 1) with B in H6 by lia.
      revert Hlt H3 H5 H6.
      generalize (F2Q (q * 2 ^ p) ex) (F2Q mx ex) (2 ^ (ex + p))%Q (2 ^ B)%Q
                 (2 ^ (B + 1))%Q. clear.
      intros a b c d e' ????. lra. }
    pose proof (digits_of_small q (ex + p) (B + 1) Hqpos Hqlt) as Hdq.
    assert (He'' : ex + p + p2 <= emax - prec).
    { unfold p2. rewrite fexp_unfold. unfold emax, prec in *. lia. }
    apply Z.leb_le in He''. rewrite He'' in Hshape.
    exists m, (ex + p + p2). split; [done|]. split; [by apply Z.leb_le|].
    pose proof Hshape as Hr.
    destruct (binary_round_aux_upper_Q s s mx ex m _ Hmx Hr) as (_ & _ & Hub).
    fold F in Hub.
    assert (H7 : (2 ^ (F - 1) <= 2 ^ (B - 54))%Q) by (apply pow2_le; lia).
    revert Hub H7.
    generalize (F2Q (Zpos m) (ex + p + p2)) (F2Q mx ex) (2 ^ (F - 1))%Q
               (2 ^ (B - 54))%Q. clear.
    intros a b c d ??. lra.
  - exfalso.
    pose proof (Z.div_pos q (2 ^ p2) Hq0 Hp2). lia.
Qed.

Lemma value_nonneg (x : spec_float) : nonneg_finite x -> (0 <= value x)%Q.
Proof.
  destruct x as [s| | |[] m e]; simpl; try done; intros _; try lra.
  by apply F2Q_nonneg.
Qed.

Lemma Pos_iter_xO (m d : positive) : Zpos (Pos.iter xO m d) = Zpos m * 2 ^ Zpos d.
Proof.
  rewrite <- Z.shiftl_mul_pow2 by lia. simpl.
  apply (Pos.iter_swap_gen _ _ Zpos xO (Z.mul 2)). intros a. done.
Qed.

(** Aligning a mantissa to a lower exponent keeps the value. *)
Lemma shl_align_value (mx : positive) (ex ex' : Z) :
  (F2Q (Zpos (shl_align mx ex ex').1) (shl_align mx ex ex').2
   == F2Q (Zpos mx) ex)%Q /\
  (shl_align mx ex ex').2 = Z.min ex ex'.
Proof.
  unfold shl_align. destruct (ex' - ex) as [|d|d] eqn:E; simpl.
  - split; [reflexivity | lia].
  - split; [reflexivity | lia].
  - rewrite Pos_iter_xO. split; [|lia].
    rewrite F2Q_shift by lia. by replace (ex' + Zpos d) with ex by lia.
Qed.

Lemma binary_round_bounded (s : bool) (mx : positive) (ex B : Z) :
  (F2Q (Zpos mx) ex < 2 ^ B)%Q -> -1021 <= B <= 971 ->
  binary_round prec emax s mx ex = S754_zero s \/
  exists m e,
    binary_round prec emax s mx ex = S754_finite s m e /\
    (F2Q (Zpos m) e <= F2Q (Zpos mx) ex + 2 ^ (B - 54))%Q.
Proof.
  intros Hlt HB. unfold binary_round.
  destruct (shl_align_value mx ex
              (fexp prec emax (Zpos (digits2_pos mx) + ex))) as [Hv _].
  destruct (shl_align mx ex _) as [mz ez]. simpl in Hv.
  rewrite <- Hv in Hlt.
  destruct (binary_round_aux_bounded s (Zpos mz) ez B ltac:(lia) Hlt HB)
    as [Hz | (m & e & Hr & _ & Hub)]; [by left|right].
  exists m, e. split; [done|]. by rewrite <- Hv.
Qed.

Lemma F2Q_0 (m : Z) : (F2Q m 0 == inject_Z m)%Q.
Proof. unfold F2Q. simpl. ring. Qed.

Lemma F2Q_sub (a b e : Z) : (F2Q (a - b) e == F2Q a e - F2Q b e)%Q.
Proof.
  unfold F2Q. unfold Z.sub. rewrite inject_Z_plus, inject_Z_opp. ring.
Qed.

Lemma F2Q_mul (a b ea eb : Z) :
  (F2Q (a * b) (ea + eb) == F2Q a ea * F2Q b eb)%Q.
Proof. unfold F2Q. rewrite inject_Z_mult, pow2_add. ring. Qed.

(** [float(n)] for a count [n] below [2 ^ B]. *)
Lemma float_of_int_bounded (n B : Z) :
  0 <= n -> (inject_Z n < 2 ^ B)%Q -> -1021 <= B <= 971 ->
  exists x, float_of_int n = Ok x /\ nonneg_finite x /\
            (value x <= inject_Z n + 2 ^ (B - 54))%Q.
Proof.
  intros Hn Hlt HB. unfold float_of_int, binary_normalize.
  pose proof (pow2_pos (B - 54)) as Hs.
  destruct n as [|p|p]; [| |lia].
  - exists (S754_zero false). simpl. split; [done|]. split; [done|].
    change (inject_Z 0) with 0%Q.
    revert Hs. generalize (2 ^ (B - 54))%Q. clear. intros. lra.
  - rewrite <- F2Q_0 in Hlt.
    destruct (binary_round_bounded false p 0 B Hlt HB)
      as [-> | (m & e & -> & Hub)].
    + exists (S754_zero false). simpl. split; [done|]. split; [done|].
      assert (0 <= inject_Z (Zpos p))%Q by (by rewrite <- (Zle_Qle 0)).
      revert Hs H. generalize (2 ^ (B - 54))%Q (inject_Z (Zpos p)). clear. intros. lra.
    + exists (S754_finite false m e). split; [done|]. split; [done|].
      simpl. by rewrite <- F2Q_0.
Qed.

(** The product of two floats that are not negative, below [2 ^ B]. *)
Lemma SFmul_bounded (x y : spec_float) (B : Z) :
  nonneg_finite x -> nonneg_finite y ->
  (value x * value y < 2 ^ B)%Q -> -1021 <= B <= 971 ->
  nonneg_finite (SFmul prec emax x y) /\
  (value (SFmul prec emax x y) <= value x * value y + 2 ^ (B - 54))%Q.
Proof.
  intros Hx Hy Hlt HB.
  pose proof (pow2_pos (B - 54)) as Hs.
  pose proof (value_nonneg x Hx) as Hvx. pose proof (value_nonneg y Hy) as Hvy.
  assert (Hz : (0 <= value x * value y + 2 ^ (B - 54))%Q).
  { pose proof (Qmult_le_0_compat _ _ Hvx Hvy) as H.
    revert H Hs. generalize (value x * value y)%Q (2 ^ (B - 54))%Q. clear. intros. lra. }
  destruct x as [sx| | |[] mx ex]; try done;
  destruct y as [sy| | |[] my ey]; try done; try (by split).
  cbn [SFmul xorb value cond_Zopp] in *.
  rewrite <- F2Q_mul in Hlt, Hz.
  change (Zpos mx * Zpos my) with (Zpos (mx * my)) in *.
  destruct (binary_round_aux_bounded false (Zpos (mx * my)) (ex + ey) B
              ltac:(lia) Hlt HB) as [-> | (m & e & -> & _ & Hub)].
  - split; [done|]. simpl. rewrite <- F2Q_mul. done.
  - split; [done|]. simpl. rewrite <- F2Q_mul. done.
Qed.

(** [1 - f] for a fraction [f]. *)
Lemma int_sub_float_bounded (f : spec_float) :
  nonneg_finite f -> (value f <= 1)%Q ->
  exists g, int_sub_float 1 f = Ok g /\ nonneg_finite g /\
            (value g <= 1 - value f + 2 ^ (-54))%Q.
Proof.
  intros Hf Hle. unfold int_sub_float.
  change (float_of_int 1) with (Ok (S754_finite false 4503599627370496 (-52))).
  cbn [mbind outcome_bind].
  destruct f as [s| | |[] mf ef]; try done.
  - eexists. split; [reflexivity|]. split; [done|]. by vm_compute.
  - eexists. split; [reflexivity|].
    cbn [SFsub cond_Zopp value] in *.
    set (ez := Z.min (-52) ef).
    destruct (shl_align_value 4503599627370496 (-52) ez) as [Hv1 He1].
    destruct (shl_align_value mf ef ez) as [Hv2 He2].
    replace (Z.min (-52) ez) with ez in He1 by lia.
    replace (Z.min ef ez) with ez in He2 by lia.
    rewrite He1 in Hv1. rewrite He2 in Hv2.
    set (m1 := (shl_align 4503599627370496 (-52) ez).1) in *.
    set (m2 := (shl_align mf ef ez).1) in *.
    assert (H1 : (F2Q (Zpos 4503599627370496) (-52) == 1)%Q) by (by vm_compute).
    rewrite H1 in Hv1.
    assert (HD : (F2Q (Zpos m1 - Zpos m2) ez == 1 - F2Q (Zpos mf) ef)%Q).
    { by rewrite F2Q_sub, Hv1, Hv2. }
    assert (Hs : (0 < 2 ^ (-54))%Q) by (by vm_compute).
    unfold binary_normalize.
    destruct (Zpos m1 - Zpos m2) as [|d|d] eqn:ED.
    + split; [done|]. simpl.
      assert (H0 : (F2Q 0 ez == 0)%Q).
      { unfold F2Q. change (inject_Z 0) with 0%Q. ring. }
      rewrite H0 in HD.
      revert HD Hs. generalize (F2Q (Zpos mf) ef) (2 ^ (-54))%Q. clear. intros a b HD Hs.
      lra.
    + assert (Hpos : (0 < F2Q (Zpos mf) ef)%Q).
      { unfold F2Q. apply Qmult_lt_0_compat; [|apply pow2_pos].
        by rewrite <- (Zlt_Qlt 0). }
      assert (Hlt : (F2Q (Zpos d) ez < 2 ^ 0)%Q).
      { rewrite HD. simpl. revert Hpos. generalize (F2Q (Zpos mf) ef).
        clear. intros. lra. }
      destruct (binary_round_bounded false d ez 0 Hlt ltac:(lia))
        as [-> | (m & e & -> & Hub)].
      * split; [done|]. simpl.
        revert Hle Hs. generalize (F2Q (Zpos mf) ef) (2 ^ (-54))%Q. clear. intros. lra.
      * split; [done|]. simpl. rewrite HD in Hub. done.
    + exfalso.
      assert (Hneg : (F2Q (Zneg d) ez < 0)%Q).
      { unfold F2Q. pose proof (pow2_pos ez) as He.
        assert (Hd : (inject_Z (Zneg d) < 0)%Q) by (by rewrite <- (Zlt_Qlt _ 0)).
        revert He Hd. generalize (2 ^ ez)%Q (inject_Z (Zneg d)). clear. intros. nra. }
      rewrite HD in Hneg. revert Hle Hneg. generalize (F2Q (Zpos mf) ef).
      clear. intros. lra.
Qed.

(** [math.floor] of a float that is not negative. *)
Lemma math_floor_bounded (x : spec_float) :
  nonneg_finite x ->
  exists t, math_floor x = Ok t /\ 0 <= t /\ (inject_Z t <= value x)%Q.
Proof.
  destruct x as [s| | |[] m e]; try done; intros _.
  - exists 0. simpl. split; [done|]. split; [done|]. apply Qle_refl.
  - exists (Z.shiftl (Zpos m) e). split; [done|]. cbn [value cond_Zopp].
    destruct (Z.le_gt_cases 0 e) as [He|He].
    + rewrite Z.shiftl_mul_pow2 by done.
      pose proof (Z.pow_pos_nonneg 2 e ltac:(lia) He). split; [lia|].
      rewrite <- F2Q_0, F2Q_shift by done. simpl. apply Qle_refl.
    + rewrite Z.shiftl_div_pow2 by lia.
      pose proof (Z.pow_pos_nonneg 2 (- e) ltac:(lia) ltac:(lia)) as Hp.
      split; [apply Z.div_pos; lia|].
      set (t := Zpos m / 2 ^ (- e)).
      assert (E : (inject_Z t == F2Q (t * 2 ^ (- e)) e)%Q).
      { rewrite F2Q_shift by lia. replace (e + - e) with 0 by lia.
        by rewrite F2Q_0. }
      rewrite E. apply F2Q_le.
      pose proof (Z.mul_div_le (Zpos m) (2 ^ (- e)) Hp). unfold t. lia.
Qed.

Lemma is_fraction_value (f : spec_float) :
  is_fraction f = true -> nonneg_finite f /\ (value f <= 1)%Q.
Proof.
  unfold is_fraction. rewrite !andb_true_iff. intros [[Hvalid H0] H1].
  destruct f as [s|s| |s m e]; try done.
  - destruct s; [by vm_compute in H0 | by vm_compute in H1].
  - destruct s; [by vm_compute in H0|]. split; [done|].
    cbn [value cond_Zopp].
    unfold SFleb, SFcompare in H1.
    unfold valid_binary, bounded, canonical_mantissa in Hvalid.
    apply andb_true_iff in Hvalid as [Hcanon _].
    apply Z.eqb_eq in Hcanon. rewrite fexp_unfold in Hcanon.
    destruct (digits2_pos_bounds m) as [_ Hhi].
    set (d := Zpos (digits2_pos m)) in *.
    destruct (Z.compare_spec e (-52)) as [He|He|He]; [| |done].
    + subst e. destruct (Pos.compare_cont Eq m 4503599627370496) eqn:Hc;
        [| |done].
      * apply Pos.compare_eq in Hc. subst m. by vm_compute.
      * assert (Hc' : (m ?= 4503599627370496)%positive = Lt) by exact Hc.
        clear Hc. apply Pos.compare_lt_iff in Hc'.
        assert (E : (F2Q 4503599627370496 (-52) == 1)%Q) by (by vm_compute).
        rewrite <- E. apply F2Q_le.
        apply Z.lt_le_incl. by apply Pos2Z.pos_lt_pos.
    + assert (Hd : d <= 53) by lia.
      assert (Hm : Zpos m <= 2 ^ 53).
      { pose proof (Z.pow_le_mono_r 2 d 53 ltac:(lia) Hd). lia. }
      pose proof (F2Q_le _ _ e Hm) as H2.
      assert (E : (F2Q (2 ^ 53) e == 2 ^ (53 + e))%Q).
      { unfold F2Q. rewrite pow2_inject, pow2_add by lia. reflexivity. }
      rewrite E in H2.
      pose proof (pow2_le (53 + e) 0 ltac:(lia)) as H3.
      change (2 ^ 0)%Q with 1%Q in H3.
      revert H2 H3. generalize (F2Q (Zpos m) e) (2 ^ (53 + e))%Q.
      clear. intros. lra.
Qed.

(** For a count below [2 ^ 49] and a fraction in [0, 1], the two lengths
    are computed, neither is negative, and together they do not exceed the
    count. *)
Lemma split_lengths_sum (N : Z) (f : spec_float) :
  0 <= N < 2 ^ 49 -> is_fraction f = true ->
  exists train_len val_len,
    split_lengths N f = Ok (train_len, val_len) /\
    0 <= train_len /\ 0 <= val_len /\ train_len + val_len <= N.
Proof.
  intros HN Hf. apply is_fraction_value in Hf as [Hnf Hle].
  assert (HNq : (inject_Z N < 2 ^ 49)%Q).
  { rewrite <- pow2_inject by lia. rewrite <- Zlt_Qlt. lia. }
  assert (HN0 : (0 <= inject_Z N)%Q) by (rewrite <- (Zle_Qle 0); lia).
  destruct (float_of_int_bounded N 49 ltac:(lia) HNq ltac:(lia))
    as (x0 & Hx0 & Hx0nf & Hx0v).
  pose proof (value_nonneg x0 Hx0nf) as Hx0pos.
  pose proof (value_nonneg f Hnf) as Hfpos.
  destruct (int_sub_float_bounded f Hnf Hle) as (g & Hg & Hgnf & Hgv).
  pose proof (value_nonneg g Hgnf) as Hgpos.
  assert (E5 : (2 ^ (49 - 54) == 1 # 32)%Q) by (by vm_compute).
  assert (E4 : (2 ^ (50 - 54) == 1 # 16)%Q) by (by vm_compute).
  assert (E54 : (2 ^ (-54) == 1 # 18014398509481984)%Q) by (by vm_compute).
  assert (E49 : (2 ^ 49 == 562949953421312)%Q) by (by vm_compute).
  assert (E50 : (2 ^ 50 == 1125899906842624)%Q) by (by vm_compute).
  rewrite E5 in Hx0v. rewrite E54 in Hgv. rewrite E49 in HNq.
  assert (Hlt1 : (value x0 * value f < 2 ^ 50)%Q).
  { rewrite E50. revert HN0 HNq Hx0v Hx0pos Hfpos Hle.
    generalize (inject_Z N) (value x0) (value f). clear. intros n X F. intros.
    nra. }
  assert (Hlt2 : (value x0 * value g < 2 ^ 50)%Q).
  { rewrite E50. revert HN0 HNq Hx0v Hx0pos Hfpos Hle Hgv Hgpos.
    generalize (inject_Z N) (value x0) (value f) (value g). clear.
    intros n X F G. intros. nra. }
  destruct (SFmul_bounded x0 f 50 Hx0nf Hnf Hlt1 ltac:(lia)) as [Hp1nf Hp1v].
  destruct (SFmul_bounded x0 g 50 Hx0nf Hgnf Hlt2 ltac:(lia)) as [Hp2nf Hp2v].
  destruct (math_floor_bounded _ Hp1nf) as (t & Ht & Ht0 & Htv).
  destruct (math_floor_bounded _ Hp2nf) as (v & Hv & Hv0 & Hvv).
  exists t, v. split.
  - unfold split_lengths, int_mul_float. rewrite Hx0. cbn [mbind outcome_bind].
    rewrite Ht. cbn [mbind outcome_bind]. rewrite Hg. cbn [mbind outcome_bind].
    rewrite Hv. done.
  - split; [done|]. split; [done|].
    rewrite E4 in Hp1v, Hp2v.
    assert (Hsum : (inject_Z (t + v) < inject_Z (N + 1))%Q).
    { rewrite !inject_Z_plus. change (inject_Z 1) with 1%Q.
      revert HN0 HNq Hx0v Hx0pos Hfpos Hle Hgv Hgpos Hp1v Hp2v Htv Hvv.
      generalize (inject_Z N) (value x0) (value f) (value g)
                 (value (SFmul prec emax x0 f)) (value (SFmul prec emax x0 g))
                 (inject_Z t) (inject_Z v). clear.
      intros n X F G P R t v. intros.
      assert (H1 : (X * (F + G) <= X * (1 + (1 # 18014398509481984)))%Q) by nra.
      assert (H2 : (X * (1 # 18014398509481984) <= 1 # 16)%Q) by nra.
      nra. }
    rewrite <- Zlt_Qlt in Hsum. lia.
Qed.

(** Outside that range the bound can fail or the lengths not exist: a count
    past [2 ^ 53] is rounded when it becomes a float, and a NaN fraction
    makes [math.floor] raise. *)
Example split_lengths_outside_range :
  split_lengths (2 ^ 53 + 3) (S754_finite false 4503599627370496 (-52))
    = Ok (2 ^ 53 + 4, 0) /\
  split_lengths 10 S754_nan
    = Raised (ValueError "cannot convert float NaN to integer").
Proof. by vm_compute. Qed.

(** ** Dataset Splitter *)

(** The literal [0.8] is what correctly rounded division gives for 8/10,
    and it lies within half a unit in the last place of 8/10. *)
Lemma lit_0_8_rounds_8_over_10 :
  SFdiv prec emax (binary_normalize prec emax 8 0 false)
                  (binary_normalize prec emax 10 0 false) = lit_0_8 /\
  Z.abs (10 * 7205759403792794 - 8 * 2 ^ 53) <= 5.
Proof. split; [reflexivity | by vm_compute]. Qed.

(** In binary64, [1 - 0.8] is 0x1.9999999999998p-3, just below 2/10, and
    ten times it is 1.9999999999999996, just below 2. *)
Lemma ten_times_one_minus_0_8 :
  int_sub_float 1 lit_0_8 = Ok (S754_finite false 7205759403792792 (-55)) /\
  int_mul_float 10 (S754_finite false 7205759403792792 (-55))
    = Ok (S754_finite false 9007199254740990 (-52)) /\
  math_floor (S754_finite false 9007199254740990 (-52)) = Ok 1.
Proof. by vm_compute. Qed.

Lemma take_length (size : Z) (v out : list Sample) :
  fo.take size v out -> length out = Nat.min (Z.to_nat size) (length v).
Proof.
  intros [Hsize | p Hsize Hperm].
  - replace (Z.to_nat size) with 0%nat by lia. done.
  - rewrite length_firstn. by rewrite (Permutation_length Hperm).
Qed.

Lemma take_subset (size : Z) (v out : list Sample) (x : Sample) :
  fo.take size v out -> x ∈ out -> x ∈ v.
Proof.
  intros [Hsize | p Hsize Hperm] Hx.
  - by apply elem_of_nil in Hx.
  - rewrite <- Hperm. by apply (subseteq_take (Z.to_nat size) p).
Qed.

(** A run that ends well loaded the dataset, drew the two partitions with
    [take], and exported validation first and training second. *)
Lemma export_Ok (shuffle : Z -> list Sample -> list Sample)
    (dataset_name : string) (filepaths : gmap string string)
    (label_field : string) (training_percentage : spec_float) (w w' : World) :
  export_voxel51_dataset_to_tfrecords shuffle dataset_name filepaths
    label_field training_percentage w (Ok ()) w' ->
  exists dataset train_len val_len val_view train_view val_dir train_dir,
    datasets w !! dataset_name = Some dataset /\
    split_lengths (fo.len (shuffle 51 (fo.match_tags "training" dataset)))
      training_percentage = Ok (train_len, val_len) /\
    fo.take val_len (shuffle 51 (fo.match_tags "training" dataset)) val_view /\
    fo.take train_len
      (fo.skip val_len (shuffle 51 (fo.match_tags "training" dataset)))
      train_view /\
    filepaths !! "val_export_dir" = Some val_dir /\
    filepaths !! "train_export_dir" = Some train_dir /\
    w' = emit (EvExport train_dir label_field train_view)
           (emit (EvExport val_dir label_field val_view)
              (emit (EvLoadDataset dataset_name) w)).
Proof.
  inversion 1 as [| | | | | |dataset w1 train_len val_len val_view train_view
                       val_dir train_dir view Hload Hlen Hval Htrain Hvd Hve
                       Htd Hte];
    subst.
  unfold fo.load_dataset in Hload. simpl in Hload.
  destruct (datasets w !! dataset_name) as [ds|] eqn:Hds; [|done].
  injection Hload as -> <-.
  by exists dataset, train_len, val_len, val_view, train_view, val_dir, train_dir.
Qed.

Lemma exports_of_emit (ev : event) (w : World) :
  exports_of (emit ev w)
  = exports_of w ++ match ev with
                    | EvExport export_dir _ samples => [(export_dir, samples)]
                    | _ => []
                    end.
Proof.
  unfold exports_of, emit. simpl. rewrite flat_map_app. simpl.
  by rewrite app_nil_r.
Qed.

(** X24.  What every run that ends well does, for a fraction in [0, 1] and
    a view of fewer than [2 ^ 49] samples: the validation export holds
    [val_len] samples of the view, the training export [train_len] samples
    of the view past its first [val_len], with the lengths of lines
    121-123, which together do not exceed the size of the view. *)
Lemma export_partition_sizes (shuffle : Z -> list Sample -> list Sample)
    (dataset_name : string) (filepaths : gmap string string)
    (label_field : string) (training_percentage : spec_float) (w w' : World) :
  is_fraction training_percentage = true ->
  export_voxel51_dataset_to_tfrecords shuffle dataset_name filepaths
    label_field training_percentage w (Ok ()) w' ->
  exists dataset train_len val_len val_view train_view val_dir train_dir,
    datasets w !! dataset_name = Some dataset /\
    let view := shuffle 51 (fo.match_tags "training" dataset) in
    split_lengths (fo.len view) training_percentage = Ok (train_len, val_len) /\
    exports_of w' = exports_of w ++ [(val_dir, val_view); (train_dir, train_view)] /\
    (forall x, x ∈ val_view -> x ∈ view) /\
    (forall x, x ∈ train_view -> x ∈ fo.skip val_len view) /\
    (fo.len view < 2 ^ 49 ->
     fo.len val_view = val_len /\ fo.len train_view = train_len /\
     val_len + train_len <= fo.len view).
Proof.
  intros Hf Hrun.
  destruct (export_Ok _ _ _ _ _ _ _ Hrun)
    as (dataset & train_len & val_len & val_view & train_view & val_dir
        & train_dir & Hds & Hlen & Hval & Htrain & _ & _ & ->).
  exists dataset, train_len, val_len, val_view, train_view, val_dir, train_dir.
  split; [done|]. cbv zeta. split; [done|]. split.
  { rewrite !exports_of_emit. simpl. rewrite app_nil_r, <- app_assoc. done. }
  split; [intros x; by apply (take_subset val_len)|].
  split; [intros x; by apply (take_subset train_len)|].
  intros Hsmall.
  set (view := shuffle 51 (fo.match_tags "training" dataset)) in *.
  destruct (split_lengths_sum (fo.len view) training_percentage
              ltac:(unfold fo.len in *; lia) Hf)
    as (t & v & Hlen' & Ht & Hv & Hsum).
  rewrite Hlen in Hlen'. injection Hlen' as <- <-.
  pose proof (take_length _ _ _ Hval) as Hlv.
  pose proof (take_length _ _ _ Htrain) as Hlt.
  unfold fo.skip in Hlt. rewrite length_drop in Hlt.
  unfold fo.len in *. lia.
Qed.

(** The split by position does keep the two partitions apart. *)
Lemma head_split_disjoint (view : list Sample) (train_len val_len : Z)
    (x : Sample) :
  NoDup view ->
  x ∈ (head_split view train_len val_len).1 ->
  x ∉ (head_split view train_len val_len).2.
Proof.
  unfold head_split, fo.limit, fo.skip. simpl. intros Hnd Hval Htrain.
  rewrite <- (take_drop (Z.to_nat val_len) view) in Hnd.
  apply NoDup_app in Hnd as (_ & Hdisj & _).
  apply (Hdisj x Hval). by eapply subseteq_take.
Qed.

Lemma sample_a_neq_b : sample_a <> sample_b.
Proof. intros H. apply (f_equal filepath) in H. discriminate H. Qed.

(** Whatever the seeded shuffle does to the two samples of the dataset
    [pair], the view is the two of them in one order or the other. *)
Lemma pair_view (shuffle : Z -> list Sample -> list Sample) :
  (forall seed v, Permutation (shuffle seed v) v) ->
  exists x y, shuffle 51 [sample_a; sample_b] = [x; y] /\ x <> y.
Proof.
  intros Hperm.
  destruct (Permutation_length_2_inv
              (Permutation_sym (Hperm 51 [sample_a; sample_b]))) as [-> | ->].
  - exists sample_a, sample_b. split; [done | apply sample_a_neq_b].
  - exists sample_b, sample_a. split; [done|].
    intros H. by apply sample_a_neq_b.
Qed.

(** One run on the dataset [pair] with fraction 0.5, for given draws. *)
Lemma pair_run (shuffle : Z -> list Sample -> list Sample) (w : World)
    (x y : Sample) (val_view train_view : list Sample) :
  datasets w = datasets pair_store ->
  shuffle 51 [sample_a; sample_b] = [x; y] ->
  fo.take 1 [x; y] val_view ->
  fo.take 1 [y] train_view ->
  export_voxel51_dataset_to_tfrecords shuffle "pair" example_filepaths
    "detections" lit_0_5 w (Ok ())
    (emit (EvExport "/tf/dataset-export/run1/train/" "detections" train_view)
       (emit (EvExport "/tf/dataset-export/run1/val/" "detections" val_view)
          (emit (EvLoadDataset "pair") w))).
Proof.
  intros Hds Hview Hval Htrain.
  eapply (export_done shuffle "pair" example_filepaths "detections" lit_0_5 w
            [sample_a; sample_b] _ 1 1 val_view train_view).
  - unfold fo.load_dataset. simpl. rewrite Hds. reflexivity.
  - change (fo.match_tags "training" [sample_a; sample_b])
      with [sample_a; sample_b].
    rewrite Hview. reflexivity.
  - change (fo.match_tags "training" [sample_a; sample_b])
      with [sample_a; sample_b].
    by rewrite Hview.
  - change (fo.match_tags "training" [sample_a; sample_b])
      with [sample_a; sample_b].
    by rewrite Hview.
  - reflexivity.
  - destruct val_view; [done|]. simpl. apply bool_decide_eq_true_2.
    vm_compute. set_solver.
  - reflexivity.
  - destruct train_view; [done|]. simpl. apply bool_decide_eq_true_2.
    vm_compute. set_solver.
Qed.

Lemma take_one_first (x : Sample) (rest : list Sample) :
  fo.take 1 (x :: rest) [x].
Proof.
  exact (fo.take_sample 1 (x :: rest) (x :: rest) ltac:(lia)
           (Permutation_refl _)).
Qed.

Lemma take_one_second (x y : Sample) : fo.take 1 [x; y] [y].
Proof.
  exact (fo.take_sample 1 [x; y] [y; x] ltac:(lia) (perm_swap _ _ _)).
Qed.

(** C1, the code at a failing input.  The dataset has two samples tagged
    for training and the fraction is 0.5, so both lengths are 1.  Whatever
    order the seeded shuffle gives the view, there is a run in which the
    unseeded [take] draws for validation the sample that is second in the
    view, and the training partition, drawn from the view after its first
    sample, is that same sample: the partitions are not disjoint, and
    validation is not the first [val_len] samples of the view.  The split by
    position keeps the two samples apart. *)
Theorem export_partitions_overlap (shuffle : Z -> list Sample -> list Sample) :
  (forall seed v, Permutation (shuffle seed v) v) ->
  let view := shuffle 51 (fo.match_tags "training" [sample_a; sample_b]) in
  split_lengths (fo.len view) lit_0_5 = Ok (1, 1) /\
  exists s w',
    export_voxel51_dataset_to_tfrecords shuffle "pair" example_filepaths
      "detections" lit_0_5 pair_store (Ok ()) w' /\
    exports_of w' = [ ("/tf/dataset-export/run1/val/", [s]);
                      ("/tf/dataset-export/run1/train/", [s]) ] /\
    (head_split view 1 1).1 <> [s] /\
    (forall x, x ∈ (head_split view 1 1).1 -> x ∉ (head_split view 1 1).2).
Proof.
  intros Hperm.
  change (fo.match_tags "training" [sample_a; sample_b])
    with [sample_a; sample_b].
  destruct (pair_view shuffle Hperm) as (x & y & Hview & Hxy).
  cbv zeta. rewrite Hview. split; [reflexivity|].
  exists y. eexists. split; [|split; [|split]].
  - eapply (pair_run shuffle pair_store x y [y] [y]); [done|done| |].
    + apply take_one_second.
    + apply take_one_first.
  - reflexivity.
  - simpl. intros [= H]. done.
  - simpl. intros z ->%list_elem_of_singleton Hz%list_elem_of_singleton. done.
Qed.

Lemma example_shuffle_permutes (seed : Z) (v : list Sample) :
  Permutation (example_shuffle seed v) v.
Proof. symmetry. apply Permutation_rev. Qed.

Lemma export_partitions_overlap_witness :
  (forall seed v, Permutation (example_shuffle seed v) v) /\
  let view := example_shuffle 51
                (fo.match_tags "training" [sample_a; sample_b]) in
  split_lengths (fo.len view) lit_0_5 = Ok (1, 1) /\
  exists s w',
    export_voxel51_dataset_to_tfrecords example_shuffle "pair" example_filepaths
      "detections" lit_0_5 pair_store (Ok ()) w' /\
    exports_of w' = [ ("/tf/dataset-export/run1/val/", [s]);
                      ("/tf/dataset-export/run1/train/", [s]) ] /\
    (head_split view 1 1).1 <> [s] /\
    (forall x, x ∈ (head_split view 1 1).1 -> x ∉ (head_split view 1 1).2).
Proof.
  split; [exact example_shuffle_permutes|].
  exact (export_partitions_overlap example_shuffle example_shuffle_permutes).
Defined.

(** C9, the code at a failing input.  Two successive runs with the same
    arguments, the second in the world the first left, the dataset
    unchanged: whatever order the seeded shuffle gives the view, the first
    run can export one sample for validation and the second run the other.
    The seed fixes the shuffle, not the draws of [take]. *)
Theorem export_two_runs_differ (shuffle : Z -> list Sample -> list Sample) :
  (forall seed v, Permutation (shuffle seed v) v) ->
  exists w1 w2 s1 s2 t1 t2,
    export_voxel51_dataset_to_tfrecords shuffle "pair" example_filepaths
      "detections" lit_0_5 pair_store (Ok ()) w1 /\
    export_voxel51_dataset_to_tfrecords shuffle "pair" example_filepaths
      "detections" lit_0_5 w1 (Ok ()) w2 /\
    datasets w1 = datasets pair_store /\
    datasets w2 = datasets pair_store /\
    exports_of w1 = [ ("/tf/dataset-export/run1/val/", [s1]);
                      ("/tf/dataset-export/run1/train/", [t1]) ] /\
    exports_of w2 = exports_of w1 ++
                    [ ("/tf/dataset-export/run1/val/", [s2]);
                      ("/tf/dataset-export/run1/train/", [t2]) ] /\
    s1 <> s2.
Proof.
  intros Hperm.
  destruct (pair_view shuffle Hperm) as (x & y & Hview & Hxy).
  eexists _, _, x, y, y, y. split; [|split].
  - eapply (pair_run shuffle pair_store x y [x] [y]); [done|done| |].
    + apply take_one_first.
    + apply take_one_first.
  - eapply (pair_run shuffle _ x y [y] [y]); [done|done| |].
    + apply take_one_second.
    + apply take_one_first.
  - repeat split; try reflexivity. done.
Qed.

Lemma export_two_runs_differ_witness :
  (forall seed v, Permutation (example_shuffle seed v) v) /\
  exists w1 w2 s1 s2 t1 t2,
    export_voxel51_dataset_to_tfrecords example_shuffle "pair" example_filepaths
      "detections" lit_0_5 pair_store (Ok ()) w1 /\
    export_voxel51_dataset_to_tfrecords example_shuffle "pair" example_filepaths
      "detections" lit_0_5 w1 (Ok ()) w2 /\
    datasets w1 = datasets pair_store /\
    datasets w2 = datasets pair_store /\
    exports_of w1 = [ ("/tf/dataset-export/run1/val/", [s1]);
                      ("/tf/dataset-export/run1/train/", [t1]) ] /\
    exports_of w2 = exports_of w1 ++
                    [ ("/tf/dataset-export/run1/val/", [s2]);
                      ("/tf/dataset-export/run1/train/", [t2]) ] /\
    s1 <> s2.
Proof.
  split; [exact example_shuffle_permutes|].
  exact (export_two_runs_differ example_shuffle example_shuffle_permutes).
Defined.

(** ** Path Builder: errors, keys and layout *)

Lemma string_rev_append (a b : string) :
  string_rev (a +:+ b) = string_rev b +:+ string_rev a.
Proof.
  induction a as [|c a IH]; simpl.
  - by rewrite append_nil_r.
  - by rewrite IH, append_assoc.
Qed.

Lemma string_rev_involutive (s : string) : string_rev (string_rev s) = s.
Proof.
  induction s as [|c s IH]; simpl; [done|].
  rewrite string_rev_append. simpl. by rewrite IH.
Qed.

Lemma append_inv_tail (a b s : string) : a +:+ s = b +:+ s -> a = b.
Proof.
  intros H. apply (f_equal string_rev) in H.
  rewrite !string_rev_append in H. apply append_inv_head in H.
  apply (f_equal string_rev) in H. by rewrite !string_rev_involutive in H.
Qed.

Lemma first_missing_entry_None (m : gmap string string) :
  first_missing_entry m = None ->
  exists bpf mn pc,
    m !! "base_pipeline_file" = Some bpf /\ m !! "model_name" = Some mn /\
    m !! "pretrained_checkpoint" = Some pc.
Proof.
  unfold first_missing_entry.
  destruct (m !! "base_pipeline_file") as [bpf|]; [|done].
  destruct (m !! "model_name") as [mn|]; [|done].
  destruct (m !! "pretrained_checkpoint") as [pc|]; [|done].
  intros _. by exists bpf, mn, pc.
Qed.

(** A dict that [set_filenames] returns is [filepaths_of] of the training
    name and the three entries of the chosen model. *)
Lemma set_filenames_Ok (base_models : gmap string (gmap string string))
    (training_name chosen_model : string) (filepaths : gmap string string) :
  set_filenames base_models training_name chosen_model = Ok filepaths ->
  exists m bpf mn pc,
    base_models !! chosen_model = Some m /\
    m !! "base_pipeline_file" = Some bpf /\
    m !! "model_name" = Some mn /\
    m !! "pretrained_checkpoint" = Some pc /\
    filepaths = filepaths_of training_name bpf mn pc.
Proof.
  unfold set_filenames, getitem.
  destruct (base_models !! chosen_model) as [m|] eqn:Hm; [|done]. simpl.
  destruct (m !! "base_pipeline_file") as [bpf|] eqn:Hb; [|done]. simpl.
  destruct (m !! "model_name") as [mn|] eqn:Hn; [|done]. simpl.
  destruct (m !! "pretrained_checkpoint") as [pc|] eqn:Hp; [|done]. simpl.
  intros [= <-]. by exists m, bpf, mn, pc.
Qed.

Lemma filepaths_of_dom (training_name bpf mn pc : string) :
  dom (filepaths_of training_name bpf mn pc) = filepaths_keys.
Proof.
  unfold filepaths_of, filepaths_keys, scoped_keys, base_model_keys.
  rewrite !dom_insert_L, dom_empty_L. simpl. set_solver.
Qed.

(** X1.  What [set_filenames] does for a model that is a key of
    [base_models]: it reads the entries base_pipeline_file, model_name and
    pretrained_checkpoint of the model in that order and raises [KeyError]
    for the first one that is missing; when none is missing it returns a
    dict with exactly the eleven keys, whatever else the base models hold.
    It never leaves the process. *)
Theorem set_filenames_outcomes
    (base_models : gmap string (gmap string string))
    (training_name chosen_model : string) (m : gmap string string) :
  base_models !! chosen_model = Some m ->
  match first_missing_entry m with
  | Some key =>
      set_filenames base_models training_name chosen_model = Raised (KeyError key)
  | None =>
      exists filepaths,
        set_filenames base_models training_name chosen_model = Ok filepaths /\
        dom filepaths = filepaths_keys /\ size filepaths = 11%nat
  end.
Proof.
  intros Hm. unfold first_missing_entry.
  destruct (m !! "base_pipeline_file") as [bpf|] eqn:Hb.
  2: { unfold set_filenames, getitem. rewrite Hm. simpl. by rewrite Hb. }
  destruct (m !! "model_name") as [mn|] eqn:Hn.
  2: { unfold set_filenames, getitem. rewrite Hm. simpl. rewrite Hb. simpl.
       by rewrite Hn. }
  destruct (m !! "pretrained_checkpoint") as [pc|] eqn:Hp.
  2: { unfold set_filenames, getitem. rewrite Hm. simpl. rewrite Hb. simpl.
       rewrite Hn. simpl. by rewrite Hp. }
  exists (filepaths_of training_name bpf mn pc).
  split; [by eapply set_filenames_value|].
  split; [apply filepaths_of_dom|].
  rewrite <- size_dom, filepaths_of_dom. by vm_compute.
Qed.

Lemma set_filenames_outcomes_witness :
  set_filenames {[ "ssd" := {[ "base_pipeline_file" := "ssd.config" ]} ]}
    "run1" "ssd" = Raised (KeyError "model_name") /\
  exists filepaths,
    set_filenames example_base_models "run1" "ssd" = Ok filepaths /\
    dom filepaths = filepaths_keys /\ size filepaths = 11%nat.
Proof.
  split.
  - exact (set_filenames_outcomes
             {[ "ssd" := {[ "base_pipeline_file" := "ssd.config" ]} ]}
             "run1" "ssd" {[ "base_pipeline_file" := "ssd.config" ]}
             eq_refl).
  - exact (set_filenames_outcomes example_base_models "run1" "ssd"
             {[ "base_pipeline_file" := "ssd.config"; "model_name" := "ssd";
                "pretrained_checkpoint" := "ssd.config" ]}
             eq_refl).
Defined.

(** A scoped path read from its end: the suffix of its key reversed, then
    the training name reversed. *)
Lemma scoped_path_rev (training_name k : string) :
  string_rev ((scoped_shape k).1 +:+ training_name +:+ (scoped_shape k).2)
  = string_rev (scoped_shape k).2 +:+ string_rev training_name
    +:+ string_rev (scoped_shape k).1.
Proof. by rewrite !string_rev_append, append_assoc. Qed.

(** X2.  Two calls of [set_filenames] never give the same string for two
    training-scoped entries unless it is the same entry of the same
    training name: trainings with different names share no record file,
    export directory, label-map file or model directory, whatever the base
    models are. *)
Theorem set_filenames_names_apart
    (base_models1 base_models2 : gmap string (gmap string string))
    (training_name1 training_name2 chosen_model1 chosen_model2 : string)
    (filepaths1 filepaths2 : gmap string string) (k1 k2 path : string) :
  set_filenames base_models1 training_name1 chosen_model1 = Ok filepaths1 ->
  set_filenames base_models2 training_name2 chosen_model2 = Ok filepaths2 ->
  k1 ∈ scoped_keys -> k2 ∈ scoped_keys ->
  filepaths1 !! k1 = Some path -> filepaths2 !! k2 = Some path ->
  k1 = k2 /\ training_name1 = training_name2.
Proof.
  intros (m1 & b1 & n1 & p1 & _ & _ & _ & _ & ->)%set_filenames_Ok
         (m2 & b2 & n2 & p2 & _ & _ & _ & _ & ->)%set_filenames_Ok Hk1 Hk2.
  rewrite !scoped_lookup by done. intros [= <-] [= Heq].
  unfold scoped_keys in Hk1, Hk2. rewrite !elem_of_cons, !elem_of_nil in Hk1, Hk2.
  repeat destruct Hk1 as [->|Hk1]; try done;
  repeat destruct Hk2 as [->|Hk2]; try done;
  cbn [scoped_shape String.eqb Ascii.eqb Bool.eqb fst snd] in Heq;
  try discriminate Heq;
  try (apply (append_inv_head "/tf/dataset-export/") in Heq);
  try (apply (append_inv_head "/tf/model-export/") in Heq);
  try (apply (append_inv_head "/tf/training/") in Heq);
  try (split; [done|]; symmetry; by eapply append_inv_tail);
  apply (f_equal string_rev) in Heq; rewrite !string_rev_append in Heq;
  discriminate Heq.
Qed.

Lemma set_filenames_names_apart_witness :
  set_filenames example_base_models "run1" "ssd"
    = Ok (filepaths_of "run1" "ssd.config" "ssd" "ssd.config") /\
  filepaths_of "run1" "ssd.config" "ssd" "ssd.config" !! "val_export_dir"
    = Some "/tf/dataset-export/run1/val/" /\
  "val_export_dir" = "val_export_dir" /\ "run1" = "run1".
Proof.
  assert (Hset : set_filenames example_base_models "run1" "ssd"
                 = Ok (filepaths_of "run1" "ssd.config" "ssd" "ssd.config"))
    by reflexivity.
  assert (Hpath : filepaths_of "run1" "ssd.config" "ssd" "ssd.config"
                    !! "val_export_dir"
                  = Some "/tf/dataset-export/run1/val/") by reflexivity.
  assert (Hk : "val_export_dir" ∈ scoped_keys)
    by (unfold scoped_keys; set_solver).
  split; [exact Hset|]. split; [exact Hpath|].
  exact (set_filenames_names_apart example_base_models example_base_models
           "run1" "run1" "ssd" "ssd" _ _ "val_export_dir" "val_export_dir" _
           Hset Hset Hk Hk Hpath Hpath).
Defined.

(** X3.  The layout of a dict that [set_filenames] returns: the two record
    files are the files tf.records of the two export directories, these
    and the label-map file lie in one directory /tf/dataset-export/<name>/,
    and the pipeline file lies under /tf/models/research/deploy/ with the
    name the entry base_pipeline_file holds. *)
Theorem set_filenames_layout
    (base_models : gmap string (gmap string string))
    (training_name chosen_model : string) (filepaths : gmap string string) :
  set_filenames base_models training_name chosen_model = Ok filepaths ->
  let root := "/tf/dataset-export/" +:+ training_name +:+ "/" in
  exists base_pipeline_file,
    filepaths !! "val_export_dir" = Some (root +:+ "val/") /\
    filepaths !! "train_export_dir" = Some (root +:+ "train/") /\
    filepaths !! "val_record_file" = Some ((root +:+ "val/") +:+ "tf.records") /\
    filepaths !! "train_record_file" = Some ((root +:+ "train/") +:+ "tf.records") /\
    filepaths !! "label_map_file" = Some (root +:+ "label_map.pbtxt") /\
    filepaths !! "base_pipeline_file" = Some base_pipeline_file /\
    filepaths !! "pipeline_file"
      = Some ("/tf/models/research/deploy/" +:+ base_pipeline_file).
Proof.
  intros (m & bpf & mn & pc & _ & _ & _ & _ & ->)%set_filenames_Ok.
  cbv zeta. exists bpf.
  rewrite !append_assoc. simpl. unfold filepaths_of.
  repeat split; by simplify_map_eq.
Qed.

Lemma set_filenames_layout_witness :
  let root := "/tf/dataset-export/" +:+ "run1" +:+ "/" in
  exists base_pipeline_file,
    example_filepaths !! "val_export_dir" = Some (root +:+ "val/") /\
    example_filepaths !! "train_export_dir" = Some (root +:+ "train/") /\
    example_filepaths !! "val_record_file"
      = Some ((root +:+ "val/") +:+ "tf.records") /\
    example_filepaths !! "train_record_file"
      = Some ((root +:+ "train/") +:+ "tf.records") /\
    example_filepaths !! "label_map_file" = Some (root +:+ "label_map.pbtxt") /\
    example_filepaths !! "base_pipeline_file" = Some base_pipeline_file /\
    example_filepaths !! "pipeline_file"
      = Some ("/tf/models/research/deploy/" +:+ base_pipeline_file).
Proof.
  exact (set_filenames_layout
           {[ "ssd" := {[ "base_pipeline_file" := "ssd.config";
                          "model_name" := "ssd";
                          "pretrained_checkpoint" := "ssd.tar.gz" ]} ]}
           "run1" "ssd" example_filepaths eq_refl).
Defined.

(** ** Training Driver: outcomes and effects *)

Lemma load_base_models_json_world
    (json_load : string -> option (gmap string (gmap string string)))
    (filename : string) (w : World) :
  (load_base_models_json json_load filename w).2 = emit (EvOpenRead filename) w.
Proof.
  unfold load_base_models_json, read_file. simpl.
  destruct (files w !! filename) as [text|]; [|done].
  by destruct (json_load text).
Qed.

Lemma set_filenames_not_Exited (base_models : gmap string (gmap string string))
    (training_name chosen_model : string) (status : Z) :
  set_filenames base_models training_name chosen_model <> Exited status.
Proof.
  unfold set_filenames, getitem.
  destruct (base_models !! chosen_model) as [m|]; [|done]. simpl.
  destruct (m !! "base_pipeline_file"); [|done]. simpl.
  destruct (m !! "model_name"); [|done]. simpl.
  by destruct (m !! "pretrained_checkpoint").
Qed.

(** The driver, by cases on the directory test. *)
Lemma train_detection_model_fresh
    (json_load : string -> option (gmap string (gmap string string)))
    (training_name chosen_model : string) (w : World) :
  export_root training_name ∉ dirs w ->
  train_detection_model json_load training_name chosen_model w
  = (match files w !! "base_models.json" with
     | Some text =>
         match json_load text with
         | Some base_models =>
             _ ← set_filenames base_models training_name chosen_model; Ok ()
         | None => Raised JSONDecodeError
         end
     | None => Raised (FileNotFoundError "base_models.json")
     end,
     emit (EvOpenRead "base_models.json")
       (emit (EvIsDir (export_root training_name)) w)).
Proof.
  intros Hdir. unfold train_detection_model, isdir, export_root in *.
  rewrite bool_decide_eq_false_2 by done.
  unfold load_base_models_json, read_file. simpl.
  destruct (files w !! "base_models.json") as [text|]; [|done].
  by destruct (json_load text).
Qed.

Lemma train_detection_model_taken
    (json_load : string -> option (gmap string (gmap string string)))
    (training_name chosen_model : string) (w : World) :
  export_root training_name ∈ dirs w ->
  train_detection_model json_load training_name chosen_model w
  = (Exited 1,
     emit (EvLogError "Must use unique model name.")
       (emit (EvIsDir (export_root training_name)) w)).
Proof.
  intros Hdir. unfold train_detection_model, isdir, export_root in *.
  by rewrite bool_decide_eq_true_2.
Qed.

(** X4.  [train_detection_model] creates nothing: whatever its outcome,
    the directories, the files and the datasets are as they were, and the
    trace has only grown.  So a run does not mark its training name as
    used: run again in the world it left, with the same arguments, it has
    the same outcome; in particular a run that returned returns again. *)
Theorem train_detection_model_creates_nothing
    (json_load : string -> option (gmap string (gmap string string)))
    (training_name chosen_model : string) (w : World) :
  let r1 := train_detection_model json_load training_name chosen_model w in
  let r2 := train_detection_model json_load training_name chosen_model r1.2 in
  dirs r1.2 = dirs w /\ files r1.2 = files w /\ datasets r1.2 = datasets w /\
  (exists evs, trace r1.2 = trace w ++ evs) /\
  r2.1 = r1.1.
Proof.
  cbv zeta.
  destruct (decide (export_root training_name ∈ dirs w)) as [Hdir|Hdir].
  - rewrite (train_detection_model_taken _ _ _ w Hdir). simpl.
    rewrite train_detection_model_taken by done.
    repeat split; try done. eexists. by rewrite <- app_assoc.
  - rewrite (train_detection_model_fresh _ _ _ w Hdir). simpl.
    rewrite train_detection_model_fresh by done.
    repeat split; try done. eexists. by rewrite <- app_assoc.
Qed.

(** X5.  The outcomes of [train_detection_model].  It leaves the process,
    with status 1, exactly when the directory it tests exists.  Past that
    test it raises [FileNotFoundError] when the working directory has no
    file base_models.json; and when that file is read as a dict, it
    returns exactly when the dict has the chosen model with its three
    entries. *)
Theorem train_detection_model_returns_iff
    (json_load : string -> option (gmap string (gmap string string)))
    (training_name chosen_model : string) (w : World) :
  let r := train_detection_model json_load training_name chosen_model w in
  (forall status, r.1 = Exited status <->
     (status = 1 /\ export_root training_name ∈ dirs w)) /\
  (export_root training_name ∉ dirs w ->
   files w !! "base_models.json" = None ->
   r.1 = Raised (FileNotFoundError "base_models.json")) /\
  (forall text base_models,
     files w !! "base_models.json" = Some text ->
     json_load text = Some base_models ->
     (r.1 = Ok () <->
      ((export_root training_name ∉ dirs w) /\
       exists m, base_models !! chosen_model = Some m /\
                 first_missing_entry m = None))).
Proof.
  cbv zeta.
  destruct (decide (export_root training_name ∈ dirs w)) as [Hdir|Hdir].
  { rewrite train_detection_model_taken by done. simpl. split; [|split].
    - intros status. split; [by intros [= <-]|]. by intros [-> _].
    - done.
    - intros text base_models _ _. split; [done|]. by intros [? _]. }
  rewrite train_detection_model_fresh by done. simpl. split; [|split].
  - intros status. split; [|by intros [_ ?]].
    destruct (files w !! "base_models.json") as [text|]; [|done].
    destruct (json_load text) as [base_models|]; [|done].
    pose proof (set_filenames_not_Exited base_models training_name chosen_model)
      as Hne.
    destruct (set_filenames base_models training_name chosen_model); try done.
    intros [= <-]. by destruct (Hne status0).
  - by intros _ ->.
  - intros text base_models -> ->. split.
    + intros Hrun. split; [done|].
      destruct (set_filenames base_models training_name chosen_model)
        as [filepaths| |] eqn:Hset; [|done..].
      apply set_filenames_Ok in Hset as (m & bpf & mn & pc & Hm & Hb & Hn & Hp & _).
      exists m. split; [done|].
      unfold first_missing_entry. by rewrite Hb, Hn, Hp.
    + intros (_ & m & Hm & Hnone).
      apply first_missing_entry_None in Hnone as (bpf & mn & pc & Hb & Hn & Hp).
      by rewrite (set_filenames_value _ _ _ _ _ _ _ Hm Hb Hn Hp).
Qed.

(** C7, the code at a failing input.  The per-run export root of a
    training is /tf/dataset-export/<training_name>: under it
    [set_filenames] places the exports, the records and the label map of
    that training.  The directory the driver tests is another one,
    /tf/ml-model/dataset-export/<training_name>.  So with the export root
    of the name present and the tested directory absent, the driver logs
    no error and does not leave the process: it goes on to read
    base_models.json and, for a chosen model with its three entries,
    returns; the used name is not refused. *)
Theorem train_detection_model_accepts_used_name
    (json_load : string -> option (gmap string (gmap string string)))
    (base_models : gmap string (gmap string string))
    (training_name chosen_model text : string)
    (filepaths : gmap string string) (w : World) :
  "/tf/dataset-export/" +:+ training_name ∈ dirs w ->
  export_root training_name ∉ dirs w ->
  files w !! "base_models.json" = Some text ->
  json_load text = Some base_models ->
  set_filenames base_models training_name chosen_model = Ok filepaths ->
  let used := "/tf/dataset-export/" +:+ training_name in
  let r := train_detection_model json_load training_name chosen_model w in
  filepaths !! "val_export_dir" = Some (used +:+ "/val/") /\
  filepaths !! "train_export_dir" = Some (used +:+ "/train/") /\
  filepaths !! "label_map_file" = Some (used +:+ "/label_map.pbtxt") /\
  export_root training_name <> used /\
  r.1 = Ok () /\
  trace r.2 = trace w ++ [EvIsDir (export_root training_name);
                          EvOpenRead "base_models.json"] /\
  (used ∈ dirs r.2).
Proof.
  intros Hused Hdir Hfile Hjson Hset. cbv zeta.
  rewrite train_detection_model_fresh by done. rewrite Hfile, Hjson, Hset.
  apply set_filenames_Ok in Hset as (m & bpf & mn & pc & _ & _ & _ & _ & ->).
  rewrite !scoped_lookup by (unfold scoped_keys; set_solver).
  cbn [scoped_shape String.eqb Ascii.eqb Bool.eqb fst snd].
  rewrite !append_assoc. simpl.
  split; [done|]. split; [done|]. split; [done|].
  split; [discriminate|]. split; [done|]. split; [|done].
  by rewrite <- app_assoc.
Qed.

Lemma train_detection_model_accepts_used_name_witness :
  ("/tf/dataset-export/" +:+ "run1" ∈ dirs exported_world) /\
  (export_root "run1" ∉ dirs exported_world) /\
  (train_detection_model (fun _ => Some example_base_models) "run1" "ssd"
     exported_world).1 = Ok ().
Proof.
  assert (Hused : "/tf/dataset-export/" +:+ "run1" ∈ dirs exported_world).
  { simpl. by apply elem_of_singleton. }
  assert (Hdir : export_root "run1" ∉ dirs exported_world).
  { simpl. by intros ?%elem_of_singleton. }
  assert (Hset : set_filenames example_base_models "run1" "ssd"
                 = Ok (filepaths_of "run1" "ssd.config" "ssd" "ssd.config"))
    by reflexivity.
  split; [exact Hused|]. split; [exact Hdir|].
  exact (proj1 (proj2 (proj2 (proj2 (proj2
           (train_detection_model_accepts_used_name
              (fun _ => Some example_base_models) example_base_models
              "run1" "ssd" "{}" _ exported_world Hused Hdir eq_refl eq_refl
              Hset)))))).
Defined.

(** ** Label Mapping Builder: growing and reordering the view *)

(** A pass of [add_label] keeps what it started from and appends the
    labels that are new, each once. *)
Lemma scan_extends (labels acc : list string) :
  exists new,
    fold_left add_label labels acc = acc ++ new /\
    (forall x, x ∈ new <-> (x ∈ labels /\ x ∉ acc)).
Proof.
  revert acc. induction labels as [|l labels IH]; intros acc; simpl.
  { exists []. rewrite app_nil_r. split; [done|].
    intros x. rewrite elem_of_nil. tauto. }
  destruct (decide (l ∈ acc)) as [Hl|Hl].
  - rewrite add_label_same by done.
    destruct (IH acc) as (new & -> & Hnew). exists new. split; [done|].
    intros x. rewrite Hnew, elem_of_cons. split; [tauto|].
    intros [[->|?] ?]; [done|tauto].
  - rewrite add_label_snoc by done.
    destruct (IH (acc ++ [l])) as (new & -> & Hnew). exists (l :: new).
    split; [by rewrite <- app_assoc|].
    intros x. rewrite !elem_of_cons, Hnew, elem_of_app, list_elem_of_singleton.
    destruct (decide (x = l)) as [->|Hne]; [tauto|]. tauto.
Qed.

Lemma scanned_labels_app (view more : list Sample) (label_field : string) :
  scanned_labels (view ++ more) label_field
  = scanned_labels view label_field ++ scanned_labels more label_field.
Proof. unfold scanned_labels. apply flat_map_app. Qed.

(** X7.  Samples added at the end of a view leave the class names found so
    far where they are: on a dataset that has the label field, the list
    for the longer view is the list for the shorter one followed by the
    labels that are new, each once, so the label map gives every class of
    the shorter view the ID it had. *)
Theorem class_names_extend (dataset view more : list Sample)
    (label_field : string) :
  label_field ∈ fo.get_field_schema dataset ->
  exists before after new,
    _create_list_of_class_names (view_of dataset view) label_field
      = Ok before /\
    _create_list_of_class_names (view_of dataset (view ++ more)) label_field
      = Ok after /\
    after = before ++ new /\
    NoDup new /\
    (forall x, x ∈ new <->
       (x ∈ scanned_labels more label_field /\ x ∉ before)) /\
    (forall i name, before !! i = Some name ->
       id_assignment (label_map_of after) !! i = Some (Z.of_nat i + 1, name) /\
       id_assignment (label_map_of before) !! i = Some (Z.of_nat i + 1, name)).
Proof.
  intros Hfield.
  rewrite !create_list_as_scan by done. simpl.
  rewrite scanned_labels_app, fold_left_app.
  set (before := fold_left add_label (scanned_labels view label_field) []).
  destruct (scan_extends (scanned_labels more label_field) before)
    as (new & Hafter & Hnew).
  exists before, (before ++ new), new.
  split; [done|]. split; [by rewrite Hafter|]. split; [done|]. split.
  { pose proof (proj1 (scan_spec (scanned_labels (view ++ more) label_field)))
      as Hnd.
    cbv zeta in Hnd. rewrite scanned_labels_app, fold_left_app in Hnd.
    fold before in Hnd. rewrite Hafter in Hnd.
    by apply NoDup_app in Hnd as (_ & _ & Hnd). }
  split; [done|].
  intros i name Hi. rewrite !id_assignment_label_map_of, !enumerate_from_lookup.
  rewrite lookup_app_l by (by eapply lookup_lt_Some). rewrite Hi. simpl.
  by rewrite (Z.add_comm 1).
Qed.

Lemma class_names_extend_witness :
  ("detections" ∈ fo.get_field_schema mixed_view) /\
  exists new,
    _create_list_of_class_names (view_of mixed_view (take 1 mixed_view))
      "detections" = Ok ["cat"; "Cat"] /\
    _create_list_of_class_names
      (view_of mixed_view (take 1 mixed_view ++ drop 1 mixed_view))
      "detections" = Ok (["cat"; "Cat"] ++ new) /\
    NoDup new.
Proof.
  assert (Hfield : "detections" ∈ fo.get_field_schema mixed_view)
    by (vm_compute; set_solver).
  split; [exact Hfield|].
  destruct (class_names_extend mixed_view (take 1 mixed_view)
              (drop 1 mixed_view) "detections" Hfield)
    as (before & after & new & Hb & Ha & -> & Hnd & _).
  rewrite create_list_as_scan in Hb by exact Hfield.
  injection Hb as <-. by exists new.
Defined.

Lemma elem_of_scanned_labels (view : list Sample) (label_field x : string) :
  x ∈ scanned_labels view label_field <->
  exists s detections d,
    s ∈ view /\ fo.getfield s label_field = Some detections /\
    d ∈ detections /\ label d = x.
Proof.
  unfold scanned_labels. rewrite list_elem_of_In, in_flat_map. split.
  - intros (s & Hs & Hx). apply list_elem_of_In in Hs.
    destruct (fo.getfield s label_field) as [detections|] eqn:Hf; [|done].
    apply in_map_iff in Hx as (d & Hd & Hin). apply list_elem_of_In in Hin.
    by exists s, detections, d.
  - intros (s & detections & d & Hs & Hf & Hd & Hx).
    exists s. split; [by apply list_elem_of_In|]. rewrite Hf.
    apply in_map_iff. exists d. split; [done|]. by apply list_elem_of_In.
Qed.

Lemma class_names_members (samples : list Sample) (label_field : string) :
  let class_names :=
    fold_left add_label (scanned_labels samples label_field) [] in
  NoDup class_names /\
  (forall x, x ∈ class_names <-> x ∈ scanned_labels samples label_field).
Proof.
  destruct (scan_spec (scanned_labels samples label_field)) as (Hnd & Hin & _).
  by split.
Qed.

Lemma class_names_Permutation (view1 view2 : list Sample) (label_field : string) :
  Permutation view1 view2 ->
  Permutation (fold_left add_label (scanned_labels view1 label_field) [])
              (fold_left add_label (scanned_labels view2 label_field) []).
Proof.
  intros Hperm.
  destruct (class_names_members view1 label_field) as [Hnd1 Hin1].
  destruct (class_names_members view2 label_field) as [Hnd2 Hin2].
  apply NoDup_Permutation; [done|done|].
  intros x. rewrite Hin1, Hin2, !elem_of_scanned_labels.
  split; intros (s & detections & d & Hs & Hrest);
    exists s, detections, d; (split; [|done]).
  - by rewrite <- Hperm.
  - by rewrite Hperm.
Qed.

(** X8.  The order of the view decides which ID a class gets, not which
    classes there are.  For two orders of the same samples of a dataset
    that has the label field, both scans return, and the class-name lists
    are rearrangements of each other, so they have the same length and the
    label maps built from them count the same number of classes; on a
    dataset that lacks the field both scans raise the same [ValueError]. *)
Theorem class_names_order_independent (dataset view1 view2 : list Sample)
    (label_field : string) :
  Permutation view1 view2 ->
  let r1 := _create_list_of_class_names (view_of dataset view1) label_field in
  let r2 := _create_list_of_class_names (view_of dataset view2) label_field in
  (label_field ∈ fo.get_field_schema dataset ->
   exists names1 names2,
     r1 = Ok names1 /\ r2 = Ok names2 /\
     Permutation names1 names2 /\ length names1 = length names2 /\
     num_classes_of (label_map_of names1) = num_classes_of (label_map_of names2)) /\
  (label_field ∉ fo.get_field_schema dataset ->
   r1 = r2 /\ exists msg, r1 = Raised (ValueError msg)).
Proof.
  intros Hperm. cbv zeta. split; intros Hfield.
  - rewrite !create_list_as_scan by done. simpl.
    pose proof (class_names_Permutation _ _ label_field Hperm) as Hp.
    eexists _, _. split; [done|]. split; [done|].
    split; [done|]. split; [by apply Permutation_length|].
    rewrite !num_classes_of_label_map_of. by rewrite (Permutation_length Hp).
  - rewrite !create_list_no_field by done. split; [done|]. by eexists.
Qed.

Lemma class_names_order_independent_witness :
  Permutation example_view (rev example_view) /\
  ("detections" ∈ fo.get_field_schema example_view) /\
  exists names1 names2,
    _create_list_of_class_names (view_of example_view example_view)
      "detections" = Ok names1 /\
    _create_list_of_class_names (view_of example_view (rev example_view))
      "detections" = Ok names2 /\
    Permutation names1 names2.
Proof.
  assert (H : Permutation example_view (rev example_view))
    by apply Permutation_rev.
  assert (Hfield : "detections" ∈ fo.get_field_schema example_view)
    by (vm_compute; set_solver).
  split; [exact H|]. split; [exact Hfield|].
  destruct (proj1 (class_names_order_independent example_view example_view
                     (rev example_view) "detections" H) Hfield)
    as (names1 & names2 & H1 & H2 & Hp & _).
  by exists names1, names2.
Defined.

Lemma label_map_of_cons (name : string) (class_names : list string) :
  exists item rest, label_map_of (name :: class_names) = item :: rest.
Proof.
  unfold label_map_of. rewrite label_map_of_acc. simpl. by eexists _, _.
Qed.

Lemma elem_of_match_tags (tag : string) (v : list Sample) (s : Sample) :
  s ∈ fo.match_tags tag v <-> (s ∈ v /\ fo.has_tag tag s = true).
Proof.
  unfold fo.match_tags. rewrite !list_elem_of_In, filter_In. tauto.
Qed.

(** X9.  The mapping that [create_detection_mapping] returns is the text of
    a label map whose names are, each once, exactly the labels of the
    detections that the samples tagged "training" have in the label field;
    the samples without the tag and the seeded shuffle do not change which
    names these are.  The text is empty exactly when there is no such
    label. *)
Theorem create_detection_mapping_labels
    (shuffle : Z -> list Sample -> list Sample)
    (dataset_name label_field mapping : string) (w w' : World) :
  (forall seed v, Permutation (shuffle seed v) v) ->
  create_detection_mapping shuffle dataset_name label_field w = (Ok mapping, w') ->
  exists dataset class_names,
    datasets w !! dataset_name = Some dataset /\
    mapping = MessageToBytes (label_map_of class_names) /\
    NoDup class_names /\
    (forall x, x ∈ class_names <->
       exists s detections d,
         s ∈ dataset /\ fo.has_tag "training" s = true /\
         fields s !! label_field = Some detections /\
         d ∈ detections /\ label d = x) /\
    (mapping = "" <-> class_names = []).
Proof.
  intros Hperm (dataset & Hds & _ & ->)%create_detection_mapping_Ok.
  set (view := shuffle 2021 (fo.match_tags "training" dataset)).
  exists dataset, (fold_left add_label (scanned_labels view label_field) []).
  destruct (class_names_members view label_field) as [Hnd Hin].
  split; [done|]. split; [done|]. split; [done|]. split.
  - intros x. rewrite Hin, elem_of_scanned_labels.
    split.
    + intros (s & detections & d & Hs & Hf & Hd & Hx).
      unfold view in Hs. rewrite (Hperm 2021 _) in Hs.
      apply elem_of_match_tags in Hs as [Hs Htag].
      by exists s, detections, d.
    + intros (s & detections & d & Hs & Htag & Hf & Hd & Hx).
      exists s, detections, d. split; [|done].
      unfold view. rewrite (Hperm 2021 _). by apply elem_of_match_tags.
  - destruct (fold_left add_label _ []) as [|name names].
    + done.
    + destruct (label_map_of_cons name names) as (item & rest & ->).
      split; [|done]. cbn [MessageToBytes]. unfold print_item. simpl.
      discriminate.
Qed.

Lemma create_detection_mapping_labels_witness :
  (forall seed v, Permutation (example_shuffle seed v) v) /\
  exists dataset class_names,
    datasets example_store !! "pets" = Some dataset /\
    MessageToBytes (label_map_of ["cat"; "dog"])
      = MessageToBytes (label_map_of class_names) /\
    NoDup class_names /\
    (forall x, x ∈ class_names <->
       exists s detections d,
         s ∈ dataset /\ fo.has_tag "training" s = true /\
         fields s !! "detections" = Some detections /\
         d ∈ detections /\ label d = x) /\
    (MessageToBytes (label_map_of ["cat"; "dog"]) = "" <-> class_names = []).
Proof.
  split; [exact example_shuffle_permutes|].
  exact (create_detection_mapping_labels example_shuffle "pets" "detections"
           (MessageToBytes (label_map_of ["cat"; "dog"])) example_store _
           example_shuffle_permutes eq_refl).
Defined.

(** ** Label Mapping Persistence: what a save does *)

Lemma save_mapping_to_file_cases (mapping : string)
    (filepaths : gmap string string) (w : World) :
  let w0 := emit (EvLogInfo "Creating detection classes to ID mapping file.") w in
  save_mapping_to_file mapping filepaths w
  = match filepaths !! "label_map_file" with
    | None => (Raised (KeyError "label_map_file"), w0)
    | Some path =>
        if parent_exists w path && negb (bool_decide (path ∈ dirs w)) then
          (Ok (),
           emit (EvLogInfo "Finished creating detection classes to ID mapping file.")
             {| dirs := dirs w; files := <[path := mapping]> (files w);
                datasets := datasets w;
                trace := trace w0 ++ [EvWrite path mapping] |})
        else (Raised (FileNotFoundError path), w0)
    end.
Proof.
  cbv zeta. unfold save_mapping_to_file, getitem, write_file, parent_exists.
  destruct (filepaths !! "label_map_file") as [path|]; [|done]. simpl.
  by destruct (_ && _).
Qed.

(** X10.  A save that returns has put the mapping, and nothing else, into
    the file the entry label_map_file names: that file now reads as the
    mapping, every other file is as it was, and no directory was created.
    A later save through the same dict returns too and replaces the
    content. *)
Theorem save_mapping_to_file_writes (mapping : string)
    (filepaths : gmap string string) (w w' : World) :
  save_mapping_to_file mapping filepaths w = (Ok (), w') ->
  exists path,
    filepaths !! "label_map_file" = Some path /\
    files w' = <[path := mapping]> (files w) /\
    (read_file path w').1 = Ok mapping /\
    (forall other, other <> path -> files w' !! other = files w !! other) /\
    dirs w' = dirs w /\ datasets w' = datasets w /\
    (forall mapping2,
       let r := save_mapping_to_file mapping2 filepaths w' in
       r.1 = Ok () /\ files r.2 = <[path := mapping2]> (files w)).
Proof.
  rewrite save_mapping_to_file_cases. cbv zeta.
  destruct (filepaths !! "label_map_file") as [path|] eqn:Hpath; [|done].
  destruct (_ && _) eqn:Hcan; [|done].
  intros [= <-]. exists path. simpl. split; [done|]. split; [done|].
  split; [|split; [|split; [done|split; [done|]]]].
  - unfold read_file. simpl. by rewrite lookup_insert_eq.
  - intros other Hne. by rewrite lookup_insert_ne.
  - intros mapping2. rewrite save_mapping_to_file_cases. cbv zeta.
    rewrite Hpath. unfold parent_exists in *. simpl. rewrite Hcan. simpl.
    split; [done|]. apply insert_insert_eq.
Qed.

Lemma save_mapping_to_file_writes_witness :
  exists path,
    example_filepaths !! "label_map_file" = Some path /\
    files (save_mapping_to_file "item" example_filepaths example_store).2
      = <[path := "item"]> (files example_store) /\
    (read_file path
       (save_mapping_to_file "item" example_filepaths example_store).2).1
      = Ok "item".
Proof.
  destruct (save_mapping_to_file_writes "item" example_filepaths example_store
              (save_mapping_to_file "item" example_filepaths example_store).2
              eq_refl)
    as (path & H1 & H2 & H3 & _).
  by exists path.
Defined.

(** The directory part of a path that ends in a file name without a
    slash. *)
Lemma dirname_label_map (dir : string) :
  dirname (dir +:+ "/label_map.pbtxt") = Some dir.
Proof.
  induction dir as [|c dir IH]; [reflexivity|].
  cbn [String.append dirname]. by rewrite IH.
Qed.

(** X11.  [save_mapping_to_file] does not create the directory it writes
    into.  With the dict of [set_filenames] it returns exactly when the
    directory /tf/dataset-export/<training_name> exists (and the path of
    the label-map file is not itself a directory); when it does not
    return it has raised, and no file has changed. *)
Theorem save_mapping_to_file_needs_directory
    (base_models : gmap string (gmap string string))
    (training_name chosen_model mapping : string)
    (filepaths : gmap string string) (w : World) :
  set_filenames base_models training_name chosen_model = Ok filepaths ->
  let r := save_mapping_to_file mapping filepaths w in
  let dir := "/tf/dataset-export/" +:+ training_name in
  (r.1 = Ok () <->
   (dir ∈ dirs w /\ (dir +:+ "/label_map.pbtxt") ∉ dirs w)) /\
  (r.1 <> Ok () -> (exists e, r.1 = Raised e) /\ files r.2 = files w).
Proof.
  intros (m & bpf & mn & pc & _ & _ & _ & _ & ->)%set_filenames_Ok.
  cbv zeta. rewrite save_mapping_to_file_cases. cbv zeta.
  rewrite (scoped_lookup training_name bpf mn pc "label_map_file")
    by (unfold scoped_keys; set_solver).
  cbn [scoped_shape String.eqb Ascii.eqb Bool.eqb fst snd].
  assert (E : "/tf/dataset-export/" +:+ training_name +:+ "/label_map.pbtxt"
              = ("/tf/dataset-export/" +:+ training_name) +:+ "/label_map.pbtxt")
    by (by rewrite append_assoc).
  rewrite E. unfold parent_exists. rewrite dirname_label_map.
  cbn [String.append].
  destruct (decide (String "/" ("tf/dataset-export/" +:+ training_name) ∈ dirs w))
    as [Hd|Hd];
  destruct (decide (String "/" ("tf/dataset-export/" +:+ training_name)
                    +:+ "/label_map.pbtxt" ∈ dirs w)) as [Hp|Hp];
  rewrite ?(bool_decide_eq_true_2 _ Hd), ?(bool_decide_eq_false_2 _ Hd),
          ?(bool_decide_eq_true_2 _ Hp), ?(bool_decide_eq_false_2 _ Hp); simpl;
  (split; [split; [try done; tauto | try done; tauto]|]); try done;
  intros _; split; try done; by eexists.
Qed.

Lemma save_mapping_to_file_needs_directory_witness :
  set_filenames example_base_models "run1" "ssd"
    = Ok (filepaths_of "run1" "ssd.config" "ssd" "ssd.config") /\
  let r := save_mapping_to_file "item"
             (filepaths_of "run1" "ssd.config" "ssd" "ssd.config")
             example_world in
  (exists e, r.1 = Raised e) /\ files r.2 = files example_world.
Proof.
  assert (Hset : set_filenames example_base_models "run1" "ssd"
                 = Ok (filepaths_of "run1" "ssd.config" "ssd" "ssd.config"))
    by reflexivity.
  split; [exact Hset|].
  apply (save_mapping_to_file_needs_directory example_base_models
           "run1" "ssd" "item" _ example_world Hset).
  discriminate.
Defined.

(** ** Label Mapping Introspection: what is counted *)

(** The ids of the categories are, as a set, the ids of the items that lie
    in range. *)
Lemma convert_ids_set_acc (label_map : StringIntLabelMap) (max : Z) (udn : bool)
    (categories : list category) (added : list Z) :
  map cat_id categories = added ->
  (list_to_set (map cat_id (fold_left
    (fun '(categories, list_of_ids_already_added) item =>
       if negb (id_in_range max (id_of item)) then
         (categories, list_of_ids_already_added)
       else
         let name :=
           if udn && bool_decide (is_Some (item_display_name item))
           then display_name_of item else name_of item in
         if negb (existsb (Z.eqb (id_of item)) list_of_ids_already_added) then
           (categories ++ [ {| cat_id := id_of item; cat_name := name |} ],
            list_of_ids_already_added ++ [id_of item])
         else (categories, list_of_ids_already_added))
    label_map (categories, added)).1) : gset Z)
  = list_to_set added
    ∪ list_to_set (List.filter (id_in_range max) (map id_of label_map)).
Proof.
  revert categories added.
  induction label_map as [|item label_map IH]; intros categories added Hmap.
  { simpl. rewrite Hmap. set_solver. }
  cbn [fold_left map List.filter].
  destruct (id_in_range max (id_of item)) eqn:Hin; cbn [negb]; [|by apply IH].
  destruct (existsb (Z.eqb (id_of item)) added) eqn:Hex; cbn [negb].
  - rewrite IH by done. apply existsb_Zeqb in Hex.
    rewrite list_to_set_cons.
    assert (id_of item ∈ (list_to_set added : gset Z))
      by (by apply elem_of_list_to_set).
    set_solver.
  - rewrite IH by (rewrite map_app; simpl; by rewrite Hmap).
    rewrite list_to_set_app_L, list_to_set_cons. set_solver.
Qed.

Lemma num_classes_of_ids (label_map : StringIntLabelMap) :
  num_classes_of label_map
  = Z.of_nat (size (list_to_set
      (List.filter (id_in_range 90) (map id_of label_map)) : gset Z)).
Proof.
  unfold num_classes_of. rewrite create_category_index_dom.
  unfold convert_label_map_to_categories.
  rewrite convert_ids_set_acc by done. do 2 f_equal. set_solver.
Qed.

(** X12.  A count that [get_num_classes_from_label_map] returns is the
    number of different ids between 1 and 90 that the items of the
    label-map file carry: an item with the id 0 or an id above 90 is not
    counted and an id that occurs again is counted once, whatever the
    names are.  The call changes no file and no directory. *)
Theorem get_num_classes_counts_ids (filepaths : gmap string string)
    (w w' : World) (n : Z) :
  get_num_classes_from_label_map filepaths w = (Ok n, w') ->
  exists path text label_map,
    filepaths !! "label_map_file" = Some path /\
    files w !! path = Some text /\
    Merge text = Ok label_map /\
    n = Z.of_nat (size (list_to_set
          (List.filter (id_in_range 90) (map id_of label_map)) : gset Z)) /\
    files w' = files w /\ dirs w' = dirs w.
Proof.
  unfold get_num_classes_from_label_map, getitem, load_labelmap, read_file.
  destruct (filepaths !! "label_map_file") as [path|]; [|done].
  simpl. destruct (files w !! path) as [text|] eqn:Hfile; [|done].
  destruct (Merge text) as [label_map| |] eqn:HM; simpl; [|done..].
  destruct (_validate_label_map label_map); simpl; [|done..].
  intros [= <- <-]. exists path, text, label_map.
  by rewrite num_classes_of_ids.
Qed.

Lemma get_num_classes_counts_ids_witness :
  exists path text label_map,
    example_filepaths !! "label_map_file" = Some path /\
    files (written_world (MessageToBytes duplicate_ids_map)) !! path = Some text /\
    Merge text = Ok label_map /\
    2 = Z.of_nat (size (list_to_set
          (List.filter (id_in_range 90) (map id_of label_map)) : gset Z)) /\
    files (get_num_classes_from_label_map example_filepaths
             (written_world (MessageToBytes duplicate_ids_map))).2
      = files (written_world (MessageToBytes duplicate_ids_map)) /\
    dirs (get_num_classes_from_label_map example_filepaths
            (written_world (MessageToBytes duplicate_ids_map))).2
      = dirs (written_world (MessageToBytes duplicate_ids_map)).
Proof.
  exact (get_num_classes_counts_ids example_filepaths
           (written_world (MessageToBytes duplicate_ids_map)) _ 2 eq_refl).
Defined.

(** ** Dataset Splitter: the runs *)

(** The first samples of a view are one of the draws of [take]. *)
Lemma take_head (size : Z) (v : list Sample) : fo.take size v (fo.limit size v).
Proof.
  destruct (Z.le_gt_cases size 0) as [H|H].
  - unfold fo.limit. replace (Z.to_nat size) with 0%nat by lia.
    by apply fo.take_nothing.
  - apply fo.take_sample; [lia|done].
Qed.

Lemma take_NoDup (size : Z) (v out : list Sample) :
  fo.take size v out -> NoDup v -> NoDup out.
Proof.
  intros [Hsize | p Hsize Hperm] Hnd; [constructor|].
  rewrite <- Hperm in Hnd.
  rewrite <- (take_drop (Z.to_nat size) p) in Hnd.
  by apply NoDup_app in Hnd as (? & _).
Qed.

(** A view of a dataset that has the field can be exported. *)
Lemma can_export_field (dataset view : list Sample) (label_field : string) :
  label_field ∈ fo.get_field_schema dataset ->
  fo.can_export dataset label_field view = true.
Proof.
  intros H. destruct view; [done|]. simpl. by apply bool_decide_eq_true_2.
Qed.

(** The runs of the splitter, read off its seven rules. *)
Lemma export_run_inv (shuffle : Z -> list Sample -> list Sample)
    (dataset_name : string) (filepaths : gmap string string)
    (label_field : string) (training_percentage : spec_float) (w w' : World)
    (r : outcome unit) :
  export_voxel51_dataset_to_tfrecords shuffle dataset_name filepaths
    label_field training_percentage w r w' ->
  let w1 := emit (EvLoadDataset dataset_name) w in
  match datasets w !! dataset_name with
  | None =>
      r = Raised (ValueError ("Dataset not found: " +:+ dataset_name)) /\ w' = w1
  | Some dataset =>
      let view := shuffle 51 (fo.match_tags "training" dataset) in
      match split_lengths (fo.len view) training_percentage with
      | Ok (train_len, val_len) =>
          exists val_view train_view,
            fo.take val_len view val_view /\
            fo.take train_len (fo.skip val_len view) train_view /\
            match filepaths !! "val_export_dir" with
            | None => r = Raised (KeyError "val_export_dir") /\ w' = w1
            | Some val_dir =>
                if fo.can_export dataset label_field val_view then
                  match filepaths !! "train_export_dir" with
                  | None =>
                      r = Raised (KeyError "train_export_dir") /\
                      w' = emit (EvExport val_dir label_field val_view) w1
                  | Some train_dir =>
                      if fo.can_export dataset label_field train_view then
                        r = Ok () /\
                        w' = emit (EvExport train_dir label_field train_view)
                               (emit (EvExport val_dir label_field val_view) w1)
                      else
                        (exists msg, r = Raised (KeyError msg)) /\
                        w' = emit (EvExport val_dir label_field val_view) w1
                  end
                else (exists msg, r = Raised (KeyError msg)) /\ w' = w1
            end
      | Raised e => r = Raised e /\ w' = w1
      | Exited status => False
      end
  end.
Proof.
  cbv zeta.
  inversion 1 as
    [ e w1 Hload
    | dataset w1 e Hload Hlen
    | dataset w1 train_len val_len val_view train_view view Hload Hlen Hval Htrain Hvd
    | dataset w1 train_len val_len val_view train_view val_dir msg view
        Hload Hlen Hval Htrain Hvd Hve
    | dataset w1 train_len val_len val_view train_view val_dir view
        Hload Hlen Hval Htrain Hvd Hve Htd
    | dataset w1 train_len val_len val_view train_view val_dir train_dir msg view
        Hload Hlen Hval Htrain Hvd Hve Htd Hte
    | dataset w1 train_len val_len val_view train_view val_dir train_dir view
        Hload Hlen Hval Htrain Hvd Hve Htd Hte ];
    subst; unfold fo.load_dataset in Hload; simpl in Hload;
    destruct (datasets w !! dataset_name) as [ds|] eqn:Hds;
    try discriminate Hload; simplify_eq.
  - done.
  - by rewrite Hlen.
  - unfold view in *. rewrite Hlen. exists val_view, train_view.
    by rewrite Hvd.
  - unfold view in *. rewrite Hlen. exists val_view, train_view.
    rewrite Hvd, Hve. split; [done|]. split; [done|]. split; [|done].
    by exists msg.
  - unfold view in *. rewrite Hlen. exists val_view, train_view.
    by rewrite Hvd, Hve, Htd.
  - unfold view in *. rewrite Hlen. exists val_view, train_view.
    rewrite Hvd, Hve, Htd, Hte. split; [done|]. split; [done|].
    split; [|done]. by exists msg.
  - unfold view in *. rewrite Hlen. exists val_view, train_view.
    by rewrite Hvd, Hve, Htd, Hte.
Qed.

Lemma exports_of_load (name : string) (w : World) :
  exports_of (emit (EvLoadDataset name) w) = exports_of w.
Proof. rewrite exports_of_emit. apply app_nil_r. Qed.

(** X13.  Whatever its outcome, a run of the splitter exports only samples
    of the named dataset that carry the tag "training", none of them twice
    within one export when the dataset holds no sample twice; and it leaves
    the datasets as they were. *)
Theorem export_only_training_samples
    (shuffle : Z -> list Sample -> list Sample)
    (dataset_name : string) (filepaths : gmap string string)
    (label_field : string) (training_percentage : spec_float) (w w' : World)
    (r : outcome unit) :
  (forall seed v, Permutation (shuffle seed v) v) ->
  export_voxel51_dataset_to_tfrecords shuffle dataset_name filepaths
    label_field training_percentage w r w' ->
  datasets w' = datasets w /\
  exists exported,
    exports_of w' = exports_of w ++ exported /\
    forall export_dir samples, (export_dir, samples) ∈ exported ->
      exists dataset,
        datasets w !! dataset_name = Some dataset /\
        (forall x, x ∈ samples -> x ∈ dataset /\ fo.has_tag "training" x = true) /\
        (NoDup dataset -> NoDup samples).
Proof.
  intros Hperm Hrun. apply export_run_inv in Hrun. cbv zeta in Hrun.
  destruct (datasets w !! dataset_name) as [dataset|] eqn:Hds.
  2: { destruct Hrun as [-> ->]. repeat split; try done.
       exists []. rewrite exports_of_load, app_nil_r. split; [done|].
       intros ?? H. by apply elem_of_nil in H. }
  set (view := shuffle 51 (fo.match_tags "training" dataset)) in *.
  assert (Hview : forall x, x ∈ view -> x ∈ dataset /\ fo.has_tag "training" x = true).
  { intros x Hx. unfold view in Hx. rewrite (Hperm 51 _) in Hx.
    by apply elem_of_match_tags in Hx. }
  assert (Hnd : NoDup dataset -> NoDup view).
  { intros H. unfold view. rewrite (Hperm 51 _). unfold fo.match_tags.
    apply NoDup_ListNoDup, List.NoDup_filter. by apply NoDup_ListNoDup. }
  assert (Hskip : forall n x, x ∈ fo.skip n view -> x ∈ view).
  { intros n x. unfold fo.skip. apply subseteq_drop. }
  assert (Hndskip : forall n, NoDup view -> NoDup (fo.skip n view)).
  { intros n H. unfold fo.skip.
    rewrite <- (take_drop (Z.to_nat n) view) in H.
    by apply NoDup_app in H as (_ & _ & ?). }
  destruct (split_lengths (fo.len view) training_percentage)
    as [[train_len val_len]|e|status] eqn:Hlen; [| |done].
  2: { destruct Hrun as [-> ->]. repeat split; try done.
       exists []. rewrite exports_of_load, app_nil_r. split; [done|].
       intros ?? H. by apply elem_of_nil in H. }
  destruct Hrun as (val_view & train_view & Hval & Htrain & Hrun).
  assert (Hv : forall x, x ∈ val_view -> x ∈ dataset /\ fo.has_tag "training" x = true).
  { intros x Hx. apply Hview. by eapply take_subset. }
  assert (Ht : forall x, x ∈ train_view -> x ∈ dataset /\ fo.has_tag "training" x = true).
  { intros x Hx. apply Hview, (Hskip val_len). by eapply take_subset. }
  assert (Hnone : forall w1, datasets w1 = datasets w ->
            exports_of w1 = exports_of w ->
            datasets w1 = datasets w /\
            exists exported,
              exports_of w1 = exports_of w ++ exported /\
              forall export_dir samples, (export_dir, samples) ∈ exported ->
                exists dataset0,
                  Some dataset = Some dataset0 /\
                  (forall x, x ∈ samples ->
                     x ∈ dataset0 /\ fo.has_tag "training" x = true) /\
                  (NoDup dataset0 -> NoDup samples)).
  { intros w1 Hd He. split; [done|]. exists []. rewrite app_nil_r.
    split; [done|]. intros ?? H. by apply elem_of_nil in H. }
  assert (Hone : forall val_dir w1, datasets w1 = datasets w ->
            exports_of w1 = exports_of w ++ [(val_dir, val_view)] ->
            datasets w1 = datasets w /\
            exists exported,
              exports_of w1 = exports_of w ++ exported /\
              forall export_dir samples, (export_dir, samples) ∈ exported ->
                exists dataset0,
                  Some dataset = Some dataset0 /\
                  (forall x, x ∈ samples ->
                     x ∈ dataset0 /\ fo.has_tag "training" x = true) /\
                  (NoDup dataset0 -> NoDup samples)).
  { intros val_dir w1 Hd He. split; [done|]. exists [(val_dir, val_view)].
    split; [done|].
    intros export_dir samples. rewrite !elem_of_cons, elem_of_nil.
    intros [[= -> ->]|[]]. exists dataset. split; [done|].
    split; [done|]. intros H. eapply take_NoDup; [done|]. by apply Hnd. }
  destruct (filepaths !! "val_export_dir") as [val_dir|].
  2: { destruct Hrun as [-> ->]. apply Hnone; [done|apply exports_of_load]. }
  destruct (fo.can_export dataset label_field val_view).
  2: { destruct Hrun as [_ ->]. apply Hnone; [done|apply exports_of_load]. }
  destruct (filepaths !! "train_export_dir") as [train_dir|].
  2: { destruct Hrun as [-> ->]. apply (Hone val_dir); [done|].
       rewrite !exports_of_emit. simpl. by rewrite app_nil_r. }
  destruct (fo.can_export dataset label_field train_view).
  2: { destruct Hrun as [_ ->]. apply (Hone val_dir); [done|].
       rewrite !exports_of_emit. simpl. by rewrite app_nil_r. }
  destruct Hrun as [-> ->]. split; [done|].
  exists [(val_dir, val_view); (train_dir, train_view)]. split.
  { rewrite !exports_of_emit. simpl. by rewrite app_nil_r, <- app_assoc. }
  intros export_dir samples. rewrite !elem_of_cons, elem_of_nil.
  intros [[= -> ->]|[[= -> ->]|[]]]; exists dataset; (split; [done|]).
  - split; [done|]. intros H. eapply take_NoDup; [done|]. by apply Hnd.
  - split; [done|]. intros H. eapply take_NoDup; [done|].
    by apply Hndskip, Hnd.
Qed.

Lemma pair_run_head :
  export_voxel51_dataset_to_tfrecords example_shuffle "pair" example_filepaths
    "detections" lit_0_5 pair_store (Ok ())
    (emit (EvExport "/tf/dataset-export/run1/train/" "detections" [sample_a])
       (emit (EvExport "/tf/dataset-export/run1/val/" "detections" [sample_b])
          (emit (EvLoadDataset "pair") pair_store))).
Proof.
  apply (pair_run example_shuffle pair_store sample_b sample_a);
    [done|done|apply take_one_first|apply take_one_first].
Qed.

Lemma export_only_training_samples_witness :
  (forall seed v, Permutation (example_shuffle seed v) v) /\
  exists exported,
    exports_of
      (emit (EvExport "/tf/dataset-export/run1/train/" "detections" [sample_a])
         (emit (EvExport "/tf/dataset-export/run1/val/" "detections" [sample_b])
            (emit (EvLoadDataset "pair") pair_store)))
    = exports_of pair_store ++ exported /\
    forall export_dir samples, (export_dir, samples) ∈ exported ->
      exists dataset,
        datasets pair_store !! "pair" = Some dataset /\
        (forall x, x ∈ samples -> x ∈ dataset /\ fo.has_tag "training" x = true) /\
        (NoDup dataset -> NoDup samples).
Proof.
  split; [exact example_shuffle_permutes|].
  exact (proj2 (export_only_training_samples example_shuffle
    "pair" example_filepaths "detections" lit_0_5 pair_store _ (Ok ())
    example_shuffle_permutes pair_run_head)).
Defined.





(** X16.  A dataset in which no sample carries the tag "training": for a
    fraction in [0, 1] both lengths are 0, and the run returns after
    exporting an empty validation partition and an empty training
    partition. *)
Theorem export_empty_view
    (shuffle : Z -> list Sample -> list Sample)
    (dataset_name : string) (filepaths : gmap string string)
    (label_field : string) (training_percentage : spec_float) (w w' : World)
    (r : outcome unit) (dataset : list Sample) (val_dir train_dir : string) :
  (forall seed v, Permutation (shuffle seed v) v) ->
  datasets w !! dataset_name = Some dataset ->
  fo.match_tags "training" dataset = [] ->
  is_fraction training_percentage = true ->
  filepaths !! "val_export_dir" = Some val_dir ->
  filepaths !! "train_export_dir" = Some train_dir ->
  export_voxel51_dataset_to_tfrecords shuffle dataset_name filepaths
    label_field training_percentage w r w' ->
  split_lengths 0 training_percentage = Ok (0, 0) /\
  r = Ok () /\
  exports_of w' = exports_of w ++ [(val_dir, []); (train_dir, [])].
Proof.
  intros Hperm Hds Hnone Hf Hvd Htd Hrun.
  destruct (split_lengths_sum 0 training_percentage ltac:(lia) Hf)
    as (train_len & val_len & Hlen & H1 & H2 & H3).
  assert (train_len = 0) as -> by lia. assert (val_len = 0) as -> by lia.
  split; [done|].
  apply export_run_inv in Hrun. cbv zeta in Hrun.
  rewrite Hds, Hnone in Hrun.
  rewrite (proj1 (Permutation_nil_r _) (Hperm 51 [])) in Hrun.
  change (fo.len []) with 0 in Hrun. rewrite Hlen, Hvd, Htd in Hrun.
  destruct Hrun as (val_view & train_view & Hval & Htrain & Hrun).
  apply take_length in Hval, Htrain. simpl in Hval, Htrain.
  apply nil_length_inv in Hval as ->. apply nil_length_inv in Htrain as ->.
  simpl in Hrun. destruct Hrun as [-> ->].
  split; [done|].
  rewrite !exports_of_emit. simpl. by rewrite app_nil_r, <- app_assoc.
Qed.

Lemma untagged_run :
  export_voxel51_dataset_to_tfrecords example_shuffle "raw" example_filepaths
    "detections" lit_0_8 untagged_store (Ok ())
    (emit (EvExport "/tf/dataset-export/run1/train/" "detections" [])
       (emit (EvExport "/tf/dataset-export/run1/val/" "detections" [])
          (emit (EvLoadDataset "raw") untagged_store))).
Proof.
  eapply (export_done example_shuffle "raw" example_filepaths "detections"
            lit_0_8 untagged_store _ _ 0 0 [] []);
    try reflexivity; by apply fo.take_nothing.
Qed.

Lemma export_empty_view_witness :
  fo.match_tags "training"
    [ {| filepath := "u.jpg"; tags := ["validation"]; fields := ∅ |} ] = [] /\
  split_lengths 0 lit_0_8 = Ok (0, 0) /\
  @Ok unit () = Ok () /\
  exports_of
    (emit (EvExport "/tf/dataset-export/run1/train/" "detections" [])
       (emit (EvExport "/tf/dataset-export/run1/val/" "detections" [])
          (emit (EvLoadDataset "raw") untagged_store)))
  = exports_of untagged_store
    ++ [ ("/tf/dataset-export/run1/val/", []);
         ("/tf/dataset-export/run1/train/", []) ].
Proof.
  split; [reflexivity|].
  exact (export_empty_view example_shuffle "raw" example_filepaths "detections"
           lit_0_8 untagged_store _ (Ok ()) _ _ _
           example_shuffle_permutes eq_refl eq_refl eq_refl eq_refl eq_refl
           untagged_run).
Defined.

Lemma export_partition_sizes_witness :
  is_fraction lit_0_5 = true /\
  exists val_view train_view,
    exports_of
      (emit (EvExport "/tf/dataset-export/run1/train/" "detections" [sample_a])
         (emit (EvExport "/tf/dataset-export/run1/val/" "detections" [sample_b])
            (emit (EvLoadDataset "pair") pair_store)))
    = exports_of pair_store
      ++ [ ("/tf/dataset-export/run1/val/", val_view);
           ("/tf/dataset-export/run1/train/", train_view) ] /\
    fo.len val_view + fo.len train_view <= 2.
Proof.
  assert (Hf : is_fraction lit_0_5 = true) by reflexivity.
  split; [exact Hf|].
  destruct (export_partition_sizes example_shuffle "pair" example_filepaths
              "detections" lit_0_5 pair_store _ Hf pair_run_head)
    as (dataset & train_len & val_len & val_view & train_view & val_dir
        & train_dir & Hds & Hlen & Hexp & _ & _ & Hsizes).
  injection Hds as <-.
  destruct (Hsizes ltac:(reflexivity)) as (Hv & Ht & Hsum).
  injection Hexp as <- <- <- <-.
  exists [sample_b], [sample_a]. split; [reflexivity|].
  rewrite Hv, Ht. exact Hsum.
Defined.

(** When the two partitions together are shorter than a view that holds
    no sample twice, a sample of the view is in neither. *)
Lemma some_left_out (view val_view train_view : list Sample) :
  NoDup view ->
  (length val_view + length train_view < length view)%nat ->
  exists x, x ∈ view /\ (x ∉ val_view) /\ (x ∉ train_view).
Proof.
  intros Hnd Hlen.
  destruct (decide (Exists (fun x => (x ∉ val_view) /\ (x ∉ train_view)) view))
    as [H|H].
  - apply Exists_exists in H as (x & Hx & H). by exists x.
  - exfalso. apply not_Exists_Forall in H; [|intros x; apply _].
    assert (Hsub : view ⊆+ val_view ++ train_view).
    { apply NoDup_submseteq; [done|]. intros x Hx.
      rewrite Forall_forall in H. specialize (H x Hx). simpl in H.
      rewrite elem_of_app.
      destruct (decide (x ∈ val_view)); [by left|].
      destruct (decide (x ∈ train_view)); [by right|]. by destruct H. }
    apply submseteq_length in Hsub. rewrite length_app in Hsub. lia.
Qed.

(** Every run on a dataset that has the label field and holds no sample
    twice, with both directory entries and lengths that fall short of the
    view: it returns, the partitions have the two lengths, and a sample of
    the view is in neither. *)
Lemma export_leaves_out (shuffle : Z -> list Sample -> list Sample)
    (dataset_name : string) (filepaths : gmap string string)
    (label_field : string) (training_percentage : spec_float) (w w' : World)
    (r : outcome unit) (dataset : list Sample) (train_len val_len : Z)
    (val_dir train_dir : string) :
  (forall seed v, Permutation (shuffle seed v) v) ->
  datasets w !! dataset_name = Some dataset ->
  NoDup dataset ->
  label_field ∈ fo.get_field_schema dataset ->
  split_lengths (fo.len (fo.match_tags "training" dataset)) training_percentage
    = Ok (train_len, val_len) ->
  0 <= val_len -> 0 <= train_len ->
  val_len + train_len < fo.len (fo.match_tags "training" dataset) ->
  filepaths !! "val_export_dir" = Some val_dir ->
  filepaths !! "train_export_dir" = Some train_dir ->
  export_voxel51_dataset_to_tfrecords shuffle dataset_name filepaths
    label_field training_percentage w r w' ->
  r = Ok () /\
  exists val_view train_view,
    exports_of w' = exports_of w ++ [(val_dir, val_view); (train_dir, train_view)] /\
    fo.len val_view = val_len /\ fo.len train_view = train_len /\
    exists x, x ∈ fo.match_tags "training" dataset /\
              (x ∉ val_view) /\ (x ∉ train_view).
Proof.
  intros Hperm Hds Hnd Hfield Hlen Hv Ht Hsum Hvd Htd Hrun.
  apply export_run_inv in Hrun. cbv zeta in Hrun. rewrite Hds in Hrun.
  set (tagged := fo.match_tags "training" dataset) in *.
  set (view := shuffle 51 tagged) in *.
  assert (Hlenv : fo.len view = fo.len tagged).
  { unfold fo.len, view. by rewrite (Permutation_length (Hperm 51 _)). }
  rewrite Hlenv, Hlen, Hvd, Htd in Hrun.
  destruct Hrun as (val_view & train_view & Hval & Htrain & Hrun).
  rewrite !can_export_field in Hrun by done. destruct Hrun as [-> ->].
  split; [done|]. exists val_view, train_view.
  split; [rewrite !exports_of_emit; simpl; by rewrite app_nil_r, <- app_assoc|].
  pose proof (take_length _ _ _ Hval) as Hlv.
  pose proof (take_length _ _ _ Htrain) as Hlt.
  unfold fo.skip in Hlt. rewrite length_drop in Hlt.
  unfold fo.len in *.
  split; [lia|]. split; [lia|].
  assert (Hndv : NoDup view).
  { unfold view. rewrite (Hperm 51 _). unfold tagged, fo.match_tags.
    apply NoDup_ListNoDup, List.NoDup_filter. by apply NoDup_ListNoDup. }
  destruct (some_left_out view val_view train_view Hndv ltac:(lia))
    as (x & Hx & Hxv & Hxt).
  exists x. split; [|done]. unfold view in Hx. by rewrite (Hperm 51 _) in Hx.
Qed.

Lemma numbered_samples_10 :
  NoDup (numbered_samples 10) /\
  fo.match_tags "training" (numbered_samples 10) = numbered_samples 10 /\
  ("detections" ∈ fo.get_field_schema (numbered_samples 10)).
Proof.
  split; [|split].
  - refine (bool_decide_unpack _ _). by vm_compute.
  - reflexivity.
  - refine (bool_decide_unpack _ _). by vm_compute.
Qed.

Lemma numbered_samples_11 :
  NoDup (numbered_samples 11) /\
  fo.match_tags "training" (numbered_samples 11) = numbered_samples 11 /\
  ("detections" ∈ fo.get_field_schema (numbered_samples 11)).
Proof.
  split; [|split].
  - refine (bool_decide_unpack _ _). by vm_compute.
  - reflexivity.
  - refine (bool_decide_unpack _ _). by vm_compute.
Qed.

(** On ten samples at 0.8 there is a run that leaves two samples out:
    validation draws the sample second in the view, and training, drawn
    from the view past its first sample, the eight from the second on. *)
Lemma ten_samples_two_left_out (shuffle : Z -> list Sample -> list Sample) :
  (forall seed v, Permutation (shuffle seed v) v) ->
  exists w' val_view train_view x y,
    export_voxel51_dataset_to_tfrecords shuffle "ten" example_filepaths
      "detections" lit_0_8 split_store (Ok ()) w' /\
    exports_of w' = [ ("/tf/dataset-export/run1/val/", val_view);
                      ("/tf/dataset-export/run1/train/", train_view) ] /\
    x <> y /\ x ∈ numbered_samples 10 /\ y ∈ numbered_samples 10 /\
    (x ∉ val_view) /\ (x ∉ train_view) /\ (y ∉ val_view) /\ (y ∉ train_view).
Proof.
  intros Hperm.
  destruct numbered_samples_10 as (Hnd & Htag & Hfield).
  set (view := shuffle 51 (numbered_samples 10)).
  assert (Hp : Permutation view (numbered_samples 10)) by apply Hperm.
  assert (Hlen : length view = 10%nat) by by rewrite (Permutation_length Hp).
  assert (Hndv : NoDup view) by by rewrite Hp.
  destruct view as [|x1 [|x2 [|x3 [|x4 [|x5 [|x6 [|x7 [|x8 [|x9 [|x10 [|]]]]]]]]]]]
    eqn:Hview; try discriminate Hlen.
  exists (emit (EvExport "/tf/dataset-export/run1/train/" "detections"
                  [x2; x3; x4; x5; x6; x7; x8; x9])
            (emit (EvExport "/tf/dataset-export/run1/val/" "detections" [x2])
               (emit (EvLoadDataset "ten") split_store))),
    [x2], [x2; x3; x4; x5; x6; x7; x8; x9], x1, x10.
  split.
  { eapply (export_done shuffle "ten" example_filepaths "detections" lit_0_8
              split_store (numbered_samples 10) _ 8 1).
    - reflexivity.
    - rewrite Htag. fold view. rewrite Hview. reflexivity.
    - rewrite Htag. fold view. rewrite Hview.
      exact (fo.take_sample 1 _ (x2 :: x1 :: _) ltac:(lia) (perm_swap _ _ _)).
    - rewrite Htag. fold view. rewrite Hview.
      exact (take_head 8 [x2; x3; x4; x5; x6; x7; x8; x9; x10]).
    - reflexivity.
    - by apply can_export_field.
    - reflexivity.
    - by apply can_export_field. }
  split; [reflexivity|].
  rewrite <- !Hp.
  repeat match goal with
         | H : NoDup (_ :: _) |- _ => apply NoDup_cons in H as [? H]
         end.
  set_solver.
Qed.

(** C5, the code at a failing input.  With [training_percentage = 0.8]
    and ten samples tagged for training the lengths are [train_len = 8]
    and [val_len = 1], not 2: in binary64 [1 - 0.8] lies below 2/10, and
    [10 * (1 - 0.8)] is 1.9999999999999996.  So every run exports one
    sample for validation and eight for training and leaves at least one
    sample in neither partition, and there is a run that leaves two.  With
    eleven samples the lengths are 8 and 2, and every run leaves at least
    one sample out.  The ten samples are no special case: for every
    multiple [5 * k] of five up to 100 the validation length is [k - 1],
    one short of the fifth. *)
Theorem split_at_0_8_leaves_samples_out
    (shuffle : Z -> list Sample -> list Sample) :
  (forall seed v, Permutation (shuffle seed v) v) ->
  let val_dir := "/tf/dataset-export/run1/val/" in
  let train_dir := "/tf/dataset-export/run1/train/" in
  split_lengths 10 lit_0_8 = Ok (8, 1) /\
  (forall r w',
     export_voxel51_dataset_to_tfrecords shuffle "ten" example_filepaths
       "detections" lit_0_8 split_store r w' ->
     r = Ok () /\
     exists val_view train_view,
       exports_of w' = [(val_dir, val_view); (train_dir, train_view)] /\
       fo.len val_view = 1 /\ fo.len train_view = 8 /\
       exists x, x ∈ numbered_samples 10 /\
                 (x ∉ val_view) /\ (x ∉ train_view)) /\
  (exists w' val_view train_view x y,
     export_voxel51_dataset_to_tfrecords shuffle "ten" example_filepaths
       "detections" lit_0_8 split_store (Ok ()) w' /\
     exports_of w' = [(val_dir, val_view); (train_dir, train_view)] /\
     x <> y /\ x ∈ numbered_samples 10 /\ y ∈ numbered_samples 10 /\
     (x ∉ val_view) /\ (x ∉ train_view) /\
     (y ∉ val_view) /\ (y ∉ train_view)) /\
  split_lengths 11 lit_0_8 = Ok (8, 2) /\
  (forall r w',
     export_voxel51_dataset_to_tfrecords shuffle "eleven" example_filepaths
       "detections" lit_0_8 split_store r w' ->
     r = Ok () /\
     exists val_view train_view,
       exports_of w' = [(val_dir, val_view); (train_dir, train_view)] /\
       fo.len val_view = 2 /\ fo.len train_view = 8 /\
       exists x, x ∈ numbered_samples 11 /\
                 (x ∉ val_view) /\ (x ∉ train_view)) /\
  map (fun k => split_lengths (5 * k) lit_0_8) (seqZ 1 20)
  = map (fun k => Ok (4 * k, k - 1)) (seqZ 1 20).
Proof.
  intros Hperm. cbv zeta.
  destruct numbered_samples_10 as (Hnd10 & Htag10 & Hfield10).
  destruct numbered_samples_11 as (Hnd11 & Htag11 & Hfield11).
  split; [by vm_compute|].
  split; [|split; [|split; [by vm_compute|split; [|by vm_compute]]]].
  - intros r w' Hrun.
    destruct (export_leaves_out shuffle "ten" example_filepaths "detections"
                lit_0_8 split_store w' r (numbered_samples 10) 8 1
                "/tf/dataset-export/run1/val/" "/tf/dataset-export/run1/train/"
                Hperm eq_refl Hnd10 Hfield10)
      as (-> & val_view & train_view & Hexp & Hv & Ht & x & Hx & Hout);
      try done; try (rewrite Htag10; by vm_compute).
    split; [done|]. exists val_view, train_view.
    split; [exact Hexp|]. split; [done|]. split; [done|].
    exists x. by rewrite Htag10 in Hx.
  - by apply ten_samples_two_left_out.
  - intros r w' Hrun.
    destruct (export_leaves_out shuffle "eleven" example_filepaths "detections"
                lit_0_8 split_store w' r (numbered_samples 11) 8 2
                "/tf/dataset-export/run1/val/" "/tf/dataset-export/run1/train/"
                Hperm eq_refl Hnd11 Hfield11)
      as (-> & val_view & train_view & Hexp & Hv & Ht & x & Hx & Hout);
      try done; try (rewrite Htag11; by vm_compute).
    split; [done|]. exists val_view, train_view.
    split; [exact Hexp|]. split; [done|]. split; [done|].
    exists x. by rewrite Htag11 in Hx.
Qed.

Lemma split_at_0_8_leaves_samples_out_witness :
  (forall seed v, Permutation (example_shuffle seed v) v) /\
  split_lengths 10 lit_0_8 = Ok (8, 1) /\
  exists w' val_view train_view x y,
    export_voxel51_dataset_to_tfrecords example_shuffle "ten" example_filepaths
      "detections" lit_0_8 split_store (Ok ()) w' /\
    exports_of w' = [ ("/tf/dataset-export/run1/val/", val_view);
                      ("/tf/dataset-export/run1/train/", train_view) ] /\
    x <> y /\ x ∈ numbered_samples 10 /\ y ∈ numbered_samples 10 /\
    (x ∉ val_view) /\ (x ∉ train_view) /\
    (y ∉ val_view) /\ (y ∉ train_view).
Proof.
  split; [exact example_shuffle_permutes|].
  pose proof (split_at_0_8_leaves_samples_out example_shuffle
                example_shuffle_permutes) as H.
  cbv zeta in H. split; [exact (proj1 H)|].
  exact (proj1 (proj2 (proj2 H))).
Defined.

(** ** Binary64: exact operations *)

(** The number of binary digits of a mantissa is fixed by the powers of two
    around it. *)
Lemma digits2_pos_unique (m : positive) (d : Z) :
  2 ^ (d - 1) <= Zpos m < 2 ^ d -> Zpos (digits2_pos m) = d.
Proof.
  intros [Hlo Hhi]. destruct (digits2_pos_bounds m) as [Hlo' Hhi'].
  set (d' := Zpos (digits2_pos m)) in *.
  assert (Hd : 0 < d).
  { destruct (Z.le_gt_cases d 0) as [H|H]; [|done].
    assert (2 ^ d <= 2 ^ 0) by (apply Z.pow_le_mono_r; lia). simpl in *. lia. }
  destruct (Z.lt_trichotomy d' d) as [H|[H|H]]; [exfalso|done|exfalso].
  - assert (2 ^ d' <= 2 ^ (d - 1)) by (apply Z.pow_le_mono_r; lia). lia.
  - assert (2 ^ d <= 2 ^ (d' - 1)) by (apply Z.pow_le_mono_r; lia). lia.
Qed.

(** A mantissa of 53 digits times a power of two needs no rounding. *)
Lemma binary_round_aux_pow2 (s : bool) (mx : positive) (M ex k : Z) :
  Zpos (digits2_pos mx) = 53 -> 0 <= k -> M = Zpos mx * 2 ^ k ->
  -1074 <= ex + k <= 971 ->
  binary_round_aux prec emax s M ex loc_Exact = S754_finite s mx (ex + k).
Proof.
  intros Hd Hk -> He.
  pose proof (Z.pow_pos_nonneg 2 k ltac:(lia) Hk) as Hpk.
  destruct (digits2_pos_bounds mx) as [Hlo Hhi]. rewrite Hd in Hlo, Hhi.
  assert (HM : 0 < Zpos mx * 2 ^ k) by lia.
  destruct (binary_round_aux_shape s (Zpos mx * 2 ^ k) ex ltac:(lia))
    as (q & Hq1 & Hq2 & Hq3 & Hshape).
  cbv zeta in Hshape.
  assert (Hdig : Zdigits2 (Zpos mx * 2 ^ k) = 53 + k).
  { destruct (Zpos mx * 2 ^ k) as [|m'|m'] eqn:E; try lia. cbn [Zdigits2].
    apply digits2_pos_unique. rewrite <- E.
    replace (53 + k - 1) with (52 + k) by lia.
    rewrite !Z.pow_add_r by lia. simpl (2 ^ 52) in *. simpl (2 ^ 53) in *.
    nia. }
  set (p := Z.max 0 (fexp prec emax (Zdigits2 (Zpos mx * 2 ^ k) + ex) - ex)) in *.
  assert (Hp : p = k) by (unfold p; rewrite Hdig, fexp_unfold; lia).
  clearbody p. subst p.
  rewrite Z.div_mul in Hq1 by lia.
  assert (q = Zpos mx) as -> by nia.
  set (p2 := Z.max 0 (fexp prec emax (Zdigits2 (Zpos mx) + (ex + k)) - (ex + k)))
    in *.
  assert (Hp2 : p2 = 0).
  { unfold p2. cbn [Zdigits2]. rewrite Hd, fexp_unfold. lia. }
  clearbody p2. subst p2.
  rewrite Z.div_1_r in Hshape. rewrite Hshape.
  replace (ex + k + 0) with (ex + k) by lia.
  rewrite (proj2 (Z.leb_le _ _)); [done|]. unfold emax, prec. lia.
Qed.

Lemma shl_align_Z (mx : positive) (ex ex' : Z) :
  (shl_align mx ex ex').2 = Z.min ex ex' /\
  Zpos (shl_align mx ex ex').1 = Zpos mx * 2 ^ (ex - Z.min ex ex').
Proof.
  unfold shl_align. destruct (ex' - ex) as [|d|d] eqn:E; simpl.
  - split; [lia|]. replace (ex - Z.min ex ex') with 0 by lia. lia.
  - split; [lia|]. replace (ex - Z.min ex ex') with 0 by lia. lia.
  - rewrite Pos_iter_xO. split; [lia|]. f_equal. f_equal. lia.
Qed.

(** [float(n)] for a count below [2 ^ 53]: no rounding, the mantissa is
    the count shifted up to 53 digits. *)
Lemma float_of_int_exact (n : Z) :
  0 < n < 2 ^ 53 ->
  exists m e,
    float_of_int n = Ok (S754_finite false m e) /\
    Zpos (digits2_pos m) = 53 /\ -52 <= e <= 0 /\ Zpos m = n * 2 ^ (- e).
Proof.
  intros Hn. destruct n as [|p|p]; try lia.
  unfold float_of_int, binary_normalize, binary_round.
  destruct (digits2_pos_bounds p) as [Hlo Hhi].
  set (d := Zpos (digits2_pos p)) in *.
  assert (Hd1 : 1 <= d) by (unfold d; lia).
  assert (Hd53 : d <= 53).
  { destruct (Z.le_gt_cases d 53) as [|H]; [done|exfalso].
    assert (2 ^ 53 <= 2 ^ (d - 1)) by (apply Z.pow_le_mono_r; lia). lia. }
  rewrite fexp_unfold.
  destruct (shl_align_Z p 0 (Z.max (d + 0 - 53) (-1074))) as [He Hm].
  replace (Z.min 0 (Z.max (d + 0 - 53) (-1074))) with (d - 53) in He, Hm by lia.
  destruct (shl_align p 0 _) as [mz ez]. simpl in He, Hm. subst ez.
  replace (0 - (d - 53)) with (53 - d) in Hm by lia.
  assert (Hdz : Zpos (digits2_pos mz) = 53).
  { apply digits2_pos_unique. rewrite Hm.
    pose proof (Z.pow_pos_nonneg 2 (53 - d) ltac:(lia) ltac:(lia)).
    assert (E1 : 2 ^ (53 - 1) = 2 ^ (d - 1) * 2 ^ (53 - d)).
    { rewrite <- Z.pow_add_r by lia. f_equal. lia. }
    assert (E2 : 2 ^ 53 = 2 ^ d * 2 ^ (53 - d)).
    { rewrite <- Z.pow_add_r by lia. f_equal. lia. }
    rewrite E1, E2. nia. }
  rewrite (binary_round_aux_pow2 false mz (Zpos mz) (d - 53) 0) by (done || lia).
  exists mz, (d - 53). replace (d - 53 + 0) with (d - 53) by lia.
  split; [done|]. split; [done|]. split; [lia|].
  rewrite Hm. f_equal. f_equal. lia.
Qed.

(** Multiplying by a power of two within the normal range is exact. *)
Lemma SFmul_pow2 (mx : positive) (ex ey : Z) :
  Zpos (digits2_pos mx) = 53 -> -1074 <= ex + ey + 52 <= 971 ->
  SFmul prec emax (S754_finite false mx ex)
    (S754_finite false 4503599627370496 ey)
  = S754_finite false mx (ex + ey + 52).
Proof.
  intros Hd He. cbn [SFmul xorb].
  rewrite (binary_round_aux_pow2 false mx _ (ex + ey) 52); try done; lia.
Qed.

(** The floor of a count held in such a float, and of its half. *)
Lemma math_floor_shifted (n : Z) (m : positive) (e k : Z) :
  0 <= n -> e <= 0 -> 0 <= k -> Zpos m = n * 2 ^ (- e) ->
  math_floor (S754_finite false m (e - k)) = Ok (n / 2 ^ k).
Proof.
  intros Hn He Hk Hm. cbn [math_floor cond_Zopp]. f_equal.
  rewrite Z.shiftl_div_pow2, Hm by lia.
  replace (- (e - k)) with (- e + k) by lia.
  rewrite Z.pow_add_r, <- Z.div_div, Z.div_mul by lia. done.
Qed.

(** The two products and floors of lines 122-123 for a count below
    [2 ^ 53] and a factor [2 ^ (- k)]. *)
Lemma floor_mul_pow2 (N k : Z) :
  0 <= N < 2 ^ 53 -> 0 <= k <= 1 ->
  (x ← int_mul_float N (S754_finite false 4503599627370496 (-52 - k));
   math_floor x) = Ok (N / 2 ^ k).
Proof.
  intros HN Hk. unfold int_mul_float.
  destruct (decide (N = 0)) as [->|Hpos].
  { assert (k = 0 \/ k = 1) as [-> | ->] by lia; reflexivity. }
  destruct (float_of_int_exact N ltac:(lia)) as (m & e & -> & Hd & He & Hm).
  cbn [mbind outcome_bind].
  rewrite SFmul_pow2 by (done || lia).
  replace (e + (-52 - k) + 52) with (e - k) by lia.
  apply math_floor_shifted; (done || lia).
Qed.

Lemma floor_mul_zero (N : Z) (s : bool) :
  0 <= N < 2 ^ 53 ->
  (x ← int_mul_float N (S754_zero s); math_floor x) = Ok 0.
Proof.
  intros HN. unfold int_mul_float.
  destruct (decide (N = 0)) as [->|Hpos]; [by destruct s|].
  destruct (float_of_int_exact N ltac:(lia)) as (m & e & -> & _).
  reflexivity.
Qed.

Lemma split_lengths_1_0 (N : Z) :
  0 <= N < 2 ^ 53 -> split_lengths N lit_1_0 = Ok (N, 0).
Proof.
  intros HN.
  pose proof (floor_mul_pow2 N 0 HN ltac:(lia)) as H1.
  pose proof (floor_mul_zero N false HN) as H0.
  change (-52 - 0) with (-52) in H1. rewrite Z.pow_0_r, Z.div_1_r in H1.
  unfold split_lengths, lit_1_0.
  change (int_sub_float 1 (S754_finite false 4503599627370496 (-52)))
    with (Ok (S754_zero false)).
  cbn [mbind outcome_bind] in *.
  destruct (int_mul_float N (S754_finite false 4503599627370496 (-52)))
    as [x1| |]; try done.
  destruct (int_mul_float N (S754_zero false)) as [x0| |]; try done.
  cbn [mbind outcome_bind] in *. by rewrite H0, H1.
Qed.

(** X17.  The two lengths at the ends and in the middle of the range of
    [training_percentage], for a count below [2 ^ 53]: with 1.0 every
    sample counts for training and none for validation, with 0.0 it is the
    other way round, and with 0.5 each length is the count halved and
    rounded down, so that for an odd count the lengths add up to one less
    than the count. *)
Theorem split_lengths_extremes (N : Z) :
  0 <= N < 2 ^ 53 ->
  split_lengths N lit_1_0 = Ok (N, 0) /\
  split_lengths N lit_0_0 = Ok (0, N) /\
  split_lengths N lit_0_5 = Ok (N / 2, N / 2).
Proof.
  intros HN. split; [by apply split_lengths_1_0|].
  pose proof (floor_mul_pow2 N 0 HN ltac:(lia)) as H1.
  pose proof (floor_mul_pow2 N 1 HN ltac:(lia)) as H2.
  pose proof (floor_mul_zero N false HN) as H0.
  change (-52 - 0) with (-52) in H1. change (-52 - 1) with (-53) in H2.
  rewrite Z.pow_0_r, Z.div_1_r in H1. rewrite Z.pow_1_r in H2.
  unfold split_lengths, lit_0_0, lit_0_5.
  change (int_sub_float 1 (S754_zero false))
    with (Ok (S754_finite false 4503599627370496 (-52))).
  change (int_sub_float 1 (S754_finite false 4503599627370496 (-53)))
    with (Ok (S754_finite false 4503599627370496 (-53))).
  cbn [mbind outcome_bind] in *.
  destruct (int_mul_float N (S754_finite false 4503599627370496 (-52)))
    as [x1| |]; try done.
  destruct (int_mul_float N (S754_finite false 4503599627370496 (-53)))
    as [x2| |]; try done.
  destruct (int_mul_float N (S754_zero false)) as [x0| |]; try done.
  cbn [mbind outcome_bind] in *. rewrite H0, H1, H2. done.
Qed.

Lemma split_lengths_extremes_witness :
  split_lengths 7 lit_1_0 = Ok (7, 0) /\
  split_lengths 7 lit_0_0 = Ok (0, 7) /\
  split_lengths 7 lit_0_5 = Ok (7 / 2, 7 / 2).
Proof. apply (split_lengths_extremes 7). lia. Defined.





(** ** Binary64 rounding: the error from below *)

Lemma shr_1_sticky (m : Z) (r s : bool) :
  shr_s (shr_1 {| shr_m := m; shr_r := r; shr_s := s |}) = r || s.
Proof. by destruct m as [|[p|p|]|[p|p|]]. Qed.

(** After [n] halving steps the sticky bit tells whether a bit below the
    last one dropped was set. *)
Lemma shr_iter_sticky (n : nat) (m : Z) :
  0 <= m -> (0 < n)%nat ->
  shr_s (Nat.iter n shr_1 {| shr_m := m; shr_r := false; shr_s := false |})
  = negb (m mod 2 ^ (Z.of_nat n - 1) =? 0).
Proof.
  intros Hm Hn. induction n as [|n IH]; [lia|].
  rewrite Nat.iter_succ.
  destruct (decide (n = 0%nat)) as [->|Hn0].
  { change (Nat.iter 0 shr_1 ?x) with x. rewrite shr_1_sticky.
    change (Z.of_nat 1 - 1) with 0. by rewrite Z.pow_0_r, Z.mod_1_r. }
  specialize (IH ltac:(lia)).
  destruct (shr_iter_spec n m false false Hm) as [_ Hr].
  specialize (Hr ltac:(lia)).
  destruct (Nat.iter n shr_1 _) as [m' r' s']. simpl in IH, Hr.
  rewrite shr_1_sticky, IH, Hr.
  replace (Z.of_nat (S n) - 1) with (Z.of_nat n - 1 + 1) by lia.
  set (k := Z.of_nat n - 1). assert (Hk : 0 <= k) by lia.
  pose proof (Z.pow_pos_nonneg 2 k ltac:(lia) Hk) as Hpk.
  rewrite Z.pow_add_r, Z.pow_1_r by lia.
  rewrite Z.rem_mul_r by lia.
  pose proof (Z.mod_pos_bound m (2 ^ k) Hpk) as Hb.
  pose proof (Z.mod_pos_bound (m / 2 ^ k) 2 ltac:(lia)) as Hb2.
  rewrite <- Z.negb_even, Zeven_mod.
  destruct (Z.eqb_spec ((m / 2 ^ k) mod 2) 0) as [E1|E1];
  destruct (Z.eqb_spec (m mod 2 ^ k) 0) as [E2|E2]; simpl;
  symmetry; rewrite ?negb_true_iff, ?negb_false_iff;
  [apply Z.eqb_eq | apply Z.eqb_neq | apply Z.eqb_neq | apply Z.eqb_neq]; nia.
Qed.

(** Shifting right by [p] bits and rounding to nearest: the rounded
    mantissa is below the exact quotient by at most half a unit. *)
Lemma shr_round_lower (m p : Z) :
  0 <= m -> 0 <= p ->
  let mrs := (shr {| shr_m := m; shr_r := false; shr_s := false |} 0 p).1 in
  let q := round_nearest_even (shr_m mrs) (loc_of_shr_record mrs) in
  2 * m <= 2 * (q * 2 ^ p) + 2 ^ p.
Proof.
  intros Hm Hp. cbv zeta. unfold shr.
  destruct p as [|p|p]; [| |lia].
  - simpl. lia.
  - cbn [fst]. rewrite iter_pos_nat.
    destruct (shr_iter_spec (Pos.to_nat p) m false false Hm) as [H1 H2].
    pose proof (shr_iter_sticky (Pos.to_nat p) m Hm ltac:(lia)) as H3.
    rewrite positive_nat_Z in H1, H2, H3.
    specialize (H2 ltac:(lia)).
    destruct (Nat.iter _ _ _) as [m' r' s']. simpl in H1, H2, H3. simpl shr_m.
    pose proof (Z.pow_pos_nonneg 2 (Zpos p) ltac:(lia) ltac:(lia)) as Hpow.
    pose proof (Z.pow_pos_nonneg 2 (Zpos p - 1) ltac:(lia) ltac:(lia)) as Hh.
    assert (E2 : 2 ^ Zpos p = 2 ^ (Zpos p - 1) * 2).
    { replace (Zpos p) with (Zpos p - 1 + 1) at 1 by lia.
      rewrite Z.pow_add_r by lia. lia. }
    pose proof (Z.div_mod m (2 ^ Zpos p) ltac:(lia)) as Hdm.
    pose proof (Z.mod_pos_bound m (2 ^ Zpos p) Hpow) as Hmod.
    assert (Hrem : m mod 2 ^ Zpos p
                   = 2 ^ (Zpos p - 1) * ((m / 2 ^ (Zpos p - 1)) mod 2)
                     + m mod 2 ^ (Zpos p - 1)).
    { rewrite E2 at 1. rewrite Z.rem_mul_r by lia. lia. }
    pose proof (Z.mod_pos_bound m (2 ^ (Zpos p - 1)) Hh) as Hlow.
    pose proof (Z.mod_pos_bound (m / 2 ^ (Zpos p - 1)) 2 ltac:(lia)) as Hbit.
    subst m'.
    destruct r'.
    + destruct s'; simpl.
      * nia.
      * symmetry in H3. apply negb_false_iff, Z.eqb_eq in H3.
        assert (Hodd : (m / 2 ^ (Zpos p - 1)) mod 2 = 1).
        { symmetry in H2. rewrite <- Z.negb_even, Zeven_mod in H2.
          apply negb_true_iff, Z.eqb_neq in H2. lia. }
        destruct (Z.even (m / 2 ^ Zpos p)); nia.
    + assert (Heven : (m / 2 ^ (Zpos p - 1)) mod 2 = 0).
      { symmetry in H2. rewrite <- Z.negb_even, Zeven_mod in H2.
        apply negb_false_iff, Z.eqb_eq in H2. lia. }
      destruct s'; simpl; nia.
Qed.

Lemma Zdigits2_le (q d : Z) : 0 <= q < 2 ^ d -> 0 <= d -> Zdigits2 q <= d.
Proof.
  intros [Hq0 Hq] Hd. destruct q as [|m|m]; [done| |lia]. cbn [Zdigits2].
  destruct (digits2_pos_bounds m) as [Hlo _].
  destruct (Z.le_gt_cases (Zpos (digits2_pos m)) d) as [|H]; [done|exfalso].
  assert (2 ^ d <= 2 ^ (Zpos (digits2_pos m) - 1))
    by (apply Z.pow_le_mono_r; lia).
  lia.
Qed.

(** A rounding from an exact mantissa that is not negative, from below: the
    rounded value is short of the exact one by at most half a unit of the
    shift, and a carry out of the rounded mantissa loses nothing. *)
Lemma binary_round_aux_lower (s : bool) (mx ex : Z) :
  0 <= mx ->
  let p := Z.max 0 (fexp prec emax (Zdigits2 mx + ex) - ex) in
  match binary_round_aux prec emax s mx ex loc_Exact with
  | S754_zero _ => 2 * mx <= 2 ^ p
  | S754_finite _ m e =>
      ex + p <= e /\ 2 * mx <= 2 * (Zpos m * 2 ^ (e - ex)) + 2 ^ p
  | S754_infinity _ => True
  | S754_nan => False
  end.
Proof.
  intros Hmx p.
  unfold binary_round_aux, shr_fexp. cbn [shr_record_of_loc].
  set (n := fexp prec emax (Zdigits2 mx + ex) - ex).
  destruct (shr_components {| shr_m := mx; shr_r := false; shr_s := false |} ex n)
    as [Hc1 Hc2].
  destruct (shr _ ex n) as [mrs' e'] eqn:E1. simpl in Hc1, Hc2.
  destruct (shr_round_upper mx p Hmx ltac:(lia)) as (Hq1 & Hq2 & Hq3).
  pose proof (shr_round_lower mx p Hmx ltac:(lia)) as Hq4. cbv zeta in Hq4.
  change (Z.max 0 n) with p in Hc1, Hc2.
  rewrite <- Hc1 in Hq1, Hq2, Hq3, Hq4.
  set (q := round_nearest_even (shr_m mrs') (loc_of_shr_record mrs')) in *.
  pose proof (Z.pow_pos_nonneg 2 p ltac:(lia) ltac:(lia)) as Hpp.
  assert (Hq : 0 <= q).
  { pose proof (Z.div_pos mx (2 ^ p) Hmx ltac:(lia)). lia. }
  subst e'.
  set (n2 := fexp prec emax (Zdigits2 q + (ex + p)) - (ex + p)).
  pose proof (shr_exact_m q (ex + p) n2 Hq) as Hm2.
  destruct (shr_components {| shr_m := q; shr_r := false; shr_s := false |}
              (ex + p) n2) as [_ He2].
  destruct (shr _ (ex + p) n2) as [mrs'' e''] eqn:E2. simpl in Hm2, He2.
  rewrite Hm2. subst e''.
  set (p2 := Z.max 0 n2) in *.
  pose proof (Z.pow_pos_nonneg 2 p2 ltac:(lia) ltac:(lia)) as Hpp2.
  (* the rounded mantissa has at most 53 digits, or is 2 ^ 53 *)
  assert (Hcarry : q / 2 ^ p2 * 2 ^ p2 = q).
  { assert (Hdm : mx < 2 ^ Zdigits2 mx).
    { destruct mx as [|m|m]; [done| |lia]. cbn [Zdigits2].
      apply digits2_pos_bounds. }
    assert (Hdm0 : 0 <= Zdigits2 mx) by (destruct mx; simpl; lia).
    assert (HF : -1074 <= ex + p /\ Zdigits2 mx - 53 <= p).
    { unfold p, n. rewrite fexp_unfold. lia. }
    assert (Hq53 : q <= 2 ^ 53).
    { destruct (decide (p = 0)) as [Hp0|Hp0].
      - rewrite (Hq3 Hp0).
        assert (2 ^ Zdigits2 mx <= 2 ^ 53) by (apply Z.pow_le_mono_r; lia).
        lia.
      - assert (Hle : 2 ^ Zdigits2 mx <= 2 ^ (p + 53))
          by (apply Z.pow_le_mono_r; lia).
        rewrite Z.pow_add_r in Hle by lia. nia. }
    destruct (decide (q = 2 ^ 53)) as [Hqe|Hqne].
    - assert (Hp2 : p2 = 1).
      { unfold p2, n2. rewrite Hqe. change (Zdigits2 (2 ^ 53)) with 54.
        rewrite fexp_unfold. lia. }
      rewrite Hp2, Hqe. reflexivity.
    - assert (Hdq : Zdigits2 q <= 53) by (apply Zdigits2_le; lia).
      assert (Hp2 : p2 = 0).
      { unfold p2, n2. rewrite fexp_unfold. lia. }
      rewrite Hp2. rewrite Z.pow_0_r, Z.div_1_r. lia. }
  destruct (q / 2 ^ p2) as [|m|m] eqn:Hdiv.
  - assert (q = 0) by lia. subst q. lia.
  - destruct (ex + p + p2 <=? emax - prec); [|done].
    split; [lia|].
    replace (ex + p + p2 - ex) with (p2 + p) by lia.
    rewrite Z.pow_add_r by lia. nia.
  - pose proof (Z.div_pos q (2 ^ p2) Hq Hpp2). lia.
Qed.

(** Rounding takes away at most [2 ^ (B - 54)] from a value below
    [2 ^ B]. *)
Lemma binary_round_aux_lower_Q (mx ex B : Z) :
  0 <= mx -> (F2Q mx ex < 2 ^ B)%Q -> -1021 <= B <= 971 ->
  (F2Q mx ex - 2 ^ (B - 54)
   <= value (binary_round_aux prec emax false mx ex loc_Exact))%Q.
Proof.
  intros Hmx Hlt HB.
  pose proof (pow2_pos (B - 54)) as Hs.
  pose proof (binary_round_aux_lower false mx ex Hmx) as Hlow. cbv zeta in Hlow.
  destruct (decide (mx = 0)) as [->|Hne].
  { assert (E : (F2Q 0 ex == 0)%Q).
    { unfold F2Q. change (inject_Z 0) with 0%Q. ring. }
    rewrite E.
    destruct (binary_round_aux_bounded false 0 ex B ltac:(lia) Hlt HB)
      as [-> | (m & e & -> & _ & _)].
    - simpl. revert Hs. generalize (2 ^ (B - 54))%Q. clear. intros. lra.
    - pose proof (value_nonneg (S754_finite false m e) I) as Hv.
      revert Hs Hv. generalize (2 ^ (B - 54))%Q (value (S754_finite false m e)).
      clear. intros. lra. }
  assert (Hpos : 0 < mx) by lia.
  pose proof (digits_of_small mx ex B Hpos Hlt) as Hdig.
  set (F := fexp prec emax (Zdigits2 mx + ex)) in *.
  assert (HF : F <= B - 53) by (unfold F; rewrite fexp_unfold; lia).
  set (p := Z.max 0 (F - ex)) in *.
  pose proof (pow2_pos ex) as Hex.
  assert (Hhalf : p <> 0 -> (2 * 2 ^ (B - 54) >= 2 ^ p * 2 ^ ex)%Q).
  { intros Hp0. rewrite <- pow2_add. replace (p + ex) with F by lia.
    pose proof (pow2_double (B - 53)) as E.
    replace (B - 53 - 1) with (B - 54) in E by lia. rewrite E.
    apply Qle_ge, pow2_le. lia. }
  destruct (binary_round_aux_bounded false mx ex B Hmx Hlt HB)
    as [Hz | (m & e & Hr & _ & _)].
  - rewrite Hz in Hlow |- *. simpl.
    destruct (decide (p = 0)) as [Hp0|Hp0].
    { rewrite Hp0 in Hlow. simpl in Hlow. lia. }
    specialize (Hhalf Hp0).
    assert (HQ : (2 * inject_Z mx <= 2 ^ p)%Q).
    { rewrite <- pow2_inject by lia. change 2%Q with (inject_Z 2).
      rewrite <- inject_Z_mult, <- Zle_Qle. done. }
    unfold F2Q. revert Hhalf HQ Hex.
    generalize (2 ^ p)%Q (2 ^ ex)%Q (2 ^ (B - 54))%Q (inject_Z mx). clear.
    intros P X T a Hhalf HQ Hex. nra.
  - rewrite Hr in Hlow |- *. destruct Hlow as [He Hlow]. cbn [value cond_Zopp].
    set (A := Zpos m * 2 ^ (e - ex)) in *.
    assert (HA : (F2Q (Zpos m) e == F2Q A ex)%Q).
    { unfold A. rewrite F2Q_shift by lia. by replace (ex + (e - ex)) with e by lia. }
    rewrite HA.
    destruct (decide (p = 0)) as [Hp0|Hp0].
    + rewrite Hp0 in Hlow. simpl in Hlow.
      pose proof (F2Q_le mx A ex ltac:(lia)) as Hle.
      revert Hle Hs. generalize (F2Q mx ex) (F2Q A ex) (2 ^ (B - 54))%Q. clear.
      intros. lra.
    + specialize (Hhalf Hp0).
      assert (HQ : (2 * inject_Z mx <= 2 * inject_Z A + 2 ^ p)%Q).
      { rewrite <- pow2_inject by lia. change 2%Q with (inject_Z 2).
        rewrite <- !inject_Z_mult, <- inject_Z_plus, <- Zle_Qle. done. }
      unfold F2Q. revert Hhalf HQ Hex.
      generalize (2 ^ p)%Q (2 ^ ex)%Q (2 ^ (B - 54))%Q (inject_Z mx) (inject_Z A).
      clear. intros P X T a b Hhalf HQ Hex. nra.
Qed.

Lemma binary_round_lower (mx : positive) (ex B : Z) :
  (F2Q (Zpos mx) ex < 2 ^ B)%Q -> -1021 <= B <= 971 ->
  (F2Q (Zpos mx) ex - 2 ^ (B - 54)
   <= value (binary_round prec emax false mx ex))%Q.
Proof.
  intros Hlt HB. unfold binary_round.
  destruct (shl_align_value mx ex
              (fexp prec emax (Zpos (digits2_pos mx) + ex))) as [Hv _].
  destruct (shl_align mx ex _) as [mz ez]. simpl in Hv.
  rewrite <- Hv in Hlt |- *.
  by apply binary_round_aux_lower_Q.
Qed.

(** The product of two floats that are not negative, from below. *)
Lemma SFmul_lower (x y : spec_float) (B : Z) :
  nonneg_finite x -> nonneg_finite y ->
  (value x * value y < 2 ^ B)%Q -> -1021 <= B <= 971 ->
  (value x * value y - 2 ^ (B - 54) <= value (SFmul prec emax x y))%Q.
Proof.
  intros Hx Hy Hlt HB.
  pose proof (pow2_pos (B - 54)) as Hs.
  assert (Hz : (0 * value y == 0)%Q) by ring.
  assert (Hz' : (value x * 0 == 0)%Q) by ring.
  destruct x as [sx| | |[] mx ex]; try done;
  destruct y as [sy| | |[] my ey]; try done;
    try (cbn [SFmul value]; rewrite ?Hz, ?Hz'; simpl;
         revert Hs; generalize (2 ^ (B - 54))%Q; clear; intros; lra).
  cbn [SFmul xorb value cond_Zopp] in *.
  rewrite <- F2Q_mul in Hlt |- *.
  change (Zpos mx * Zpos my) with (Zpos (mx * my)) in *.
  by apply binary_round_aux_lower_Q.
Qed.

(** [1 - f] for a fraction [f], from below. *)
Lemma int_sub_float_lower (f g : spec_float) :
  nonneg_finite f -> (value f <= 1)%Q -> int_sub_float 1 f = Ok g ->
  (1 - value f - 2 ^ (-54) <= value g)%Q.
Proof.
  intros Hf Hle. unfold int_sub_float.
  change (float_of_int 1) with (Ok (S754_finite false 4503599627370496 (-52))).
  cbn [mbind outcome_bind]. intros [= <-].
  assert (Hs : (0 < 2 ^ (-54))%Q) by (by vm_compute).
  destruct f as [s| | |[] mf ef]; try done.
  cbn [SFsub cond_Zopp value] in *.
  set (ez := Z.min (-52) ef).
  destruct (shl_align_value 4503599627370496 (-52) ez) as [Hv1 He1].
  destruct (shl_align_value mf ef ez) as [Hv2 He2].
  replace (Z.min (-52) ez) with ez in He1 by lia.
  replace (Z.min ef ez) with ez in He2 by lia.
  rewrite He1 in Hv1. rewrite He2 in Hv2.
  set (m1 := (shl_align 4503599627370496 (-52) ez).1) in *.
  set (m2 := (shl_align mf ef ez).1) in *.
  assert (H1 : (F2Q (Zpos 4503599627370496) (-52) == 1)%Q) by (by vm_compute).
  rewrite H1 in Hv1.
  assert (HD : (F2Q (Zpos m1 - Zpos m2) ez == 1 - F2Q (Zpos mf) ef)%Q).
  { by rewrite F2Q_sub, Hv1, Hv2. }
  assert (Hpos : (0 < F2Q (Zpos mf) ef)%Q).
  { unfold F2Q. apply Qmult_lt_0_compat; [|apply pow2_pos].
    by rewrite <- (Zlt_Qlt 0). }
  unfold binary_normalize.
  destruct (Zpos m1 - Zpos m2) as [|d|d] eqn:ED.
  - simpl.
    assert (H0 : (F2Q 0 ez == 0)%Q).
    { unfold F2Q. change (inject_Z 0) with 0%Q. ring. }
    rewrite H0 in HD.
    revert HD Hs. generalize (F2Q (Zpos mf) ef) (2 ^ (-54))%Q. clear.
    intros a b HD Hs. lra.
  - assert (Hlt : (F2Q (Zpos d) ez < 2 ^ 0)%Q).
    { rewrite HD. simpl. revert Hpos. generalize (F2Q (Zpos mf) ef).
      clear. intros. lra. }
    pose proof (binary_round_lower d ez 0 Hlt ltac:(lia)) as Hlow.
    rewrite HD in Hlow. exact Hlow.
  - exfalso.
    assert (Hneg : (F2Q (Zneg d) ez < 0)%Q).
    { unfold F2Q. pose proof (pow2_pos ez) as He.
      assert (Hd : (inject_Z (Zneg d) < 0)%Q) by (by rewrite <- (Zlt_Qlt _ 0)).
      revert He Hd. generalize (2 ^ ez)%Q (inject_Z (Zneg d)). clear. intros. nra. }
    rewrite HD in Hneg. revert Hle Hneg. generalize (F2Q (Zpos mf) ef).
    clear. intros. lra.
Qed.

(** [math.floor] of a finite float is the integer just below or at its
    value. *)
Lemma math_floor_finite (s : bool) (m : positive) (e : Z) :
  let t := Z.shiftl (cond_Zopp s (Zpos m)) e in
  (inject_Z t <= value (S754_finite s m e) < inject_Z t + 1)%Q.
Proof.
  cbv zeta. cbn [value]. set (M := cond_Zopp s (Zpos m)).
  destruct (Z.le_gt_cases 0 e) as [He|He].
  - rewrite Z.shiftl_mul_pow2 by done.
    rewrite <- F2Q_0, F2Q_shift by done. rewrite Z.add_0_l.
    generalize (F2Q M e). intros a. split; lra.
  - rewrite Z.shiftl_div_pow2 by lia.
    pose proof (Z.pow_pos_nonneg 2 (- e) ltac:(lia) ltac:(lia)) as Hp.
    set (t := M / 2 ^ (- e)).
    assert (E : forall z, (inject_Z z == F2Q (z * 2 ^ (- e)) e)%Q).
    { intros z. rewrite F2Q_shift by lia. replace (e + - e) with 0 by lia.
      by rewrite F2Q_0. }
    pose proof (Z.mul_div_le M (2 ^ (- e)) Hp) as Hlo.
    pose proof (Z.mul_succ_div_gt M (2 ^ (- e)) Hp) as Hhi.
    fold t in Hlo, Hhi.
    split.
    + rewrite E. apply F2Q_le. lia.
    + change 1%Q with (inject_Z 1). rewrite <- inject_Z_plus, E.
      unfold F2Q. apply Qmult_lt_compat_r; [apply pow2_pos|].
      rewrite <- Zlt_Qlt. lia.
Qed.

(** X19.  [math.floor] as lines 122-123 use it: on a float that is zero or
    finite it returns the one integer [t] with [t <= x < t + 1], whatever
    the sign of [x]; on a NaN and on an infinity it raises, so the splitter
    exports nothing for them. *)
Theorem math_floor_is_floor (x : spec_float) :
  match x with
  | S754_zero _ | S754_finite _ _ _ =>
      exists t, math_floor x = Ok t /\
                (inject_Z t <= value x < inject_Z t + 1)%Q
  | S754_infinity _ | S754_nan => exists e, math_floor x = Raised e
  end.
Proof.
  destruct x as [s|s| |s m e].
  - exists 0. split; [done|]. simpl. change (inject_Z 0) with 0%Q. split; lra.
  - by eexists.
  - by eexists.
  - eexists. split; [reflexivity|]. apply math_floor_finite.
Qed.

Lemma float_of_int_value (N : Z) :
  0 <= N < 2 ^ 53 ->
  exists x, float_of_int N = Ok x /\ nonneg_finite x /\
            (value x == inject_Z N)%Q.
Proof.
  intros HN. destruct (decide (N = 0)) as [->|Hne].
  { exists (S754_zero false). split; [done|]. split; [done|]. reflexivity. }
  destruct (float_of_int_exact N ltac:(lia)) as (m & e & Hx & _ & He & Hm).
  exists (S754_finite false m e). split; [done|]. split; [done|].
  cbn [value cond_Zopp]. rewrite Hm, F2Q_shift by lia.
  replace (e + - e) with 0 by lia. apply F2Q_0.
Qed.

Lemma math_floor_upper (x : spec_float) (t : Z) :
  nonneg_finite x -> math_floor x = Ok t -> (value x < inject_Z t + 1)%Q.
Proof.
  destruct x as [s| | |[] m e]; try done; intros _ [= <-].
  - simpl. change (inject_Z 0) with 0%Q. lra.
  - apply math_floor_finite.
Qed.

(** X20.  How much the two floors lose.  For a count below [2 ^ 49] and a
    fraction in [0, 1] the two lengths are computed, neither is negative,
    together they do not exceed the count, and they fall short of it by at
    most two. *)
Theorem split_lengths_leave_out_at_most_two (N : Z) (f : spec_float) :
  0 <= N < 2 ^ 49 -> is_fraction f = true ->
  exists train_len val_len,
    split_lengths N f = Ok (train_len, val_len) /\
    0 <= train_len /\ 0 <= val_len /\
    N - 2 <= train_len + val_len <= N.
Proof.
  intros HN Hf.
  destruct (split_lengths_sum N f HN Hf) as (t & v & Hsplit & Ht & Hv & Hsum).
  exists t, v. split; [done|]. split; [done|]. split; [done|]. split; [|done].
  apply is_fraction_value in Hf as [Hnf Hle].
  pose proof (value_nonneg f Hnf) as Hfpos.
  assert (HN53 : 0 <= N < 2 ^ 53).
  { assert (2 ^ 49 <= 2 ^ 53) by (by vm_compute). lia. }
  destruct (float_of_int_value N HN53) as (x0 & Hx0 & Hx0nf & Hx0v).
  destruct (int_sub_float_bounded f Hnf Hle) as (g & Hg & Hgnf & Hgv).
  pose proof (int_sub_float_lower f g Hnf Hle Hg) as Hgl.
  pose proof (value_nonneg g Hgnf) as Hgpos.
  unfold split_lengths, int_mul_float in Hsplit.
  rewrite Hx0, Hg in Hsplit. cbn [mbind outcome_bind] in Hsplit.
  destruct (math_floor (SFmul prec emax x0 f)) as [t'| |] eqn:Ht';
    cbn [mbind outcome_bind] in Hsplit; try done.
  destruct (math_floor (SFmul prec emax x0 g)) as [v'| |] eqn:Hv';
    cbn [mbind outcome_bind] in Hsplit; try done.
  injection Hsplit as -> ->.
  assert (HNq : (inject_Z N < 2 ^ 49)%Q).
  { rewrite <- pow2_inject by lia. rewrite <- Zlt_Qlt. lia. }
  assert (HN0 : (0 <= inject_Z N)%Q) by (rewrite <- (Zle_Qle 0); lia).
  assert (E5 : (2 ^ (49 - 54) == 1 # 32)%Q) by (by vm_compute).
  assert (E4 : (2 ^ (50 - 54) == 1 # 16)%Q) by (by vm_compute).
  assert (E54 : (2 ^ (-54) == 1 # 18014398509481984)%Q) by (by vm_compute).
  assert (E49 : (2 ^ 49 == 562949953421312)%Q) by (by vm_compute).
  assert (E50 : (2 ^ 50 == 1125899906842624)%Q) by (by vm_compute).
  rewrite E54 in Hgv, Hgl.
  assert (Hlt1 : (value x0 * value f < 2 ^ 49)%Q).
  { rewrite Hx0v, E49. rewrite E49 in HNq. revert HN0 HNq Hfpos Hle.
    generalize (inject_Z N) (value f). clear. intros n F. intros. nra. }
  assert (Hlt2 : (value x0 * value g < 2 ^ 50)%Q).
  { rewrite Hx0v, E50. rewrite E49 in HNq. revert HN0 HNq Hgv Hgpos Hfpos Hle.
    generalize (inject_Z N) (value f) (value g). clear. intros n F G. intros.
    nra. }
  destruct (SFmul_bounded x0 f 49 Hx0nf Hnf Hlt1 ltac:(lia)) as [Hp1nf _].
  destruct (SFmul_bounded x0 g 50 Hx0nf Hgnf Hlt2 ltac:(lia)) as [Hp2nf _].
  pose proof (SFmul_lower x0 f 49 Hx0nf Hnf Hlt1 ltac:(lia)) as Hp1.
  pose proof (SFmul_lower x0 g 50 Hx0nf Hgnf Hlt2 ltac:(lia)) as Hp2.
  pose proof (math_floor_upper _ _ Hp1nf Ht') as Htu.
  pose proof (math_floor_upper _ _ Hp2nf Hv') as Hvu.
  rewrite Hx0v, E5 in Hp1. rewrite Hx0v, E4 in Hp2. rewrite E49 in HNq.
  assert (Hgoal : (inject_Z N < inject_Z (t + v + 3))%Q).
  { rewrite !inject_Z_plus. change (inject_Z 3) with 3%Q.
    revert HN0 HNq Hfpos Hle Hgl Hp1 Hp2 Htu Hvu.
    generalize (inject_Z N) (value f) (value g)
               (value (SFmul prec emax x0 f)) (value (SFmul prec emax x0 g))
               (inject_Z t) (inject_Z v). clear.
    intros n F G P R t v. intros.
    assert (H1 : (n * G >= n * (1 - F - (1 # 18014398509481984)))%Q) by nra.
    assert (H2 : (n * (1 # 18014398509481984) <= 1 # 32)%Q) by nra.
    assert (H3 : (n * F + n * G >= n - (1 # 32))%Q) by nra.
    assert (H4 : (P + R >= n - (1 # 8))%Q) by lra.
    lra. }
  rewrite <- Zlt_Qlt in Hgoal. lia.
Qed.

Lemma split_lengths_leave_out_at_most_two_witness :
  exists train_len val_len,
    split_lengths 10 lit_0_8 = Ok (train_len, val_len) /\
    0 <= train_len /\ 0 <= val_len /\
    10 - 2 <= train_len + val_len <= 10.
Proof.
  apply (split_lengths_leave_out_at_most_two 10 lit_0_8); [lia | reflexivity].
Defined.

(** ** Base Training Configuration: the command that is run *)

Lemma is_whitespace_snoc (word : string) (c : ascii) :
  has_whitespace (snoc word c) = has_whitespace word || is_whitespace c.
Proof.
  unfold snoc. induction word as [|a word IH]; simpl.
  - by rewrite orb_false_r.
  - by rewrite IH, orb_assoc.
Qed.

Lemma snoc_not_empty (word : string) (c : ascii) : snoc word c <> "".
Proof. unfold snoc. by destruct word. Qed.

(** The words of a split are not empty and hold no whitespace. *)
Lemma split_from_words (text word : string) (x : string) :
  has_whitespace word = false ->
  x ∈ split_from text word -> x <> "" /\ has_whitespace x = false.
Proof.
  revert word. induction text as [|c text IH]; intros word Hword; simpl.
  - destruct word; [by intros ?%elem_of_nil|].
    by intros ->%list_elem_of_singleton.
  - destruct (is_whitespace c) eqn:Hc.
    + destruct word as [|a word].
      * by apply IH.
      * intros [->|Hx]%elem_of_cons; [done|]. by apply (IH "").
    + apply IH. by rewrite is_whitespace_snoc, Hword, Hc.
Qed.

(** A run without whitespace is read into the word. *)
Lemma split_from_run (run text word : string) :
  has_whitespace run = false ->
  split_from (run +:+ text) word = split_from text (word +:+ run).
Proof.
  revert word. induction run as [|c run IH]; intros word Hrun; simpl.
  - by rewrite append_nil_r.
  - simpl in Hrun. apply orb_false_iff in Hrun as [Hc Hrun].
    rewrite Hc, IH by done. by rewrite snoc_app.
Qed.

Lemma split_clean (text : string) :
  text <> "" -> has_whitespace text = false -> split text = [text].
Proof.
  intros Hne Hclean. unfold split.
  rewrite <- (append_nil_r text) at 1.
  rewrite split_from_run by done. simpl. by destruct text.
Qed.

Lemma has_whitespace_app (a b : string) :
  has_whitespace (a +:+ b) = has_whitespace a || has_whitespace b.
Proof.
  induction a as [|c a IH]; simpl; [done|]. by rewrite IH, orb_assoc.
Qed.

Lemma install_command_split (url : string) :
  split (install_command url)
  = "./install_base_training_config.sh" :: split url.
Proof.
  unfold split, install_command.
  change ("./install_base_training_config.sh " +:+ url)
    with ("./install_base_training_config.sh" +:+ String " " url).
  rewrite split_from_run by reflexivity. reflexivity.
Qed.

(** X21.  The command line of line 261, for a base pipeline file named in
    ASCII.  The program that is run is always the install script; the
    words after it are the parts of the URL between its whitespace, none
    empty.  The script gets the URL, whole and as its one argument,
    exactly when the name of the base pipeline file holds no whitespace:
    a name with a space in it is passed on in pieces. *)
Theorem download_command_line (base_pipeline_file : string) :
  is_ascii base_pipeline_file = true ->
  let url := config_file_url base_pipeline_file in
  exists arguments,
    split (install_command url)
    = "./install_base_training_config.sh" :: arguments /\
    (forall x, x ∈ arguments -> x <> "" /\ has_whitespace x = false) /\
    (arguments = [url] <-> has_whitespace base_pipeline_file = false).
Proof.
  intros _ url. exists (split url).
  split; [apply install_command_split|].
  split; [intros x; by apply split_from_words|].
  assert (Hurl : has_whitespace url = has_whitespace base_pipeline_file).
  { unfold url, config_file_url. by rewrite has_whitespace_app. }
  split.
  - intros Heq.
    destruct (split_from_words url "" url eq_refl) as [_ Hclean].
    + fold (split url). rewrite Heq. by apply list_elem_of_singleton.
    + by rewrite <- Hurl.
  - intros Hclean. apply split_clean; [|by rewrite Hurl].
    unfold url, config_file_url. simpl. discriminate.
Qed.

Lemma download_command_line_witness :
  exists arguments,
    split (install_command (config_file_url "ssd 640.config"))
    = "./install_base_training_config.sh" :: arguments /\
    (forall x, x ∈ arguments -> x <> "" /\ has_whitespace x = false) /\
    (arguments = [config_file_url "ssd 640.config"]
     <-> has_whitespace "ssd 640.config" = false).
Proof. apply (download_command_line "ssd 640.config"). reflexivity. Defined.

(** X22.  [download_base_training_config] on the dict of [set_filenames],
    for a base pipeline file named in ASCII without whitespace: the
    process run is the install script with one argument, the URL of that
    file under the configs/tf2/ directory of the TensorFlow models
    repository.  The function returns, and logs that it has finished,
    exactly when the process returns 0; any other return code is raised
    as [CalledProcessError] with no such log line. *)
Theorem download_base_training_config_runs_script
    (subprocess_run : list string -> World -> outcome Z * World)
    (base_models : gmap string (gmap string string))
    (training_name chosen_model base_pipeline_file : string)
    (m filepaths : gmap string string) (w : World) :
  set_filenames base_models training_name chosen_model = Ok filepaths ->
  base_models !! chosen_model = Some m ->
  m !! "base_pipeline_file" = Some base_pipeline_file ->
  is_ascii base_pipeline_file = true ->
  has_whitespace base_pipeline_file = false ->
  let w1 := emit (EvLogInfo "Downloading base training configuration file.") w in
  let started :=
    subprocess_run [ "./install_base_training_config.sh";
                     config_file_url base_pipeline_file ] w1 in
  download_base_training_config subprocess_run filepaths w
  = match started.1 with
    | Ok returncode =>
        if returncode =? 0 then
          (Ok (),
           emit (EvLogInfo "Finished downloading base training configuration file.")
             started.2)
        else (Raised (CalledProcessError returncode), started.2)
    | Raised e => (Raised e, started.2)
    | Exited st => (Exited st, started.2)
    end.
Proof.
  intros (m' & bpf & mn & pc & Hm' & Hb & _ & _ & ->)%set_filenames_Ok
         Hm Hbpf Hascii Hclean.
  assert (m' = m) as -> by congruence.
  assert (bpf = base_pipeline_file) as -> by congruence.
  cbv zeta. unfold download_base_training_config, getitem.
  assert (Hkey : filepaths_of training_name base_pipeline_file mn pc
                 !! "base_pipeline_file" = Some base_pipeline_file).
  { unfold filepaths_of. by simplify_map_eq. }
  rewrite Hkey.
  rewrite install_command_split, split_clean.
  2: { unfold config_file_url. simpl. discriminate. }
  2: { unfold config_file_url. by rewrite has_whitespace_app. }
  destruct (subprocess_run _ _) as [[returncode|e|st] w2]; simpl; [|done..].
  by destruct (returncode =? 0).
Qed.

Lemma download_base_training_config_runs_script_witness :
  download_base_training_config example_process
    (filepaths_of "run1" "ssd.config" "ssd" "ssd.config") example_store
  = (Ok (),
     emit (EvLogInfo "Finished downloading base training configuration file.")
       (emit (EvLogInfo "Downloading base training configuration file.")
          example_store)).
Proof.
  assert (Hset : set_filenames example_base_models "run1" "ssd"
                 = Ok (filepaths_of "run1" "ssd.config" "ssd" "ssd.config"))
    by reflexivity.
  exact (download_base_training_config_runs_script example_process
           example_base_models "run1" "ssd" "ssd.config"
           {[ "base_pipeline_file" := "ssd.config"; "model_name" := "ssd";
              "pretrained_checkpoint" := "ssd.config" ]}
           _ example_store Hset eq_refl eq_refl eq_refl eq_refl).
Defined.

(** ** From the dataset to the class count *)

(** X23.  The three steps on one training, in the order of use, on a
    dataset that has the label field: the mapping is created from the
    dataset, saved through the dict of [set_filenames] into the existing
    directory /tf/dataset-export/<name>, and counted from the file.  Each
    step returns, and the count is the number of different labels that the
    detections of the samples tagged "training" carry in the label field,
    cut at 90; it does not depend on the seeded shuffle. *)
Theorem class_count_of_dataset
    (shuffle : Z -> list Sample -> list Sample)
    (base_models : gmap string (gmap string string))
    (training_name chosen_model dataset_name label_field : string)
    (filepaths : gmap string string) (w0 : World) (dataset : list Sample) :
  (forall seed v, Permutation (shuffle seed v) v) ->
  set_filenames base_models training_name chosen_model = Ok filepaths ->
  datasets w0 !! dataset_name = Some dataset ->
  label_field ∈ fo.get_field_schema dataset ->
  "/tf/dataset-export/" +:+ training_name ∈ dirs w0 ->
  ("/tf/dataset-export/" +:+ training_name) +:+ "/label_map.pbtxt" ∉ dirs w0 ->
  let labels : gset string :=
    list_to_set (scanned_labels (fo.match_tags "training" dataset) label_field) in
  exists mapping w1 w2,
    create_detection_mapping shuffle dataset_name label_field w0 = (Ok mapping, w1) /\
    save_mapping_to_file mapping filepaths w1 = (Ok (), w2) /\
    (get_num_classes_from_label_map filepaths w2).1
      = Ok (Z.min (Z.of_nat (size labels)) 90).
Proof.
  intros Hperm Hset Hds Hfield Hdir Hfile labels.
  destruct (create_detection_mapping_run shuffle dataset_name label_field w0
              dataset Hds Hfield) as (w1 & Hcreate & Hdirs & Hfiles).
  set (view := shuffle 2021 (fo.match_tags "training" dataset)) in *.
  set (class_names :=
         fold_left add_label (scanned_labels view label_field) []) in *.
  apply set_filenames_Ok in Hset as (m & bpf & mn & pc & _ & _ & _ & _ & ->).
  assert (Hpath : filepaths_of training_name bpf mn pc !! "label_map_file"
                  = Some (("/tf/dataset-export/" +:+ training_name)
                          +:+ "/label_map.pbtxt")).
  { rewrite scoped_lookup by (unfold scoped_keys; set_solver).
    cbn [scoped_shape String.eqb Ascii.eqb Bool.eqb fst snd].
    by rewrite append_assoc. }
  pose proof (save_mapping_to_file_cases
                (MessageToBytes (label_map_of class_names))
                (filepaths_of training_name bpf mn pc) w1) as Hsave.
  cbv zeta in Hsave. rewrite Hpath in Hsave.
  unfold parent_exists in Hsave. rewrite dirname_label_map, Hdirs in Hsave.
  cbn [String.append] in Hsave, Hdir, Hfile.
  rewrite (bool_decide_eq_true_2 _ Hdir), (bool_decide_eq_false_2 _ Hfile) in Hsave.
  simpl in Hsave.
  eexists _, w1, _. split; [exact Hcreate|]. split; [exact Hsave|].
  rewrite (get_num_classes_written (label_map_of class_names) _ _ _ Hpath).
  - rewrite num_classes_of_label_map_of. do 3 f_equal.
    destruct (class_names_members view label_field) as [Hnd Hin].
    fold class_names in Hnd, Hin.
    rewrite <- (size_list_to_set (C := gset string) class_names) by done.
    f_equal. apply set_eq. intros x. unfold labels.
    rewrite !elem_of_list_to_set, Hin, !elem_of_scanned_labels.
    split; intros (s & detections & d & Hs & Hrest);
      exists s, detections, d; (split; [|done]).
    + unfold view in Hs. by rewrite (Hperm 2021 _) in Hs.
    + unfold view. by rewrite (Hperm 2021 _).
  - simpl. apply lookup_insert_eq.
  - apply _validate_label_map_of.
Qed.

Lemma class_count_of_dataset_witness :
  exists mapping w1 w2,
    create_detection_mapping example_shuffle "pets" "detections" example_store
      = (Ok mapping, w1) /\
    save_mapping_to_file mapping
      (filepaths_of "run1" "ssd.config" "ssd" "ssd.config") w1 = (Ok (), w2) /\
    (get_num_classes_from_label_map
       (filepaths_of "run1" "ssd.config" "ssd" "ssd.config") w2).1 = Ok 2.
Proof.
  assert (Hset : set_filenames example_base_models "run1" "ssd"
                 = Ok (filepaths_of "run1" "ssd.config" "ssd" "ssd.config"))
    by reflexivity.
  assert (Hdir : "/tf/dataset-export/" +:+ "run1" ∈ dirs example_store).
  { simpl. by apply elem_of_singleton. }
  assert (Hfile : ("/tf/dataset-export/" +:+ "run1") +:+ "/label_map.pbtxt"
                  ∉ dirs example_store).
  { simpl. by intros ?%elem_of_singleton. }
  assert (Hfield : "detections" ∈ fo.get_field_schema example_view)
    by (vm_compute; set_solver).
  exact (class_count_of_dataset example_shuffle example_base_models "run1"
           "ssd" "pets" "detections" _ example_store example_view
           example_shuffle_permutes Hset eq_refl Hfield Hdir Hfile).
Defined.
